(** * PostHog Flutter plugin for Linux: a shallow embedding and its properties

    The development follows the C++ sources under [linux/]:
    - [posthog_models.h]        (module [posthog])
    - [storage_manager.cc]      (module [StorageManager])
    - [http_client.cc]          (module [HttpClient])
    - [feature_flags_manager.cc](module [FeatureFlagsManager])
    - [session_replay_manager.cc] (module [SessionReplayManager])
    - [posthog_flutter_plugin.cc] (module [Plugin])

    Conventions.  [std::string] is [string]; [std::vector<uint8_t>] is
    [list byte]; C integers are [Z], with the wrap-around of unsigned
    arithmetic written where the source relies on it; positions inside a
    string are [nat] and [std::string::npos] is [None].  Objects that several
    managers point to (the storage manager, the HTTP client) are kept once, in
    the plugin record, and passed to the operations that use them. *)

From Stdlib Require Import ZArith List String Ascii Lia Bool.
From Stdlib Require Import Strings.Byte DecimalString DecimalZ DecimalPos.
From Stdlib Require Import Sorting.Sorted Sorting.Permutation.
From stdpp Require Import base option gmap strings list.
Import ListNotations.
Open Scope string_scope.
Open Scope list_scope.

(** ** Outcomes of loops and of code that can leave the defined behaviour *)

(** [Returns a]: the code returns [a].  [Throws]: a C++ exception leaves the
    function.  [Undefined]: the code indexes a vector outside its bounds or
    dereferences a null pointer, which C++ leaves undefined.  [OutOfFuel]: the
    step budget of the model ran out; [Base64Encode_fuel] shows that the
    budget of the one loop that uses this outcome is never exhausted. *)
Inductive outcome (A : Type) : Type :=
| Returns (a : A)
| Throws
| Undefined
| OutOfFuel.
Arguments Returns {A} a.
Arguments Throws {A}.
Arguments Undefined {A}.
Arguments OutOfFuel {A}.

(** [v.empty()] on a vector. *)
Definition is_nil {A : Type} (l : list A) : bool :=
  match l with [] => true | _ :: _ => false end.

(** ** Characters and unsigned arithmetic *)

Definition dquote : ascii := Eval cbv in ascii_of_nat 34.
Definition equals_sign : ascii := "="%char.

(** [size_t] arithmetic is modulo 2^64, [uint32_t] modulo 2^32. *)
Definition size_t (z : Z) : Z := (z mod 2 ^ 64)%Z.
Definition uint32_t (z : Z) : Z := (z mod 2 ^ 32)%Z.

(** The value of a [uint8_t]. *)
Definition byte_val (b : byte) : Z := Z.of_N (Byte.to_N b).

(** [data[i]] on a [std::vector<uint8_t>]: defined only inside the bounds. *)
Definition vector_at (data : list byte) (i : Z) : option Z :=
  if ((0 <=? i) && (i <? Z.of_nat (List.length data)))%Z
  then byte_val <$> nth_error data (Z.to_nat i)
  else None.

(** ** [std::string] operations *)

(** [s.find(c, pos)]. *)
Fixpoint find_char (c : ascii) (s : string) (pos : nat) : option nat :=
  match s with
  | EmptyString => None
  | String c' s' =>
    match pos with
    | O => if Ascii.eqb c' c then Some O else S <$> find_char c s' O
    | S pos' => S <$> find_char c s' pos'
    end
  end.

(** [s.find(pattern)] from the start of [s]. *)
Definition find_str (pattern s : string) : option nat := String.index 0 pattern s.

(** [s.substr(pos, len)] for [pos <= s.length()]. *)
Definition substr (s : string) (pos len : nat) : string :=
  String.substring pos len s.

(** [s[pos]] for [pos <= s.length()]: the character, and NUL at the end. *)
Definition char_at (s : string) (pos : nat) : ascii :=
  default "000"%char (String.get pos s).

(** [while (pos < s.length() && keep(s[pos])) pos++].  The loop runs at most
    [s.length()] times, so with that budget the exit at [O] is the exit of
    the loop at [pos >= s.length()] ([scan_while_fuel]). *)
Fixpoint scan_while (keep : ascii -> bool) (fuel : nat) (s : string) (pos : nat)
  : nat :=
  match fuel with
  | O => pos
  | S fuel' =>
    match String.get pos s with
    | Some c => if keep c then scan_while keep fuel' s (S pos) else pos
    | None => pos
    end
  end.

Definition is_blank (c : ascii) : bool :=
  Ascii.eqb c " "%char || Ascii.eqb c "009"%char.

Definition skip_blanks (s : string) (pos : nat) : nat :=
  scan_while is_blank (String.length s) s pos.

(** [s.find_first_not_of(" \t")] and [s.find_last_not_of(" \t")]. *)
Fixpoint find_first_not_blank (s : string) : option nat :=
  match s with
  | EmptyString => None
  | String c s' => if is_blank c then S <$> find_first_not_blank s' else Some O
  end.

Fixpoint find_last_not_blank (s : string) : option nat :=
  match s with
  | EmptyString => None
  | String c s' =>
    match find_last_not_blank s' with
    | Some k => Some (S k)
    | None => if is_blank c then None else Some O
    end
  end.

Fixpoint string_drop (n : nat) (s : string) : string :=
  match n, s with
  | O, _ => s
  | S n', EmptyString => EmptyString
  | S n', String _ s' => string_drop n' s'
  end.

(** [value.erase(0, value.find_first_not_of(" \t"));
     value.erase(value.find_last_not_of(" \t") + 1);]
    [erase(0, npos)] removes everything, and [npos + 1] is [0]. *)
Definition trim_blanks (value : string) : string :=
  let value := match find_first_not_blank value with
               | Some n => string_drop n value
               | None => EmptyString
               end in
  let from := match find_last_not_blank value with
              | Some k => S k
              | None => O
              end in
  substr value 0 from.

(** ** JSON values ([nlohmann::json])

    Objects are [std::map]s: their members are kept sorted by key, and
    [j[key] = v] inserts or replaces.  A double is carried as its 64 bits and
    never computed with. *)

#[local] Set Warnings "-register-all".
Inductive json : Type :=
| JNull
| JBool (b : bool)
| JInt (n : Z)
| JFloat (bits : Z)
| JString (s : string)
| JArray (items : list json)
| JObject (members : list (string * json)).

(** Insertion into a [std::map<std::string, V>] kept as a sorted list. *)
Fixpoint map_set {V : Type} (k : string) (v : V) (m : list (string * V))
  : list (string * V) :=
  match m with
  | [] => [(k, v)]
  | (k', v') :: rest =>
    match String.compare k k' with
    | Lt => (k, v) :: m
    | Eq => (k, v) :: rest
    | Gt => (k', v') :: map_set k v rest
    end
  end.

Fixpoint map_get {V : Type} (k : string) (m : list (string * V)) : option V :=
  match m with
  | [] => None
  | (k', v') :: rest => if String.eqb k k' then Some v' else map_get k rest
  end.

(** [j[key] = v].  On a null value nlohmann first turns [j] into an object;
    on any other non-object it throws, which no call below can reach (every
    receiver is built from null or from [json::object()]); the model leaves
    such a value as it is. *)
Definition set_member (j : json) (k : string) (v : json) : json :=
  match j with
  | JNull => JObject [(k, v)]
  | JObject members => JObject (map_set k v members)
  | _ => j
  end.

(** Reading a member of an object. *)
Definition member (j : json) (k : string) : option json :=
  match j with
  | JObject members => map_get k members
  | _ => None
  end.

(** The events of a payload [{"api_key": ..., "batch": [...]}]. *)
Definition payload_events (payload : json) : list json :=
  match member payload "batch" with
  | Some (JArray items) => items
  | _ => []
  end.

(** [std::to_string] of an [int64_t]: the decimal numeral, with a leading
    minus sign for a negative number. *)
Definition to_string (z : Z) : string := NilZero.string_of_int (Z.to_int z).

(** The number a decimal numeral denotes. *)
Definition decimal_value (s : string) : option Z :=
  Z.of_int <$> NilZero.int_of_string s.

(** ** posthog_models.h *)

Module posthog.

Record PostHogEvent := {
  event : string;
  distinct_id : string;
  timestamp : Z;
  properties : json
}.

Definition PostHogEvent_to_json (e : PostHogEvent) : json :=
  let j := JNull in
  let j := set_member j "event" (JString (event e)) in
  let j := set_member j "distinct_id" (JString (distinct_id e)) in
  let j := set_member j "timestamp" (JString (to_string (timestamp e))) in
  let j := set_member j "properties" (properties e) in
  j.

Record PostHogBatch := {
  batch_api_key : string;
  batch : list PostHogEvent
}.

Definition PostHogBatch_to_json (b : PostHogBatch) : json :=
  let j := JNull in
  let j := set_member j "api_key" (JString (batch_api_key b)) in
  let j := set_member j "batch" (JArray (map PostHogEvent_to_json (batch b))) in
  j.

Record SessionReplayWireframe := {
  wf_id : Z;
  wf_x : Z;
  wf_y : Z;
  wf_width : Z;
  wf_height : Z;
  wf_type : string;
  wf_base64 : string;
  wf_style : json
}.

Definition SessionReplayWireframe_to_json (w : SessionReplayWireframe) : json :=
  let j := JNull in
  let j := set_member j "id" (JInt (wf_id w)) in
  let j := set_member j "x" (JInt (wf_x w)) in
  let j := set_member j "y" (JInt (wf_y w)) in
  let j := set_member j "width" (JInt (wf_width w)) in
  let j := set_member j "height" (JInt (wf_height w)) in
  let j := set_member j "type" (JString (wf_type w)) in
  let j := set_member j "base64" (JString (wf_base64 w)) in
  let j := set_member j "style" (wf_style w) in
  j.

Record SessionReplaySnapshotData := {
  initialOffset : json;
  wireframes : list SessionReplayWireframe;
  sd_timestamp : Z
}.

Definition SessionReplaySnapshotData_to_json (d : SessionReplaySnapshotData)
  : json :=
  let j := JNull in
  let j := set_member j "initialOffset" (initialOffset d) in
  let j := set_member j "wireframes"
             (JArray (map SessionReplayWireframe_to_json (wireframes d))) in
  let j := set_member j "timestamp" (JInt (sd_timestamp d)) in
  j.

Record SessionReplaySnapshotEvent := {
  se_type : Z;
  se_data : SessionReplaySnapshotData;
  se_timestamp : Z
}.

Definition SessionReplaySnapshotEvent_to_json (e : SessionReplaySnapshotEvent)
  : json :=
  let j := JNull in
  let j := set_member j "type" (JInt (se_type e)) in
  let j := set_member j "data" (SessionReplaySnapshotData_to_json (se_data e)) in
  let j := set_member j "timestamp" (JInt (se_timestamp e)) in
  j.

Record SessionReplayEvent := {
  re_event : string;
  re_distinct_id : string;
  re_properties : json;
  re_timestamp : Z
}.

Definition SessionReplayEvent_to_json (e : SessionReplayEvent) : json :=
  let j := JNull in
  let j := set_member j "event"
             (JString (if String.eqb (re_event e) EmptyString
                       then "$snapshot" else re_event e)) in
  let j := set_member j "distinct_id"
             (JString (if String.eqb (re_distinct_id e) EmptyString
                       then "unknown_user" else re_distinct_id e)) in
  let j := set_member j "properties" (re_properties e) in
  let j := set_member j "timestamp" (JString (to_string (re_timestamp e))) in
  j.

Record SessionReplayBatch := {
  rb_api_key : string;
  rb_batch : list SessionReplayEvent
}.

Definition SessionReplayBatch_to_json (b : SessionReplayBatch) : json :=
  let j := JNull in
  let j := set_member j "api_key" (JString (rb_api_key b)) in
  let j := set_member j "batch" (JArray (map SessionReplayEvent_to_json (rb_batch b))) in
  j.

Record PostHogDecidePayload := {
  dp_api_key : string;
  dp_distinct_id : string;
  dp_properties : json
}.

(** [properties.empty()] holds for null and for an empty object or array. *)
Definition json_empty (j : json) : bool :=
  match j with
  | JNull | JArray [] | JObject [] => true
  | _ => false
  end.

Definition PostHogDecidePayload_to_json (p : PostHogDecidePayload) : json :=
  let j := JNull in
  let j := set_member j "api_key" (JString (dp_api_key p)) in
  let j := set_member j "distinct_id" (JString (dp_distinct_id p)) in
  let j := if json_empty (dp_properties p) then j
           else set_member j "properties" (dp_properties p) in
  j.

End posthog.

(** ** storage_manager.cc

    The SQLite database is modelled by its tables.  [events] lists the rows
    of the [events] table in the order of their insertion (their rowid);
    [id] is its primary key.  The key-value tables are finite maps.  A
    statement on an open database succeeds unless it violates the primary
    key; identifiers and the clock are inputs of the operations that draw
    them. *)

Module StorageManager.

Record event_row := {
  id : string;
  event_json : string;
  created_at : Z
}.

Record t := {
  db_ : bool;                               (* [db_ != nullptr] *)
  events : list event_row;
  settings : gmap string string;
  super_properties : gmap string string
}.

Definition with_events (s : t) (rows : list event_row) : t :=
  {| db_ := db_ s; events := rows; settings := settings s;
     super_properties := super_properties s |}.

Definition with_settings (s : t) (m : gmap string string) : t :=
  {| db_ := db_ s; events := events s; settings := m;
     super_properties := super_properties s |}.

Definition with_super_properties (s : t) (m : gmap string string) : t :=
  {| db_ := db_ s; events := events s; settings := settings s;
     super_properties := m |}.

(** The state after the constructor and a successful [Initialize] on a fresh
    directory. *)
Definition fresh : t :=
  {| db_ := true; events := []; settings := ∅; super_properties := ∅ |}.

Definition Close (s : t) : t :=
  {| db_ := false; events := events s; settings := settings s;
     super_properties := super_properties s |}.

Definition has_id (i : string) (rows : list event_row) : bool :=
  existsb (fun r => String.eqb (id r) i) rows.

(** [EnqueueEvent]: [uuid] is the value of [GenerateUUID()] and [now] the
    value of [time(nullptr)].  The INSERT fails on a duplicate primary key. *)
Definition EnqueueEvent (uuid : string) (now : Z) (json_text : string) (s : t)
  : bool * t :=
  if negb (db_ s) then (false, s)
  else if has_id uuid (events s) then (false, s)
  else (true,
        with_events s
          (events s ++ [{| id := uuid; event_json := json_text; created_at := now |}])).

(** [ORDER BY created_at ASC]: the statement names no second key; rows with
    equal [created_at] keep the order of the table. *)
Fixpoint insert_by_created_at (r : event_row) (sorted : list event_row)
  : list event_row :=
  match sorted with
  | [] => [r]
  | r' :: rest =>
    if (created_at r <? created_at r')%Z then r :: sorted
    else r' :: insert_by_created_at r rest
  end.

Definition order_by_created_at (rows : list event_row) : list event_row :=
  fold_left (fun sorted r => insert_by_created_at r sorted) rows [].

(** [LIMIT ?]: SQLite puts no upper bound on the rows when the value is
    negative. *)
Definition limit (n : Z) (rows : list event_row) : list event_row :=
  if (n <? 0)%Z then rows else firstn (Z.to_nat n) rows.

(** The rows [SELECT id, event_json FROM events ORDER BY created_at ASC
    LIMIT ?] steps through, and the strings built from them. *)
Definition selected_rows (max_count : Z) (rows : list event_row)
  : list event_row :=
  limit max_count (order_by_created_at rows).

Definition GetQueuedEvents (max_count : Z) (s : t) : list string :=
  if negb (db_ s) then []
  else map (fun r => id r +:+ "|" +:+ event_json r)
           (selected_rows max_count (events s)).

(** A prepared statement: its text and the values bound to its parameters,
    in the order of the parameters. *)
Record statement := {
  sql : string;
  bound : list string
}.

(** The loop building the placeholder list ["?,?,...,?"]. *)
Fixpoint placeholders_from (i : nat) (event_ids : list string) (acc : string)
  : string :=
  match event_ids with
  | [] => acc
  | _ :: rest =>
    let acc := if (0 <? i)%nat then acc +:+ "," else acc in
    placeholders_from (S i) rest (acc +:+ "?")
  end.

Definition delete_statement (event_ids : list string) : statement :=
  {| sql := "DELETE FROM events WHERE id IN ("
            +:+ placeholders_from 0 event_ids EmptyString +:+ ")";
     bound := event_ids |}.

(** Executing [DELETE FROM events WHERE id IN (...)] with the bound values. *)
Definition step_delete (st : statement) (rows : list event_row)
  : list event_row :=
  List.filter (fun r => negb (existsb (String.eqb (id r)) (bound st))) rows.

Definition RemoveEvents (event_ids : list string) (s : t) : bool * t :=
  if negb (db_ s) || is_nil event_ids then (false, s)
  else
    let st := delete_statement event_ids in
    (true, with_events s (step_delete st (events s))).

(** [sqlite3_column_int] keeps the low 32 bits of the count, as a signed
    [int]. *)
Definition int_of_int64 (z : Z) : Z := ((z + 2 ^ 31) mod 2 ^ 32 - 2 ^ 31)%Z.

Definition GetQueueSize (s : t) : Z :=
  if negb (db_ s) then 0%Z
  else int_of_int64 (Z.of_nat (List.length (events s))).

Definition set_setting (key value : string) (s : t) : bool * t :=
  if negb (db_ s) then (false, s)
  else (true, with_settings s (<[key := value]> (settings s))).

Definition get_setting (key dflt : string) (s : t) : string :=
  if negb (db_ s) then dflt else default dflt (settings s !! key).

Definition SetDistinctId (distinct_id : string) (s : t) : bool * t :=
  set_setting "distinct_id" distinct_id s.
Definition GetDistinctId (s : t) : string :=
  get_setting "distinct_id" EmptyString s.

Definition SetSessionId (session_id : string) (s : t) : bool * t :=
  set_setting "session_id" session_id s.
Definition GetSessionId (s : t) : string :=
  get_setting "session_id" EmptyString s.

Definition SetFeatureFlags (flags_json : string) (s : t) : bool * t :=
  set_setting "feature_flags" flags_json s.
Definition GetFeatureFlags (s : t) : string :=
  get_setting "feature_flags" "{}" s.

Definition SetOptOut (opt_out : bool) (s : t) : bool * t :=
  set_setting "opt_out" (if opt_out then "1" else "0") s.
Definition GetOptOut (s : t) : bool :=
  if negb (db_ s) then false
  else match settings s !! "opt_out" with
       | Some v => String.eqb v "1"
       | None => false
       end.

Definition SetSuperProperty (key value_json : string) (s : t) : bool * t :=
  if negb (db_ s) then (false, s)
  else (true, with_super_properties s (<[key := value_json]> (super_properties s))).

Definition RemoveSuperProperty (key : string) (s : t) : bool * t :=
  if negb (db_ s) then (false, s)
  else (true, with_super_properties s (delete key (super_properties s))).

(** The rows are collected into a [std::map], hence sorted by key. *)
Definition GetAllSuperProperties (s : t) : list (string * string) :=
  if negb (db_ s) then []
  else fold_right (fun kv m => map_set (fst kv) (snd kv) m) []
                  (map_to_list (super_properties s)).

End StorageManager.

(** ** Library functions the sources call

    [nlohmann::json::dump] and [parse], [std::stoll], the conversion of a
    double to [int64_t], and the PNG-to-JPEG transcoding done with libpng and
    libjpeg are not part of the sources; the model takes them as given.
    [json_parse] and [stoll] are [None] where the library throws;
    [transcode quality png width height] is [None] when the build has no JPEG
    support or when reading the PNG or writing the JPEG fails. *)

Record library := {
  json_dump : json -> string;
  json_parse : string -> option json;
  stoll : string -> option Z;
  double_to_int64 : Z -> Z;
  transcode : Z -> list byte -> Z -> Z -> option (list byte)
}.

(** ** http_client.cc

    [sent] lists the transfers handed to [curl_easy_perform], oldest first,
    each with its URL and body.  The result of a transfer is an input. *)

Module HttpClient.

Record HttpResponse := {
  status_code : Z;
  body : string;
  success : bool
}.

Definition no_response : HttpResponse :=
  {| status_code := 0; body := EmptyString; success := false |}.

Inductive curl_result :=
| CURLE_OK (response_code : Z) (response_body : string)
| CURLE_error.

Record t := {
  base_url_ : string;
  api_key_ : string;
  debug_ : bool;
  curl_handle_ : bool;                      (* [curl_handle_ != nullptr] *)
  sent : list (string * string)
}.

(** The state after the constructor and a successful [Initialize]. *)
Definition initialized : t :=
  {| base_url_ := EmptyString; api_key_ := EmptyString; debug_ := false;
     curl_handle_ := true; sent := [] |}.

(** [s.back()] of a non-empty string, and [s.pop_back()]. *)
Fixpoint back (s : string) : option ascii :=
  match s with
  | EmptyString => None
  | String c EmptyString => Some c
  | String _ s' => back s'
  end.

Fixpoint pop_back (s : string) : string :=
  match s with
  | EmptyString => EmptyString
  | String _ EmptyString => EmptyString
  | String c s' => String c (pop_back s')
  end.

Definition SetBaseUrl (base_url : string) (c : t) : t :=
  let url := match back base_url with
             | Some ch => if Ascii.eqb ch "/"%char then pop_back base_url
                          else base_url
             | None => base_url
             end in
  {| base_url_ := url; api_key_ := api_key_ c; debug_ := debug_ c;
     curl_handle_ := curl_handle_ c; sent := sent c |}.

Definition SetApiKey (api_key : string) (c : t) : t :=
  {| base_url_ := base_url_ c; api_key_ := api_key; debug_ := debug_ c;
     curl_handle_ := curl_handle_ c; sent := sent c |}.

Definition SetDebug (debug : bool) (c : t) : t :=
  {| base_url_ := base_url_ c; api_key_ := api_key_ c; debug_ := debug;
     curl_handle_ := curl_handle_ c; sent := sent c |}.

Definition PerformPost (net : curl_result) (endpoint payload : string) (c : t)
  : HttpResponse * t :=
  if negb (curl_handle_ c) || String.eqb (base_url_ c) EmptyString
  then (no_response, c)
  else
    let c' := {| base_url_ := base_url_ c; api_key_ := api_key_ c;
                 debug_ := debug_ c; curl_handle_ := curl_handle_ c;
                 sent := sent c ++ [(base_url_ c +:+ endpoint, payload)] |} in
    match net with
    | CURLE_OK code response_body =>
      ({| status_code := code; body := response_body;
          success := (200 <=? code)%Z && (code <? 300)%Z |}, c')
    | CURLE_error => (no_response, c')
    end.

(** One event of [BuildCapturePayload]'s loop: the body of the [try] block.
    [None]: a [json::exception] was thrown (handled by the fallback);
    [Some Throws]: [std::stoll] threw, which the [catch] does not handle. *)
Definition get_string (j : option json) : option string :=
  match j with
  | Some (JString s) => Some s
  | _ => None
  end.

Definition rebuild_event (lib : library) (event_str : string)
  : option (outcome posthog.PostHogEvent) :=
  event_json ← json_parse lib event_str;
  match event_json with
  | JNull | JObject _ =>
    ev ← get_string (member event_json "event");
    did ← get_string (member event_json "distinct_id");
    match member event_json "timestamp" with
    | Some (JString ts) =>
      match stoll lib ts with
      | None => Some Throws
      | Some n =>
        Some (Returns {| posthog.event := ev; posthog.distinct_id := did;
                        posthog.timestamp := n;
                        posthog.properties :=
                          default JNull (member event_json "properties") |})
      end
    | Some (JInt n) =>
      Some (Returns {| posthog.event := ev; posthog.distinct_id := did;
                      posthog.timestamp := n;
                      posthog.properties :=
                        default JNull (member event_json "properties") |})
    | Some (JFloat f) =>
      Some (Returns {| posthog.event := ev; posthog.distinct_id := did;
                      posthog.timestamp := double_to_int64 lib f;
                      posthog.properties :=
                        default JNull (member event_json "properties") |})
    | _ => None
    end
  | _ => None
  end.

(** The fallback of [BuildCapturePayload]: the stored texts joined by
    commas inside a hand-written envelope. *)
Fixpoint join_events (i : nat) (events : list string) (oss : string) : string :=
  match events with
  | [] => oss
  | e :: rest =>
    let oss := if (0 <? i)%nat then oss +:+ "," else oss in
    join_events (S i) rest (oss +:+ e)
  end.

Definition fallback_payload (c : t) (events : list string) : string :=
  let oss := "{" +:+ String dquote "api_key" +:+ String dquote ":"
             +:+ String dquote (api_key_ c) +:+ String dquote ","
             +:+ String dquote "batch" +:+ String dquote ":[" in
  join_events 0 events oss +:+ "]}".

Fixpoint BuildCapturePayload_loop (lib : library) (c : t)
    (all todo : list string) (acc : list posthog.PostHogEvent)
    : outcome string :=
  match todo with
  | [] =>
    Returns (json_dump lib
              (posthog.PostHogBatch_to_json
                 {| posthog.batch_api_key := api_key_ c; posthog.batch := acc |}))
  | event_str :: rest =>
    match rebuild_event lib event_str with
    | None => Returns (fallback_payload c all)
    | Some (Returns e) => BuildCapturePayload_loop lib c all rest (acc ++ [e])
    | Some _ => Throws
    end
  end.

Definition BuildCapturePayload (lib : library) (c : t) (events : list string)
    : outcome string :=
  BuildCapturePayload_loop lib c events events [].

Definition BuildDecidePayload (lib : library) (c : t) (distinct_id : string)
    (properties : list (string * string)) : string :=
  let props := fold_left (fun j kv => set_member j (fst kv) (JString (snd kv)))
                         properties JNull in
  json_dump lib
    (posthog.PostHogDecidePayload_to_json
       {| posthog.dp_api_key := api_key_ c;
          posthog.dp_distinct_id := distinct_id;
          posthog.dp_properties := props |}).

Definition PostCapture (lib : library) (net : curl_result)
    (events : list string) (c : t) : outcome (HttpResponse * t) :=
  match events with
  | [] => Returns (no_response, c)
  | _ :: _ =>
    match BuildCapturePayload lib c events with
    | Returns payload => Returns (PerformPost net "/capture/" payload c)
    | _ => Throws
    end
  end.

Definition PostDecide (lib : library) (net : curl_result)
    (distinct_id : string) (properties : list (string * string)) (c : t)
  : HttpResponse * t :=
  PerformPost net "/decide/" (BuildDecidePayload lib c distinct_id properties) c.

Definition PostSessionReplay (net : curl_result) (payload : string) (c : t)
  : HttpResponse * t :=
  PerformPost net "/capture/" payload c.

End HttpClient.

(** ** feature_flags_manager.cc *)

Module FeatureFlagsManager.

(** The loop matching braces in [ExtractJsonValue]; [depth] is an [int] and
    changes by one for each character, so it stays far from its bounds. *)
Fixpoint match_braces (fuel : nat) (json_text : string) (end_ : nat) (depth : Z)
  : nat :=
  match fuel with
  | O => end_
  | S fuel' =>
    match String.get end_ json_text with
    | Some c =>
      if (0 <? depth)%Z then
        let depth := if Ascii.eqb c "{"%char then (depth + 1)%Z
                     else if Ascii.eqb c "}"%char then (depth - 1)%Z
                     else depth in
        match_braces fuel' json_text (S end_) depth
      else end_
    | None => end_
    end
  end.

Definition ExtractJsonValue (json_text key : string) : string :=
  let search_key := String dquote key +:+ String dquote EmptyString in
  match find_str search_key json_text with
  | None => EmptyString
  | Some pos =>
    match find_char ":"%char json_text pos with
    | None => EmptyString
    | Some pos =>
      let pos := S pos in
      let pos := skip_blanks json_text pos in
      if negb (pos <? String.length json_text)%nat then EmptyString
      else if Ascii.eqb (char_at json_text pos) dquote then
        let pos := S pos in
        match find_char dquote json_text pos with
        | None => EmptyString
        | Some end_ => substr json_text pos (end_ - pos)
        end
      else if Ascii.eqb (char_at json_text pos) "{"%char then
        let end_ := match_braces (String.length json_text) json_text (S pos) 1 in
        substr json_text pos (end_ - pos)
      else
        let end_ :=
          scan_while (fun c => negb (Ascii.eqb c ","%char)
                               && negb (Ascii.eqb c "}"%char)
                               && negb (Ascii.eqb c "]"%char))
                     (String.length json_text) json_text pos in
        trim_blanks (substr json_text pos (end_ - pos))
    end
  end.

Record t := {
  flags_cache_ : gmap string string
}.

(** The value of one flag, read at [pos], and the position behind it: a
    quoted string without its quotes, or the text up to the next [','] or
    ['}'] without the blanks around it.  [None] when the closing quote is
    missing (the loop of [ParseFlagsResponse] then ends). *)
Definition parse_value (flags_json : string) (pos : nat) : option (string * nat) :=
  if Ascii.eqb (char_at flags_json pos) dquote then
    let pos := S pos in
    match find_char dquote flags_json pos with
    | None => None
    | Some value_end =>
      Some (substr flags_json pos (value_end - pos), S value_end)
    end
  else
    let value_end :=
      scan_while (fun c => negb (Ascii.eqb c ","%char)
                           && negb (Ascii.eqb c "}"%char))
                 (String.length flags_json) flags_json pos in
    Some (trim_blanks (substr flags_json pos (value_end - pos)), value_end).

(** The [while (pos < flags_json.length())] loop of [ParseFlagsResponse].
    Every iteration that continues moves [pos] forward, so the loop runs at
    most [flags_json.length()] times; with that budget the exit at [O] is the
    exit of the loop at [pos >= flags_json.length()]
    ([ParseFlags_loop_fuel]). *)
Fixpoint ParseFlags_loop (fuel : nat) (flags_json : string) (pos : nat)
    (cache : gmap string string) : gmap string string :=
  match fuel with
  | O => cache
  | S fuel' =>
    if negb (pos <? String.length flags_json)%nat then cache else
    match find_char dquote flags_json pos with
    | None => cache
    | Some key_start =>
      let key_start := S key_start in
      match find_char dquote flags_json key_start with
      | None => cache
      | Some key_end =>
        let key := substr flags_json key_start (key_end - key_start) in
        match find_char ":"%char flags_json key_end with
        | None => cache
        | Some pos =>
          let pos := S pos in
          let pos := skip_blanks flags_json pos in
          if negb (pos <? String.length flags_json)%nat then cache else
          match parse_value flags_json pos with
          | None => cache
          | Some (value, pos) =>
            let cache := <[key := value]> cache in
            match find_char ","%char flags_json pos with
            | None => cache
            | Some pos => ParseFlags_loop fuel' flags_json (S pos) cache
            end
          end
        end
      end
    end
  end.

(** [ParseFlagsResponse] clears the cache, then looks for the flags object;
    the response is persisted only after the loop. *)
Definition ParseFlagsResponse (response_json : string)
    (storage : StorageManager.t) (m : t) : t * StorageManager.t :=
  let cache : gmap string string := ∅ in
  let flags_json := ExtractJsonValue response_json "featureFlags" in
  if String.eqb flags_json EmptyString
     || negb (Ascii.eqb (char_at flags_json 0) "{"%char)
  then ({| flags_cache_ := cache |}, storage)
  else
    let cache := ParseFlags_loop (String.length flags_json) flags_json 1 cache in
    ({| flags_cache_ := cache |},
     snd (StorageManager.SetFeatureFlags response_json storage)).

Definition LoadCachedFlags (storage : StorageManager.t) (m : t)
  : t * StorageManager.t :=
  let cached_flags := StorageManager.GetFeatureFlags storage in
  if negb (String.eqb cached_flags EmptyString)
     && negb (String.eqb cached_flags "{}")
  then ParseFlagsResponse cached_flags storage m
  else (m, storage).

(** The constructor. *)
Definition new (storage : StorageManager.t) : t * StorageManager.t :=
  LoadCachedFlags storage {| flags_cache_ := ∅ |}.

Definition ReloadFeatureFlags (lib : library) (net : HttpClient.curl_result)
    (distinct_id : string) (properties : list (string * string))
    (http : HttpClient.t) (storage : StorageManager.t) (m : t)
  : bool * HttpClient.t * StorageManager.t * t :=
  let '(response, http) :=
    HttpClient.PostDecide lib net distinct_id properties http in
  if HttpClient.success response
     && negb (String.eqb (HttpClient.body response) EmptyString)
  then
    let '(m, storage) := ParseFlagsResponse (HttpClient.body response) storage m in
    (true, http, storage, m)
  else (false, http, storage, m).

Definition IsFeatureEnabled (flag_key : string) (m : t) : bool :=
  match flags_cache_ m !! flag_key with
  | None => false
  | Some value =>
    String.eqb value "true" || String.eqb value "1"
    || (Ascii.eqb (char_at value 0) dquote && (2 <? String.length value)%nat)
  end.

Definition GetFeatureFlag (flag_key : string) (m : t) : string :=
  match flags_cache_ m !! flag_key with
  | None => EmptyString
  | Some value =>
    if (2 <=? String.length value)%nat
       && Ascii.eqb (char_at value 0) dquote
       && Ascii.eqb (char_at value (String.length value - 1)) dquote
    then substr value 1 (String.length value - 2)
    else value
  end.

Definition GetFeatureFlagPayload (flag_key : string) (m : t) : string :=
  EmptyString.

End FeatureFlagsManager.

(** ** session_replay_manager.cc: Base64Encode *)

Module SessionReplayManager.

Definition base64_chars : string :=
  "ABCDEFGHIJKLMNOPQRSTUVWXYZabcdefghijklmnopqrstuvwxyz0123456789+/".

(** [base64_chars[k]]; every use masks [k] with [0x3F]. *)
Definition base64_char (k : Z) : ascii :=
  default "000"%char (String.get (Z.to_nat k) base64_chars).

(** The four characters streamed for one 24-bit group [b]. *)
Definition group4 (b : Z) : string :=
  String (base64_char (Z.land (Z.shiftr b 18) 63))
    (String (base64_char (Z.land (Z.shiftr b 12) 63))
       (String (base64_char (Z.land (Z.shiftr b 6) 63))
          (String (base64_char (Z.land b 63)) EmptyString))).

(** The [for] loop: [for (i = 0; i < data.size() - 2; i += 3)].  The bound
    [data.size() - 2] is computed in [size_t]. *)
Fixpoint Base64Encode_loop (fuel : nat) (data : list byte) (i : Z) (ss : string)
  : outcome (Z * string) :=
  match fuel with
  | O => OutOfFuel
  | S fuel' =>
    if (i <? size_t (Z.of_nat (List.length data) - 2))%Z then
      match vector_at data i, vector_at data (i + 1), vector_at data (i + 2) with
      | Some d0, Some d1, Some d2 =>
        let b := uint32_t (Z.lor (Z.lor (Z.shiftl d0 16) (Z.shiftl d1 8)) d2) in
        Base64Encode_loop fuel' data (size_t (i + 3)) (ss +:+ group4 b)
      | _, _, _ => Undefined
      end
    else Returns (i, ss)
  end.

(** The code after the loop: the last one or two bytes, padded with '='. *)
Definition Base64Encode_tail (data : list byte) (i : Z) (ss : string)
  : outcome string :=
  if (i <? Z.of_nat (List.length data))%Z then
    match vector_at data i with
    | None => Undefined
    | Some d0 =>
      let b0 := uint32_t (Z.shiftl d0 16) in
      let has_second := (size_t (i + 1) <? Z.of_nat (List.length data))%Z in
      let second :=
        if has_second then
          match vector_at data (i + 1) with
          | Some d1 => Returns (uint32_t (Z.lor b0 (Z.shiftl d1 8)))
          | None => Undefined
          end
        else Returns b0 in
      match second with
      | Returns b =>
        Returns
          (ss +:+ String (base64_char (Z.land (Z.shiftr b 18) 63))
                   (String (base64_char (Z.land (Z.shiftr b 12) 63))
                      (String (if has_second
                               then base64_char (Z.land (Z.shiftr b 6) 63)
                               else equals_sign)
                         (String equals_sign EmptyString))))
      | Throws => Throws
      | Undefined => Undefined
      | OutOfFuel => OutOfFuel
      end
    end
  else Returns ss.

Definition Base64Encode (data : list byte) : outcome string :=
  match Base64Encode_loop (S (List.length data)) data 0 EmptyString with
  | Returns (i, ss) => Base64Encode_tail data i ss
  | Throws => Throws
  | Undefined => Undefined
  | OutOfFuel => OutOfFuel
  end.

(** *** The replay pipeline *)

Record SnapshotData := {
  image_base64 : string;
  id : Z;
  x : Z;
  y : Z;
  width : Z;
  height : Z;
  timestamp : Z
}.

Record MetaEventData := {
  meta_width : Z;
  meta_height : Z;
  meta_screen : string;
  meta_timestamp : Z
}.

(** [http_client_] and [storage_manager_] say whether the two pointers are
    non-null; the objects they point to belong to the plugin.  Times are in
    milliseconds. *)
Record t := {
  http_client_ : bool;
  storage_manager_ : bool;
  api_key_ : string;
  snapshot_buffer_ : list SnapshotData;
  meta_event_buffer_ : list MetaEventData;
  should_flush_ : bool;
  is_active_ : bool;
  compression_quality_ : Z;
  batch_size_ : Z;
  batch_interval_ms_ : Z;
  max_image_dimension_ : Z;
  debug_ : bool;
  last_batch_time_ : Z;
  meta_event_sent_ : bool
}.

(** The constructor; [now] is the steady clock. *)
Definition new (api_key : string) (now : Z) : t :=
  {| http_client_ := true; storage_manager_ := true; api_key_ := api_key;
     snapshot_buffer_ := []; meta_event_buffer_ := [];
     should_flush_ := true; is_active_ := false;
     compression_quality_ := 75; batch_size_ := 10;
     batch_interval_ms_ := 5000; max_image_dimension_ := 0;
     debug_ := false; last_batch_time_ := now; meta_event_sent_ := false |}.

Definition with_buffers (m : t) (snapshots : list SnapshotData)
    (metas : list MetaEventData) (last : Z) (meta_sent : bool) : t :=
  {| http_client_ := http_client_ m; storage_manager_ := storage_manager_ m;
     api_key_ := api_key_ m;
     snapshot_buffer_ := snapshots; meta_event_buffer_ := metas;
     should_flush_ := should_flush_ m; is_active_ := is_active_ m;
     compression_quality_ := compression_quality_ m;
     batch_size_ := batch_size_ m;
     batch_interval_ms_ := batch_interval_ms_ m;
     max_image_dimension_ := max_image_dimension_ m;
     debug_ := debug_ m; last_batch_time_ := last;
     meta_event_sent_ := meta_sent |}.

Definition SetActive (active : bool) (m : t) : t :=
  {| http_client_ := http_client_ m; storage_manager_ := storage_manager_ m;
     api_key_ := api_key_ m;
     snapshot_buffer_ := snapshot_buffer_ m;
     meta_event_buffer_ := meta_event_buffer_ m;
     should_flush_ := should_flush_ m; is_active_ := active;
     compression_quality_ := compression_quality_ m;
     batch_size_ := batch_size_ m;
     batch_interval_ms_ := batch_interval_ms_ m;
     max_image_dimension_ := max_image_dimension_ m;
     debug_ := debug_ m; last_batch_time_ := last_batch_time_ m;
     meta_event_sent_ := meta_event_sent_ m |}.

(** The four setters of the tuning knobs, and [SetDebug]. *)
Definition configure (quality size interval_ms max_dim : Z) (debug : bool)
    (m : t) : t :=
  {| http_client_ := http_client_ m; storage_manager_ := storage_manager_ m;
     api_key_ := api_key_ m;
     snapshot_buffer_ := snapshot_buffer_ m;
     meta_event_buffer_ := meta_event_buffer_ m;
     should_flush_ := should_flush_ m; is_active_ := is_active_ m;
     compression_quality_ := quality; batch_size_ := size;
     batch_interval_ms_ := interval_ms; max_image_dimension_ := max_dim;
     debug_ := debug; last_batch_time_ := last_batch_time_ m;
     meta_event_sent_ := meta_event_sent_ m |}.

Definition SetCompressionQuality (quality : Z) (m : t) : t :=
  configure quality (batch_size_ m) (batch_interval_ms_ m)
            (max_image_dimension_ m) (debug_ m) m.
Definition SetBatchSize (size : Z) (m : t) : t :=
  configure (compression_quality_ m) size (batch_interval_ms_ m)
            (max_image_dimension_ m) (debug_ m) m.
Definition SetBatchInterval (interval_ms : Z) (m : t) : t :=
  configure (compression_quality_ m) (batch_size_ m) interval_ms
            (max_image_dimension_ m) (debug_ m) m.
Definition SetMaxImageDimension (max_dim : Z) (m : t) : t :=
  configure (compression_quality_ m) (batch_size_ m) (batch_interval_ms_ m)
            max_dim (debug_ m) m.
Definition SetDebug (debug : bool) (m : t) : t :=
  configure (compression_quality_ m) (batch_size_ m) (batch_interval_ms_ m)
            (max_image_dimension_ m) debug m.

(** [ResizeImage] computes a scaled size and then overwrites it: both
    branches return the image and the size they were given. *)
Definition ResizeImage (m : t) (image_data : list byte)
    (original_width original_height : Z) : list byte * Z * Z :=
  if (max_image_dimension_ m <=? 0)%Z
     || ((original_width <=? max_image_dimension_ m)%Z
         && (original_height <=? max_image_dimension_ m)%Z)
  then (image_data, original_width, original_height)
  else (image_data, original_width, original_height).

(** [CompressToJpeg]: the JPEG bytes, or the PNG bytes as they came. *)
Definition CompressToJpeg (lib : library) (m : t) (png_data : list byte)
    (w h : Z) : list byte :=
  match transcode lib (compression_quality_ m) png_data w h with
  | Some jpeg_data => jpeg_data
  | None => png_data
  end.

(** [AddSnapshot]; [now_ms] is the system clock. *)
Definition AddSnapshot (lib : library) (now_ms : Z) (png_data : list byte)
    (id_ x_ y_ width_ height_ : Z) (m : t) : outcome t :=
  if negb (is_active_ m) then Returns m
  else
    let '(processed_data, final_width, final_height) :=
      ResizeImage m png_data width_ height_ in
    let compressed := CompressToJpeg lib m processed_data final_width final_height in
    match Base64Encode compressed with
    | Returns base64 =>
      let snapshot :=
        {| image_base64 := base64; id := id_; x := x_; y := y_;
           width := final_width; height := final_height;
           timestamp := now_ms |} in
      Returns (with_buffers m (snapshot_buffer_ m ++ [snapshot])
                 (meta_event_buffer_ m) (last_batch_time_ m)
                 (meta_event_sent_ m))
    | Throws => Throws
    | Undefined => Undefined
    | OutOfFuel => OutOfFuel
    end.

Definition AddMetaEvent (now_ms : Z) (width_ height_ : Z) (screen : string)
    (m : t) : t :=
  if negb (is_active_ m) then m
  else
    let meta := {| meta_width := width_; meta_height := height_;
                   meta_screen := screen; meta_timestamp := now_ms |} in
    with_buffers m (snapshot_buffer_ m) (meta_event_buffer_ m ++ [meta])
      (last_batch_time_ m) true.

(** The distinct id of a replay batch: the stored one, or one made from
    the clock and a random number in [1000, 9999] and stored; a manager
    without storage uses ["replay_<clock>"]. *)
Definition batch_distinct_id (now_ms random : Z) (storage : StorageManager.t)
    (m : t) : string * StorageManager.t :=
  let '(distinct_id, storage) :=
    if storage_manager_ m then
      let distinct_id := StorageManager.GetDistinctId storage in
      if String.eqb distinct_id EmptyString then
        let distinct_id := to_string now_ms +:+ "-" +:+ to_string random in
        (distinct_id, snd (StorageManager.SetDistinctId distinct_id storage))
      else (distinct_id, storage)
    else ("replay_" +:+ to_string now_ms, storage) in
  (if String.eqb distinct_id EmptyString then "unknown_user" else distinct_id,
   storage).

Definition batch_session_id (now_ms : Z) (storage : StorageManager.t) (m : t)
  : string :=
  let session_id :=
    if storage_manager_ m then
      let session_id := StorageManager.GetSessionId storage in
      if String.eqb session_id EmptyString
      then "session_" +:+ to_string now_ms
      else session_id
    else "session_" +:+ to_string now_ms in
  if String.eqb session_id EmptyString then "unknown_session" else session_id.

(** The properties both loops of [SendBatch] set before [$snapshot_data]. *)
Definition replay_properties (session_id : string) (screen_width screen_height : Z)
  : json :=
  let p := JNull in
  let p := set_member p "$snapshot_source" (JString "mobile") in
  let p := set_member p "$session_id" (JString session_id) in
  let p := set_member p "$window_id" (JString "main") in
  let p := set_member p "$lib" (JString "posthog-flutter") in
  let p := set_member p "$lib_version" (JString "5.9.0") in
  let p := set_member p "$device_type" (JString "Mobile") in
  let p := set_member p "$os" (JString "Linux") in
  let p := set_member p "$screen_width" (JInt screen_width) in
  let p := set_member p "$screen_height" (JInt screen_height) in
  p.

Definition initial_offset : json :=
  set_member (set_member JNull "top" (JInt 0)) "left" (JInt 0).

Definition meta_replay_event (distinct_id session_id : string)
    (meta : MetaEventData) : posthog.SessionReplayEvent :=
  let meta_data :=
    set_member
      (set_member (set_member JNull "href" (JString (meta_screen meta)))
         "width" (JInt (meta_width meta)))
      "height" (JInt (meta_height meta)) in
  let entry :=
    set_member
      (set_member (set_member JNull "type" (JInt 4)) "data" meta_data)
      "timestamp" (JInt (meta_timestamp meta)) in
  let p := replay_properties session_id (meta_width meta) (meta_height meta) in
  let p := set_member p "$snapshot_data" (JArray [entry]) in
  {| posthog.re_event := "$snapshot"; posthog.re_distinct_id := distinct_id;
     posthog.re_properties := p; posthog.re_timestamp := meta_timestamp meta |}.

Definition snapshot_wireframe (snapshot : SnapshotData)
  : posthog.SessionReplayWireframe :=
  {| posthog.wf_id := id snapshot; posthog.wf_x := x snapshot;
     posthog.wf_y := y snapshot; posthog.wf_width := width snapshot;
     posthog.wf_height := height snapshot; posthog.wf_type := "screenshot";
     posthog.wf_base64 := image_base64 snapshot;
     posthog.wf_style := JObject [] |}.

Definition snapshot_replay_event (distinct_id session_id : string)
    (snapshot : SnapshotData) : posthog.SessionReplayEvent :=
  let snapshot_data :=
    {| posthog.initialOffset := initial_offset;
       posthog.wireframes := [snapshot_wireframe snapshot];
       posthog.sd_timestamp := timestamp snapshot |} in
  let snapshot_event :=
    {| posthog.se_type := 2; posthog.se_data := snapshot_data;
       posthog.se_timestamp := timestamp snapshot |} in
  let p := replay_properties session_id (width snapshot) (height snapshot) in
  let p := set_member p "$snapshot_data"
             (JArray [posthog.SessionReplaySnapshotEvent_to_json snapshot_event]) in
  {| posthog.re_event := "$snapshot"; posthog.re_distinct_id := distinct_id;
     posthog.re_properties := p; posthog.re_timestamp := timestamp snapshot |}.

(** The batch of [SendBatch]: meta events first, then snapshots. *)
Definition replay_batch (m : t) (distinct_id session_id : string)
    (snapshots : list SnapshotData) (meta_events : list MetaEventData)
  : posthog.SessionReplayBatch :=
  {| posthog.rb_api_key := api_key_ m;
     posthog.rb_batch :=
       map (meta_replay_event distinct_id session_id) meta_events
       ++ map (snapshot_replay_event distinct_id session_id) snapshots |}.

Definition SendBatch (lib : library) (net : HttpClient.curl_result)
    (now_ms random : Z)
    (snapshots : list SnapshotData) (meta_events : list MetaEventData)
    (http : HttpClient.t) (storage : StorageManager.t) (m : t)
  : HttpClient.t * StorageManager.t :=
  if is_nil snapshots && is_nil meta_events then (http, storage)
  else if negb (http_client_ m) then (http, storage)
  else
    let '(distinct_id, storage) := batch_distinct_id now_ms random storage m in
    let session_id := batch_session_id now_ms storage m in
    let payload :=
      json_dump lib
        (posthog.SessionReplayBatch_to_json
           (replay_batch m distinct_id session_id snapshots meta_events)) in
    (snd (HttpClient.PostSessionReplay net payload http), storage).

(** One turn of the [while (should_flush_)] loop of [FlushThread], after
    its 100 ms sleep.  [now] is the steady clock, [now_ms] the system clock.
    The first component is [false] when the turn leaves the loop by
    [break]. *)
Definition FlushThread_iteration (lib : library) (net : HttpClient.curl_result)
    (now now_ms random : Z)
    (http : HttpClient.t) (storage : StorageManager.t) (m : t)
  : bool * t * HttpClient.t * StorageManager.t :=
  if negb (should_flush_ m) || negb (is_active_ m) then (true, m, http, storage)
  else if negb (http_client_ m) then (false, m, http, storage)
  else
    let elapsed := (now - last_batch_time_ m)%Z in
    let should_send :=
      if (size_t (batch_size_ m) <=? Z.of_nat (List.length (snapshot_buffer_ m)))%Z
      then true
      else if (batch_interval_ms_ m <=? elapsed)%Z
              && negb (is_nil (snapshot_buffer_ m))
      then true
      else false in
    if should_send then
      let snapshots := snapshot_buffer_ m in
      let meta_events := meta_event_buffer_ m in
      let m := with_buffers m [] [] now (meta_event_sent_ m) in
      let '(http, storage) :=
        SendBatch lib net now_ms random snapshots meta_events http storage m in
      (true, m, http, storage)
    else (true, m, http, storage).

Definition Flush (lib : library) (net : HttpClient.curl_result)
    (now_ms random : Z)
    (http : HttpClient.t) (storage : StorageManager.t) (m : t)
  : t * HttpClient.t * StorageManager.t :=
  if negb (http_client_ m) then (m, http, storage)
  else
    let snapshots := snapshot_buffer_ m in
    let meta_events := meta_event_buffer_ m in
    let m := if negb (is_nil snapshots) || negb (is_nil meta_events)
             then with_buffers m [] [] (last_batch_time_ m) (meta_event_sent_ m)
             else m in
    if negb (is_nil snapshots) || negb (is_nil meta_events) then
      let '(http, storage) :=
        SendBatch lib net now_ms random snapshots meta_events http storage m in
      (m, http, storage)
    else (m, http, storage).

End SessionReplayManager.

(** ** Reference base64 decoding (RFC 4648), the reader's side of the wire *)

Module Base64Reference.

Fixpoint index_in (c : ascii) (s : string) (k : Z) : option Z :=
  match s with
  | EmptyString => None
  | String c' s' => if Ascii.eqb c c' then Some k else index_in c s' (k + 1)%Z
  end.

Definition sextet (c : ascii) : option Z :=
  index_in c SessionReplayManager.base64_chars 0.

Definition octet (z : Z) : option byte := Byte.of_N (Z.to_N z).

Fixpoint decode_chars (l : list ascii) : option (list byte) :=
  match l with
  | [] => Some []
  | c0 :: c1 :: c2 :: c3 :: rest =>
    s0 ← sextet c0;
    s1 ← sextet c1;
    if Ascii.eqb c3 equals_sign then
      match rest with
      | _ :: _ => None
      | [] =>
        if Ascii.eqb c2 equals_sign then
          o0 ← octet (Z.land (Z.lor (Z.shiftl s0 2) (Z.shiftr s1 4)) 255);
          Some [o0]
        else
          s2 ← sextet c2;
          o0 ← octet (Z.land (Z.lor (Z.shiftl s0 2) (Z.shiftr s1 4)) 255);
          o1 ← octet (Z.land (Z.lor (Z.shiftl s1 4) (Z.shiftr s2 2)) 255);
          Some [o0; o1]
      end
    else
      s2 ← sextet c2;
      s3 ← sextet c3;
      o0 ← octet (Z.land (Z.lor (Z.shiftl s0 2) (Z.shiftr s1 4)) 255);
      o1 ← octet (Z.land (Z.lor (Z.shiftl s1 4) (Z.shiftr s2 2)) 255);
      o2 ← octet (Z.land (Z.lor (Z.shiftl s2 6) s3) 255);
      tl ← decode_chars rest;
      Some (o0 :: o1 :: o2 :: tl)
  | _ => None
  end.

Definition base64_decode (s : string) : option (list byte) :=
  decode_chars (list_ascii_of_string s).

(** The encoding written by recursion on the byte list, three bytes at a
    time; [Base64Encode_from] below shows that the index loop of the source
    computes it whenever the loop stays inside the vector. *)
Definition pack3 (d0 d1 d2 : Z) : Z :=
  Z.lor (Z.lor (Z.shiftl d0 16) (Z.shiftl d1 8)) d2.

Definition pad1 (d0 : Z) : string :=
  let b := pack3 d0 0 0 in
  String (SessionReplayManager.base64_char (Z.land (Z.shiftr b 18) 63))
    (String (SessionReplayManager.base64_char (Z.land (Z.shiftr b 12) 63))
       (String equals_sign (String equals_sign EmptyString))).

Definition pad2 (d0 d1 : Z) : string :=
  let b := pack3 d0 d1 0 in
  String (SessionReplayManager.base64_char (Z.land (Z.shiftr b 18) 63))
    (String (SessionReplayManager.base64_char (Z.land (Z.shiftr b 12) 63))
       (String (SessionReplayManager.base64_char (Z.land (Z.shiftr b 6) 63))
          (String equals_sign EmptyString))).

Fixpoint encode_groups (l : list byte) : string :=
  match l with
  | [] => EmptyString
  | [b0] => pad1 (byte_val b0)
  | [b0; b1] => pad2 (byte_val b0) (byte_val b1)
  | b0 :: b1 :: b2 :: rest =>
    SessionReplayManager.group4 (pack3 (byte_val b0) (byte_val b1) (byte_val b2))
      +:+ encode_groups rest
  end.

End Base64Reference.

(** ** posthog_flutter_plugin.cc *)

Module Plugin.

(** Values of the platform channel ([FlValue]).  [FlOther] stands for the
    typed lists other than the byte list, and for custom values. *)
Inductive FlValue : Type :=
| FlNull
| FlBool (b : bool)
| FlInt (n : Z)
| FlFloat (bits : Z)
| FlString (s : string)
| FlUint8List (bytes : list byte)
| FlList (items : list FlValue)
| FlMap (entries : list (FlValue * FlValue))
| FlOther.

(** [fl_value_lookup_string]: null unless the value is a map with the key. *)
Fixpoint lookup_entries (key : string) (entries : list (FlValue * FlValue))
  : option FlValue :=
  match entries with
  | [] => None
  | (FlString k, v) :: rest =>
    if String.eqb k key then Some v else lookup_entries key rest
  | _ :: rest => lookup_entries key rest
  end.

Definition fl_value_lookup_string (value : FlValue) (key : string)
  : option FlValue :=
  match value with
  | FlMap entries => lookup_entries key entries
  | _ => None
  end.

Definition lookup_fl_string (value : FlValue) (key : string) : option string :=
  match fl_value_lookup_string value key with
  | Some (FlString s) => Some s
  | _ => None
  end.

Definition lookup_fl_int (value : FlValue) (key : string) : option Z :=
  match fl_value_lookup_string value key with
  | Some (FlInt n) => Some n
  | _ => None
  end.

Definition lookup_fl_bool (value : FlValue) (key : string) : option bool :=
  match fl_value_lookup_string value key with
  | Some (FlBool b) => Some b
  | _ => None
  end.

(** [fl_value_get_string] read without a type check: a string only when the
    value is one. *)
Definition fl_value_get_string (value : FlValue) : option string :=
  match value with
  | FlString s => Some s
  | _ => None
  end.

Fixpoint fl_value_to_json_obj (value : FlValue) : json :=
  match value with
  | FlNull => JNull
  | FlBool b => JBool b
  | FlInt n => JInt n
  | FlFloat f => JFloat f
  | FlString s => JString s
  | FlUint8List _ => JString "<binary>"
  | FlList items => JArray (map fl_value_to_json_obj items)
  | FlMap _ => JObject []
  | FlOther => JString "<unknown>"
  end.

Record t := {
  storage_manager : option StorageManager.t;
  http_client : option HttpClient.t;
  feature_flags_manager : option FeatureFlagsManager.t;
  session_replay_manager : option SessionReplayManager.t;
  api_key : string;
  host : string;
  flush_at : Z;
  max_queue_size : Z;
  max_batch_size : Z;
  flush_interval_seconds : Z;
  debug : bool;
  opt_out : bool;
  initialized : bool;
  session_replay_enabled : bool;
  should_flush : bool
}.

(** [posthog_flutter_plugin_init]. *)
Definition init : t :=
  {| storage_manager := None; http_client := None;
     feature_flags_manager := None; session_replay_manager := None;
     api_key := EmptyString; host := EmptyString;
     flush_at := 20; max_queue_size := 1000; max_batch_size := 50;
     flush_interval_seconds := 30;
     debug := false; opt_out := false; initialized := false;
     session_replay_enabled := false; should_flush := false |}.

Definition with_storage (p : t) (s : StorageManager.t) : t :=
  {| storage_manager := Some s; http_client := http_client p;
     feature_flags_manager := feature_flags_manager p;
     session_replay_manager := session_replay_manager p;
     api_key := api_key p; host := host p; flush_at := flush_at p;
     max_queue_size := max_queue_size p; max_batch_size := max_batch_size p;
     flush_interval_seconds := flush_interval_seconds p;
     debug := debug p; opt_out := opt_out p; initialized := initialized p;
     session_replay_enabled := session_replay_enabled p;
     should_flush := should_flush p |}.

Definition with_http (p : t) (c : HttpClient.t) : t :=
  {| storage_manager := storage_manager p; http_client := Some c;
     feature_flags_manager := feature_flags_manager p;
     session_replay_manager := session_replay_manager p;
     api_key := api_key p; host := host p; flush_at := flush_at p;
     max_queue_size := max_queue_size p; max_batch_size := max_batch_size p;
     flush_interval_seconds := flush_interval_seconds p;
     debug := debug p; opt_out := opt_out p; initialized := initialized p;
     session_replay_enabled := session_replay_enabled p;
     should_flush := should_flush p |}.

Definition with_flags (p : t) (m : FeatureFlagsManager.t) : t :=
  {| storage_manager := storage_manager p; http_client := http_client p;
     feature_flags_manager := Some m;
     session_replay_manager := session_replay_manager p;
     api_key := api_key p; host := host p; flush_at := flush_at p;
     max_queue_size := max_queue_size p; max_batch_size := max_batch_size p;
     flush_interval_seconds := flush_interval_seconds p;
     debug := debug p; opt_out := opt_out p; initialized := initialized p;
     session_replay_enabled := session_replay_enabled p;
     should_flush := should_flush p |}.

Definition with_replay (p : t) (m : option SessionReplayManager.t) : t :=
  {| storage_manager := storage_manager p; http_client := http_client p;
     feature_flags_manager := feature_flags_manager p;
     session_replay_manager := m;
     api_key := api_key p; host := host p; flush_at := flush_at p;
     max_queue_size := max_queue_size p; max_batch_size := max_batch_size p;
     flush_interval_seconds := flush_interval_seconds p;
     debug := debug p; opt_out := opt_out p; initialized := initialized p;
     session_replay_enabled := session_replay_enabled p;
     should_flush := should_flush p |}.

Definition with_opt_out (p : t) (b : bool) : t :=
  {| storage_manager := storage_manager p; http_client := http_client p;
     feature_flags_manager := feature_flags_manager p;
     session_replay_manager := session_replay_manager p;
     api_key := api_key p; host := host p; flush_at := flush_at p;
     max_queue_size := max_queue_size p; max_batch_size := max_batch_size p;
     flush_interval_seconds := flush_interval_seconds p;
     debug := debug p; opt_out := b; initialized := initialized p;
     session_replay_enabled := session_replay_enabled p;
     should_flush := should_flush p |}.

Definition with_debug (p : t) (b : bool) : t :=
  {| storage_manager := storage_manager p; http_client := http_client p;
     feature_flags_manager := feature_flags_manager p;
     session_replay_manager := session_replay_manager p;
     api_key := api_key p; host := host p; flush_at := flush_at p;
     max_queue_size := max_queue_size p; max_batch_size := max_batch_size p;
     flush_interval_seconds := flush_interval_seconds p;
     debug := b; opt_out := opt_out p; initialized := initialized p;
     session_replay_enabled := session_replay_enabled p;
     should_flush := should_flush p |}.

Definition with_should_flush (p : t) (b : bool) : t :=
  {| storage_manager := storage_manager p; http_client := http_client p;
     feature_flags_manager := feature_flags_manager p;
     session_replay_manager := session_replay_manager p;
     api_key := api_key p; host := host p; flush_at := flush_at p;
     max_queue_size := max_queue_size p; max_batch_size := max_batch_size p;
     flush_interval_seconds := flush_interval_seconds p;
     debug := debug p; opt_out := opt_out p; initialized := initialized p;
     session_replay_enabled := session_replay_enabled p;
     should_flush := b |}.

(** What the outside world supplies during one call: the readings of the
    clocks, the identifiers drawn from the random generator (one per place
    that can draw one), and the result of the transfer, if one is made. *)
Record env := {
  now_ms : Z;                    (* system clock, milliseconds *)
  now_s : Z;                     (* [time(nullptr)] *)
  now_steady : Z;                (* steady clock, milliseconds *)
  fresh_distinct_id : string;    (* [generate_uuid()] for a distinct id *)
  fresh_session_id : string;     (* [generate_uuid()] for a session id *)
  fresh_row_id : string;         (* [GenerateUUID()] in [EnqueueEvent] *)
  random : Z;                    (* the number drawn in [SendBatch] *)
  net : HttpClient.curl_result;
  disk : option StorageManager.t; (* the database [Initialize] opens, if it can *)
  curl_init : bool               (* whether [curl_easy_init] gives a handle *)
}.

Definition get_or_create_distinct_id (e : env) (storage : StorageManager.t)
  : string * StorageManager.t :=
  let distinct_id := StorageManager.GetDistinctId storage in
  if String.eqb distinct_id EmptyString then
    (fresh_distinct_id e,
     snd (StorageManager.SetDistinctId (fresh_distinct_id e) storage))
  else (distinct_id, storage).

Definition get_or_create_session_id (e : env) (storage : StorageManager.t)
  : string * StorageManager.t :=
  let session_id := StorageManager.GetSessionId storage in
  if String.eqb session_id EmptyString then
    (fresh_session_id e,
     snd (StorageManager.SetSessionId (fresh_session_id e) storage))
  else (session_id, storage).

(** Splitting the ["id|json"] strings of [GetQueuedEvents]; a string with
    no ['|'] is skipped. *)
Fixpoint split_events (events : list string) : list string * list string :=
  match events with
  | [] => ([], [])
  | event_with_id :: rest =>
    let '(event_ids, event_jsons) := split_events rest in
    match find_char "|"%char event_with_id 0 with
    | Some pos =>
      (substr event_with_id 0 pos :: event_ids,
       string_drop (S pos) event_with_id :: event_jsons)
    | None => (event_ids, event_jsons)
    end
  end.

(** Draining a batch, posting it, and removing it on success: the block
    shared by the flush worker, by [capture] and by [flush].  The HTTP client
    is dereferenced only when the batch is not empty. *)
Definition drain_post_remove (lib : library) (e : env)
    (http : option HttpClient.t) (storage : StorageManager.t)
    (max_batch : Z) : outcome (option HttpClient.t * StorageManager.t) :=
  let events := StorageManager.GetQueuedEvents max_batch storage in
  let '(event_ids, event_jsons) := split_events events in
  if is_nil event_jsons then Returns (http, storage)
  else
    match http with
    | None => Undefined
    | Some client =>
      match HttpClient.PostCapture lib (net e) event_jsons client with
      | Returns (response, client) =>
        if HttpClient.success response
        then Returns (Some client,
                      snd (StorageManager.RemoveEvents event_ids storage))
        else Returns (Some client, storage)
      | Throws => Throws
      | Undefined => Undefined
      | OutOfFuel => OutOfFuel
      end
    end.

Definition with_http_storage (p : t) (http : option HttpClient.t)
    (storage : StorageManager.t) : t :=
  {| storage_manager := Some storage; http_client := http;
     feature_flags_manager := feature_flags_manager p;
     session_replay_manager := session_replay_manager p;
     api_key := api_key p; host := host p; flush_at := flush_at p;
     max_queue_size := max_queue_size p; max_batch_size := max_batch_size p;
     flush_interval_seconds := flush_interval_seconds p;
     debug := debug p; opt_out := opt_out p; initialized := initialized p;
     session_replay_enabled := session_replay_enabled p;
     should_flush := should_flush p |}.

(** One turn of the [while (plugin->should_flush)] loop of
    [flush_events_thread], after its sleep.  The first component is [false]
    when the turn leaves the loop by [break].  An exception inside the [try]
    block is caught and the turn ends. *)
Definition flush_events_thread_iteration (lib : library) (e : env) (p : t)
  : bool * t :=
  if negb (should_flush p) then (false, p)
  else
    match storage_manager p, http_client p with
    | Some storage, Some client =>
      if opt_out p || negb (initialized p) then (true, p)
      else
        match drain_post_remove lib e (Some client) storage (max_batch_size p) with
        | Returns (http, storage) => (true, with_http_storage p http storage)
        | _ => (true, p)
        end
    | _, _ => (false, p)
    end.

(** The properties [handle_capture] and [handle_screen] start from. *)
Definition library_properties (j : json) : json :=
  let j := set_member j "$lib" (JString "posthog-flutter") in
  let j := set_member j "$lib_version" (JString "5.9.0") in
  let j := set_member j "$device_type" (JString "Mobile") in
  let j := set_member j "$os" (JString "Linux") in
  let j := set_member j "$os_version" (JString "Unknown") in
  let j := set_member j "$screen_width" (JInt 1024) in
  let j := set_member j "$screen_height" (JInt 600) in
  j.

Definition session_properties (session_id : string) (j : json) : json :=
  let j := if negb (String.eqb session_id EmptyString)
           then set_member j "$session_id" (JString session_id) else j in
  set_member j "$window_id" (JString "main").

(** Super properties: the stored text parsed as JSON, or kept as a string. *)
Definition add_super_properties (lib : library)
    (super_props : list (string * string)) (j : json) : json :=
  fold_left (fun j prop =>
               match json_parse lib (snd prop) with
               | Some prop_value => set_member j (fst prop) prop_value
               | None => set_member j (fst prop) (JString (snd prop))
               end)
            super_props j.

(** The properties taken from the arguments of [capture]. *)
Definition add_event_properties (properties_value : FlValue) (j : json) : json :=
  let j := match fl_value_lookup_string properties_value "$elements" with
           | Some (FlList items) =>
             set_member j "$elements" (fl_value_to_json_obj (FlList items))
           | _ => j
           end in
  let j := match lookup_fl_string properties_value "$event_type" with
           | Some v => set_member j "$event_type" (JString v)
           | None => j
           end in
  let j := match lookup_fl_int properties_value "$viewport_width" with
           | Some v => set_member j "$viewport_width" (JInt v)
           | None => j
           end in
  let j := match lookup_fl_int properties_value "$viewport_height" with
           | Some v => set_member j "$viewport_height" (JInt v)
           | None => j
           end in
  let j := match lookup_fl_string properties_value "$screen_name" with
           | Some v => set_member j "$screen_name" (JString v)
           | None => j
           end in
  match fl_value_to_json_obj properties_value with
  | JObject event_props =>
    fold_left (fun j kv =>
                 match member j (fst kv) with
                 | None => set_member j (fst kv) (snd kv)
                 | Some _ => j
                 end)
              event_props j
  | _ => j
  end.

Definition capture_event (lib : library) (e : env) (args : FlValue)
    (event_name distinct_id session_id : string)
    (super_props : list (string * string)) : posthog.PostHogEvent :=
  let properties := JObject [] in
  let properties := library_properties properties in
  let properties := session_properties session_id properties in
  let properties := add_super_properties lib super_props properties in
  let properties :=
    match fl_value_lookup_string args "properties" with
    | Some (FlMap entries) => add_event_properties (FlMap entries) properties
    | _ => properties
    end in
  {| posthog.event := event_name; posthog.distinct_id := distinct_id;
     posthog.timestamp := now_ms e; posthog.properties := properties |}.

Definition enqueue (lib : library) (e : env) (event : posthog.PostHogEvent)
    (storage : StorageManager.t) : StorageManager.t :=
  snd (StorageManager.EnqueueEvent (fresh_row_id e) (now_s e)
         (json_dump lib (posthog.PostHogEvent_to_json event)) storage).

(** The end of [handle_capture], after the event is queued: the in-line
    flush when the queue has reached [flush_at]. *)
Definition inline_flush (lib : library) (e : env) (p : t)
    (storage : StorageManager.t) : outcome t :=
  let queue_size := StorageManager.GetQueueSize storage in
  if (flush_at p <=? queue_size)%Z then
    match drain_post_remove lib e (http_client p) storage (max_batch_size p) with
    | Returns (http, storage) => Returns (with_http_storage p http storage)
    | Throws => Throws
    | Undefined => Undefined
    | OutOfFuel => OutOfFuel
    end
  else Returns (with_storage p storage).

Definition handle_capture (lib : library) (e : env) (args : FlValue) (p : t)
  : outcome t :=
  if negb (initialized p) || opt_out p then Returns p
  else
    match lookup_fl_string args "eventName" with
    | None => Returns p
    | Some event_name =>
      match storage_manager p with
      | None => Undefined
      | Some storage =>
        let '(distinct_id, storage) := get_or_create_distinct_id e storage in
        let '(session_id, storage) := get_or_create_session_id e storage in
        let super_props := StorageManager.GetAllSuperProperties storage in
        let event :=
          capture_event lib e args event_name distinct_id session_id super_props in
        let storage := enqueue lib e event storage in
        inline_flush lib e p storage
      end
    end.

Definition handle_identify (lib : library) (e : env) (args : FlValue) (p : t)
  : outcome t :=
  if negb (initialized p) || opt_out p then Returns p
  else
    match lookup_fl_string args "userId" with
    | None => Returns p
    | Some user_id =>
      match storage_manager p with
      | None => Undefined
      | Some storage =>
        let storage := snd (StorageManager.SetDistinctId user_id storage) in
        let '(session_id, storage) := get_or_create_session_id e storage in
        let properties := session_properties session_id (JObject []) in
        let event :=
          {| posthog.event := "$identify"; posthog.distinct_id := user_id;
             posthog.timestamp := now_ms e; posthog.properties := properties |} in
        Returns (with_storage p (enqueue lib e event storage))
      end
    end.

Definition handle_screen (lib : library) (e : env) (args : FlValue) (p : t)
  : outcome t :=
  if negb (initialized p) || opt_out p then Returns p
  else
    match lookup_fl_string args "screenName" with
    | None => Returns p
    | Some screen_name =>
      match storage_manager p with
      | None => Undefined
      | Some storage =>
        let '(distinct_id, storage) := get_or_create_distinct_id e storage in
        let properties := set_member JNull "$screen_name" (JString screen_name) in
        let properties := library_properties properties in
        let '(session_id, storage) := get_or_create_session_id e storage in
        let properties := session_properties session_id properties in
        let event :=
          {| posthog.event := "$screen"; posthog.distinct_id := distinct_id;
             posthog.timestamp := now_ms e; posthog.properties := properties |} in
        Returns (with_storage p (enqueue lib e event storage))
      end
    end.

(** The [$screen] event that opens a session ("App Started" at setup,
    "Session Started" at [createNewSession]). *)
Definition session_event (e : env) (screen_name distinct_id session_id : string)
  : posthog.PostHogEvent :=
  let properties := JNull in
  let properties := set_member properties "$screen_name" (JString screen_name) in
  let properties := set_member properties "$session_id" (JString session_id) in
  let properties := set_member properties "$window_id" (JString "main") in
  let properties := set_member properties "$lib" (JString "posthog-flutter") in
  let properties := set_member properties "$lib_version" (JString "5.9.0") in
  let properties := set_member properties "$device_type" (JString "Mobile") in
  let properties := set_member properties "$os" (JString "Linux") in
  {| posthog.event := "$screen"; posthog.distinct_id := distinct_id;
     posthog.timestamp := now_ms e; posthog.properties := properties |}.

(** The replay manager [handle_setup] creates when [sessionReplay] is set. *)
Definition setup_replay (e : env) (args : FlValue) (key : string) (dbg : bool)
  : SessionReplayManager.t :=
  let m := SessionReplayManager.new key (now_steady e) in
  let m := SessionReplayManager.SetActive true m in
  let m := SessionReplayManager.SetDebug dbg m in
  match fl_value_lookup_string args "sessionReplayConfig" with
  | Some (FlMap entries) =>
    let config := FlMap entries in
    let m := match lookup_fl_int config "compressionQuality" with
             | Some v => SessionReplayManager.SetCompressionQuality v m
             | None => m
             end in
    let m := match lookup_fl_int config "batchSize" with
             | Some v => SessionReplayManager.SetBatchSize v m
             | None => m
             end in
    let m := match lookup_fl_int config "batchIntervalMs" with
             | Some v => SessionReplayManager.SetBatchInterval v m
             | None => m
             end in
    let m := match lookup_fl_int config "maxImageDimension" with
             | Some v => SessionReplayManager.SetMaxImageDimension v m
             | None => m
             end in
    m
  | _ => m
  end.

Definition handle_setup (lib : library) (e : env) (args : FlValue) (p : t) : t :=
  if initialized p then p
  else
    match args with
    | FlMap _ =>
      match lookup_fl_string args "apiKey" with
      | None => p
      | Some key =>
        let host_ := match lookup_fl_string args "host" with
                     | Some h => h
                     | None => "https://us.i.posthog.com"
                     end in
        let host_ := if String.eqb host_ EmptyString
                     then "https://us.i.posthog.com" else host_ in
        let debug_ := default (debug p) (lookup_fl_bool args "debug") in
        let opt_out_ := default (opt_out p) (lookup_fl_bool args "optOut") in
        let configured (storage : option StorageManager.t)
                       (http : option HttpClient.t)
                       (flags : option FeatureFlagsManager.t)
                       (replay : option SessionReplayManager.t)
                       (replay_enabled ready : bool) : t :=
          {| storage_manager := storage; http_client := http;
             feature_flags_manager := flags;
             session_replay_manager := replay;
             api_key := key; host := host_;
             flush_at := default (flush_at p) (lookup_fl_int args "flushAt");
             max_queue_size :=
               default (max_queue_size p) (lookup_fl_int args "maxQueueSize");
             max_batch_size :=
               default (max_batch_size p) (lookup_fl_int args "maxBatchSize");
             flush_interval_seconds :=
               default (flush_interval_seconds p)
                       (lookup_fl_int args "flushInterval");
             debug := debug_; opt_out := opt_out_; initialized := ready;
             session_replay_enabled := replay_enabled;
             should_flush := if ready then true else should_flush p |} in
        if String.eqb key EmptyString then
          {| storage_manager := storage_manager p; http_client := http_client p;
             feature_flags_manager := feature_flags_manager p;
             session_replay_manager := session_replay_manager p;
             api_key := key; host := host p; flush_at := flush_at p;
             max_queue_size := max_queue_size p;
             max_batch_size := max_batch_size p;
             flush_interval_seconds := flush_interval_seconds p;
             debug := debug p; opt_out := opt_out p;
             initialized := initialized p;
             session_replay_enabled := session_replay_enabled p;
             should_flush := should_flush p |}
        else
          match disk e with
          | None =>
            configured None (http_client p) (feature_flags_manager p)
                       (session_replay_manager p) (session_replay_enabled p) false
          | Some storage =>
            if negb (curl_init e) then
              configured (Some storage) None (feature_flags_manager p)
                         (session_replay_manager p) (session_replay_enabled p)
                         false
            else
              let client := HttpClient.SetBaseUrl host_ HttpClient.initialized in
              let client := HttpClient.SetApiKey key client in
              let client := HttpClient.SetDebug debug_ client in
              let '(flags, storage) := FeatureFlagsManager.new storage in
              let session_replay :=
                default false (lookup_fl_bool args "sessionReplay") in
              let replay := if session_replay
                            then Some (setup_replay e args key debug_)
                            else session_replay_manager p in
              let storage := snd (StorageManager.SetOptOut opt_out_ storage) in
              let '(distinct_id, storage) :=
                get_or_create_distinct_id e storage in
              let session_id := fresh_session_id e in
              let storage :=
                snd (StorageManager.SetSessionId session_id storage) in
              let preload_flags :=
                default true (lookup_fl_bool args "preloadFeatureFlags") in
              let '(client, storage, flags) :=
                if preload_flags && negb opt_out_ then
                  let '(_, client, storage, flags) :=
                    FeatureFlagsManager.ReloadFeatureFlags lib (net e)
                      distinct_id [] client storage flags in
                  (client, storage, flags)
                else (client, storage, flags) in
              let init_event :=
                session_event e "App Started" distinct_id session_id in
              let storage := enqueue lib e init_event storage in
              configured (Some storage) (Some client) (Some flags) replay
                         session_replay true
          end
      end
    | _ => p
    end.

(** The answer given to the method call. *)
Inductive reply :=
| Success (result : option FlValue)
| NotImplemented.

Definition reply_string (s : string) : reply :=
  Success (if String.eqb s EmptyString then None else Some (FlString s)).

(** [reset]: a new distinct id, and every super property removed. *)
Definition reset_storage (e : env) (storage : StorageManager.t)
  : StorageManager.t :=
  let storage :=
    snd (StorageManager.SetDistinctId (fresh_distinct_id e) storage) in
  fold_left (fun storage prop =>
               snd (StorageManager.RemoveSuperProperty (fst prop) storage))
            (StorageManager.GetAllSuperProperties storage) storage.

Definition handle_alias (lib : library) (e : env) (args : FlValue) (p : t) : t :=
  match args with
  | FlMap _ =>
    match lookup_fl_string args "alias" with
    | Some new_id =>
      match storage_manager p with
      | Some storage =>
        let '(old_id, storage) := get_or_create_distinct_id e storage in
        let event :=
          {| posthog.event := "$create_alias"; posthog.distinct_id := new_id;
             posthog.timestamp := now_ms e;
             posthog.properties :=
               set_member (JObject []) "alias" (JString old_id) |} in
        let storage := enqueue lib e event storage in
        let storage := snd (StorageManager.SetDistinctId new_id storage) in
        with_storage p storage
      | None => p
      end
    | None => p
    end
  | _ => p
  end.

Definition handle_group (lib : library) (e : env) (args : FlValue) (p : t)
  : outcome t :=
  match args with
  | FlMap _ =>
    match fl_value_lookup_string args "groupType",
          fl_value_lookup_string args "groupKey" with
    | Some group_type_value, Some group_key_value =>
      match storage_manager p with
      | Some storage =>
        if initialized p && negb (opt_out p) then
          match fl_value_get_string group_type_value,
                fl_value_get_string group_key_value with
          | Some group_type, Some group_key =>
            let '(distinct_id, storage) := get_or_create_distinct_id e storage in
            let properties :=
              set_member (set_member JNull "$group_type" (JString group_type))
                         "$group_key" (JString group_key) in
            let event :=
              {| posthog.event := "$groupidentify";
                 posthog.distinct_id := distinct_id;
                 posthog.timestamp := now_ms e;
                 posthog.properties := properties |} in
            Returns (with_storage p (enqueue lib e event storage))
          | _, _ => Undefined
          end
        else Returns p
      | None => Returns p
      end
    | _, _ => Returns p
    end
  | _ => Returns p
  end.

Definition handle_captureException (lib : library) (e : env) (args : FlValue)
    (p : t) : t :=
  match args, storage_manager p with
  | FlMap _, Some storage =>
    if initialized p && negb (opt_out p) then
      let '(distinct_id, storage) := get_or_create_distinct_id e storage in
      let event :=
        {| posthog.event := "$exception"; posthog.distinct_id := distinct_id;
           posthog.timestamp := now_ms e; posthog.properties := JObject [] |} in
      with_storage p (enqueue lib e event storage)
    else p
  | _, _ => p
  end.

Definition handle_createNewSession (lib : library) (e : env) (p : t) : t :=
  match storage_manager p with
  | Some storage =>
    if negb (initialized p) then p
    else
      let session_id := fresh_session_id e in
      let storage := snd (StorageManager.SetSessionId session_id storage) in
      let '(distinct_id, storage) := get_or_create_distinct_id e storage in
      let init_event :=
        session_event e "Session Started" distinct_id session_id in
      with_storage p (enqueue lib e init_event storage)
  | None => p
  end.

Definition handle_flush (lib : library) (e : env) (p : t) : outcome t :=
  match storage_manager p with
  | Some storage =>
    if initialized p && negb (opt_out p) then
      match http_client p with
      | Some client =>
        match drain_post_remove lib e (Some client) storage (max_batch_size p) with
        | Returns (http, storage) => Returns (with_http_storage p http storage)
        | Throws => Throws
        | Undefined => Undefined
        | OutOfFuel => OutOfFuel
        end
      | None => Returns p
      end
    else Returns p
  | None => Returns p
  end.

(** The flags manager keeps the pointer to the HTTP client it was built
    with; a plugin that has a flags manager has that client. *)
Definition handle_reloadFeatureFlags (lib : library) (e : env) (p : t)
  : outcome t :=
  match feature_flags_manager p, storage_manager p with
  | Some flags, Some storage =>
    if initialized p && negb (opt_out p) then
      let '(distinct_id, storage) := get_or_create_distinct_id e storage in
      match http_client p with
      | Some client =>
        let '(_, client, storage, flags) :=
          FeatureFlagsManager.ReloadFeatureFlags lib (net e) distinct_id []
            client storage flags in
        Returns (with_flags (with_http_storage p (Some client) storage) flags)
      | None => Undefined
      end
    else Returns p
  | _, _ => Returns p
  end.

Definition handle_sendFullSnapshot (lib : library) (e : env) (args : FlValue)
    (p : t) : outcome t :=
  match args, session_replay_manager p with
  | FlMap _, Some replay =>
    match fl_value_lookup_string args "imageBytes",
          lookup_fl_int args "id", lookup_fl_int args "x", lookup_fl_int args "y",
          lookup_fl_int args "width", lookup_fl_int args "height" with
    | Some (FlUint8List image_data), Some id_, Some x_, Some y_,
      Some width_, Some height_ =>
      match SessionReplayManager.AddSnapshot lib (now_ms e) image_data
              id_ x_ y_ width_ height_ replay with
      | Returns replay => Returns (with_replay p (Some replay))
      | Throws => Throws
      | Undefined => Undefined
      | OutOfFuel => OutOfFuel
      end
    | _, _, _, _, _, _ => Returns p
    end
  | _, _ => Returns p
  end.

Definition handle_sendMetaEvent (e : env) (args : FlValue) (p : t) : t :=
  match args, session_replay_manager p with
  | FlMap _, Some replay =>
    match lookup_fl_int args "width", lookup_fl_int args "height" with
    | Some width_, Some height_ =>
      let screen := default EmptyString (lookup_fl_string args "screen") in
      with_replay p
        (Some (SessionReplayManager.AddMetaEvent (now_ms e) width_ height_
                 screen replay))
    | _, _ => p
    end
  | _, _ => p
  end.

Definition handle_register (args : FlValue) (p : t) : outcome t :=
  match args with
  | FlMap _ =>
    match fl_value_lookup_string args "key",
          fl_value_lookup_string args "value" with
    | Some key_value, Some value_value =>
      match storage_manager p with
      | Some storage =>
        match fl_value_get_string key_value, fl_value_get_string value_value with
        | Some key, Some value =>
          let value_json := String dquote value +:+ String dquote EmptyString in
          Returns
            (with_storage p
               (snd (StorageManager.SetSuperProperty key value_json storage)))
        | _, _ => Undefined
        end
      | None => Returns p
      end
    | _, _ => Returns p
    end
  | _ => Returns p
  end.

Definition handle_unregister (args : FlValue) (p : t) : outcome t :=
  match args with
  | FlMap _ =>
    match fl_value_lookup_string args "key" with
    | Some key_value =>
      match storage_manager p with
      | Some storage =>
        match fl_value_get_string key_value with
        | Some key =>
          Returns
            (with_storage p (snd (StorageManager.RemoveSuperProperty key storage)))
        | None => Undefined
        end
      | None => Returns p
      end
    | None => Returns p
    end
  | _ => Returns p
  end.

(** The three flag queries answer with a value when the arguments are a
    map with a [key], and with null otherwise. *)
Definition flag_query (method : string) (args : FlValue) (p : t) : outcome reply :=
  match args with
  | FlMap _ =>
    match fl_value_lookup_string args "key" with
    | Some key_value =>
      match feature_flags_manager p with
      | Some flags =>
        match fl_value_get_string key_value with
        | Some key =>
          if String.eqb method "isFeatureEnabled" then
            Returns (Success (Some (FlBool
                       (FeatureFlagsManager.IsFeatureEnabled key flags))))
          else if String.eqb method "getFeatureFlag" then
            Returns (reply_string (FeatureFlagsManager.GetFeatureFlag key flags))
          else
            Returns (reply_string
                       (FeatureFlagsManager.GetFeatureFlagPayload key flags))
        | None => Undefined
        end
      | None =>
        if String.eqb method "isFeatureEnabled"
        then Returns (Success (Some (FlBool false)))
        else Returns (Success None)
      end
    | None => Returns (Success None)
    end
  | _ => Returns (Success None)
  end.

(** The null answer most methods give. *)
Definition answer_null (p : outcome t) : outcome (t * reply) :=
  match p with
  | Returns p => Returns (p, Success None)
  | Throws => Throws
  | Undefined => Undefined
  | OutOfFuel => OutOfFuel
  end.

(** [handle_method_call].  [openUrl] starts the URL handler of the desktop
    and touches nothing of the plugin. *)
Definition handle_method_call (lib : library) (e : env) (method : string)
    (args : FlValue) (p : t) : outcome (t * reply) :=
  if String.eqb method "setup" then answer_null (Returns (handle_setup lib e args p))
  else if String.eqb method "capture" then answer_null (handle_capture lib e args p)
  else if String.eqb method "identify" then answer_null (handle_identify lib e args p)
  else if String.eqb method "screen" then answer_null (handle_screen lib e args p)
  else if String.eqb method "distinctId" then
    match storage_manager p with
    | Some storage =>
      let '(distinct_id, storage) := get_or_create_distinct_id e storage in
      Returns (with_storage p storage, Success (Some (FlString distinct_id)))
    | None => Returns (p, Success (Some (FlString EmptyString)))
    end
  else if String.eqb method "reset" then
    match storage_manager p with
    | Some storage => answer_null (Returns (with_storage p (reset_storage e storage)))
    | None => answer_null (Returns p)
    end
  else if String.eqb method "enable" then
    let p := with_opt_out p false in
    match storage_manager p with
    | Some storage =>
      answer_null (Returns (with_storage p (snd (StorageManager.SetOptOut false storage))))
    | None => answer_null (Returns p)
    end
  else if String.eqb method "disable" then
    let p := with_opt_out p true in
    match storage_manager p with
    | Some storage =>
      answer_null (Returns (with_storage p (snd (StorageManager.SetOptOut true storage))))
    | None => answer_null (Returns p)
    end
  else if String.eqb method "isOptOut" then
    match storage_manager p with
    | Some storage =>
      Returns (p, Success (Some (FlBool (StorageManager.GetOptOut storage))))
    | None => Returns (p, Success (Some (FlBool (opt_out p))))
    end
  else if String.eqb method "debug" then
    match args, lookup_fl_bool args "debug" with
    | FlMap _, Some b =>
      let p := with_debug p b in
      match http_client p with
      | Some client => answer_null (Returns (with_http p (HttpClient.SetDebug b client)))
      | None => answer_null (Returns p)
      end
    | _, _ => answer_null (Returns p)
    end
  else if String.eqb method "register" then answer_null (handle_register args p)
  else if String.eqb method "unregister" then answer_null (handle_unregister args p)
  else if String.eqb method "flush" then answer_null (handle_flush lib e p)
  else if String.eqb method "isFeatureEnabled" then
    match flag_query method args p with
    | Returns r => Returns (p, r)
    | _ => Undefined
    end
  else if String.eqb method "getFeatureFlag" then
    match flag_query method args p with
    | Returns r => Returns (p, r)
    | _ => Undefined
    end
  else if String.eqb method "reloadFeatureFlags" then
    answer_null (handle_reloadFeatureFlags lib e p)
  else if String.eqb method "getSessionId" then
    match storage_manager p with
    | Some storage =>
      let '(session_id, storage) := get_or_create_session_id e storage in
      Returns (with_storage p storage, reply_string session_id)
    | None => Returns (p, Success None)
    end
  else if String.eqb method "createNewSession" then
    answer_null (Returns (handle_createNewSession lib e p))
  else if String.eqb method "openUrl" then answer_null (Returns p)
  else if String.eqb method "alias" then answer_null (Returns (handle_alias lib e args p))
  else if String.eqb method "group" then answer_null (handle_group lib e args p)
  else if String.eqb method "captureException" then
    answer_null (Returns (handle_captureException lib e args p))
  else if String.eqb method "getFeatureFlagPayload" then
    match flag_query method args p with
    | Returns r => Returns (p, r)
    | _ => Undefined
    end
  else if String.eqb method "close" then
    answer_null (Returns (with_should_flush p false))
  else if String.eqb method "sendFullSnapshot" then
    answer_null (handle_sendFullSnapshot lib e args p)
  else if String.eqb method "sendMetaEvent" then
    answer_null (Returns (handle_sendMetaEvent e args p))
  else if String.eqb method "isSessionReplayActive" then
    Returns (p, Success (Some (FlBool
               match session_replay_manager p with
               | Some replay => SessionReplayManager.is_active_ replay
               | None => false
               end)))
  else Returns (p, NotImplemented).

(** One turn of the replay worker on the objects of the plugin: the replay
    manager holds pointers to the plugin's HTTP client and storage manager. *)
Definition replay_worker_iteration (lib : library) (e : env) (p : t) : t :=
  match session_replay_manager p, http_client p, storage_manager p with
  | Some replay, Some client, Some storage =>
    let '(_, replay, client, storage) :=
      SessionReplayManager.FlushThread_iteration lib (net e) (now_steady e)
        (now_ms e) (random e) client storage replay in
    with_replay (with_http_storage p (Some client) storage) (Some replay)
  | _, _, _ => p
  end.

End Plugin.

(** ** A library instance for the examples

    The statements below hold for every [library]; examples and instances
    use this one: a compact JSON printer, a parser that rejects every text
    (so that the capture payload is the hand-written envelope), and a build
    without JPEG support. *)

Module Examples.

Fixpoint escape (s : string) : string :=
  match s with
  | EmptyString => EmptyString
  | String c s' =>
    if Ascii.eqb c dquote || Ascii.eqb c "\"%char
    then String "\"%char (String c (escape s'))
    else String c (escape s')
  end.

Definition quoted (s : string) : string :=
  String dquote (escape s) +:+ String dquote EmptyString.

Fixpoint print_json (j : json) : string :=
  match j with
  | JNull => "null"
  | JBool true => "true"
  | JBool false => "false"
  | JInt n => to_string n
  | JFloat bits => "float:" +:+ to_string bits
  | JString s => quoted s
  | JArray items =>
    "[" +:+ (fix print_items (l : list json) : string :=
               match l with
               | [] => EmptyString
               | [x] => print_json x
               | x :: rest => print_json x +:+ "," +:+ print_items rest
               end) items +:+ "]"
  | JObject members =>
    "{" +:+ (fix print_members (l : list (string * json)) : string :=
               match l with
               | [] => EmptyString
               | [(k, v)] => quoted k +:+ ":" +:+ print_json v
               | (k, v) :: rest =>
                 quoted k +:+ ":" +:+ print_json v +:+ "," +:+ print_members rest
               end) members +:+ "}"
  end.

Definition lib : library :=
  {| json_dump := print_json;
     json_parse := fun _ => None;
     stoll := fun _ => None;
     double_to_int64 := fun bits => bits;
     transcode := fun _ _ _ _ => None |}.

(** The world of the [n]-th call ([n] a digit, which ends the row id drawn
    by that call), with a server that answers with the given status. *)
Definition world (status : Z) (n : Z) : Plugin.env :=
  {| Plugin.now_ms := 1700000000000; Plugin.now_s := 1700000000;
     Plugin.now_steady := 0;
     Plugin.fresh_distinct_id := "11111111-1111-4111-8111-111111111111";
     Plugin.fresh_session_id := "22222222-2222-4222-8222-222222222222";
     Plugin.fresh_row_id := "33333333-3333-3333-3333-33333333333" +:+ to_string n;
     Plugin.random := 1234;
     Plugin.net := HttpClient.CURLE_OK status "{}";
     Plugin.disk := Some StorageManager.fresh;
     Plugin.curl_init := true |}.

Definition setup_args (opt_out : bool) : Plugin.FlValue :=
  Plugin.FlMap
    [(Plugin.FlString "apiKey", Plugin.FlString "phc_test");
     (Plugin.FlString "host", Plugin.FlString "http://localhost:8000");
     (Plugin.FlString "optOut", Plugin.FlBool opt_out);
     (Plugin.FlString "preloadFeatureFlags", Plugin.FlBool false)].

(** The plugin after [setup] on a fresh data directory. *)
Definition plugin_after_setup (opt_out : bool) : Plugin.t :=
  Plugin.handle_setup lib (world 200 0) (setup_args opt_out) Plugin.init.

End Examples.

(* ===================================================================== *)
(** * Properties *)
(* ===================================================================== *)

(** Closes a goal [test = true] or [test = false] where [test] is a
    comparison on [Z] (or a conjunction of comparisons) decided by [lia]. *)
Ltac zbool :=
  first
    [ apply Z.ltb_lt; lia | apply Z.ltb_ge; lia
    | apply Z.leb_le; lia | apply Z.leb_gt; lia
    | apply Z.eqb_eq; lia | apply Z.eqb_neq; lia
    | apply andb_true_iff; split; zbool ].

(** ** Strings *)

Section StringFacts.

Lemma string_app_cons (c : ascii) (s t : string) :
  String c s +:+ t = String c (s +:+ t).
Proof. reflexivity. Qed.

Lemma string_app_nil_l (s : string) : EmptyString +:+ s = s.
Proof. reflexivity. Qed.

Lemma string_app_nil_r (s : string) : s +:+ EmptyString = s.
Proof.
  induction s as [| c s IH]; [reflexivity |].
  rewrite string_app_cons. f_equal. exact IH.
Qed.

Lemma string_app_assoc (s1 s2 s3 : string) :
  (s1 +:+ s2) +:+ s3 = s1 +:+ (s2 +:+ s3).
Proof.
  induction s1 as [| c s1 IH]; [reflexivity |].
  rewrite !string_app_cons. f_equal. exact IH.
Qed.

Lemma list_ascii_of_string_app (s1 s2 : string) :
  list_ascii_of_string (s1 +:+ s2)
  = list_ascii_of_string s1 ++ list_ascii_of_string s2.
Proof.
  induction s1 as [| c s1 IH]; [reflexivity |].
  rewrite string_app_cons. simpl. f_equal. exact IH.
Qed.

Lemma string_length_app (s1 s2 : string) :
  String.length (s1 +:+ s2) = String.length s1 + String.length s2.
Proof.
  induction s1 as [| c s1 IH]; [reflexivity |].
  rewrite string_app_cons. simpl. f_equal. exact IH.
Qed.

End StringFacts.

(** ** Bit arithmetic of the 24-bit groups *)

Section BitFacts.
Local Open Scope Z_scope.

Lemma land_shiftl_low (hi lo k : Z) :
  0 <= k -> 0 <= lo < 2 ^ k -> Z.land (Z.shiftl hi k) lo = 0.
Proof.
  intros Hk Hlo. apply Z.bits_inj'. intros n Hn.
  rewrite Z.land_spec, Z.bits_0.
  destruct (Z.lt_ge_cases n k) as [Hlt | Hge].
  - rewrite Z.shiftl_spec_low by lia. reflexivity.
  - assert (Hb : Z.testbit lo n = false).
    { destruct (Z.eq_dec lo 0) as [-> | Hne]; [apply Z.bits_0 |].
      apply Z.bits_above_log2; [lia |].
      apply Z.log2_lt_pow2; [lia |].
      apply Z.lt_le_trans with (2 ^ k); [lia |].
      apply Z.pow_le_mono_r; lia. }
    rewrite Hb. apply Bool.andb_false_r.
Qed.

Lemma lor_shiftl_add (hi lo k : Z) :
  0 <= k -> 0 <= lo < 2 ^ k -> Z.lor (Z.shiftl hi k) lo = hi * 2 ^ k + lo.
Proof.
  intros Hk Hlo.
  pose proof (Z.add_lor_land (Z.shiftl hi k) lo) as H.
  rewrite land_shiftl_low in H by assumption.
  rewrite Z.shiftl_mul_pow2 in * by assumption. lia.
Qed.

Lemma mask6 (x : Z) : Z.land x 63 = x mod 64.
Proof. change 63 with (Z.ones 6). now rewrite Z.land_ones by lia. Qed.

Lemma mask8 (x : Z) : Z.land x 255 = x mod 256.
Proof. change 255 with (Z.ones 8). now rewrite Z.land_ones by lia. Qed.

Lemma mask6_range (x : Z) : 0 <= Z.land x 63 < 64.
Proof. rewrite mask6. apply Z.mod_pos_bound. lia. Qed.

Lemma byte_val_range (b : byte) : 0 <= byte_val b < 256.
Proof. unfold byte_val. pose proof (Byte.to_N_bounded b). lia. Qed.

Lemma pack3_arith (d0 d1 d2 : Z) :
  0 <= d0 < 256 -> 0 <= d1 < 256 -> 0 <= d2 < 256 ->
  Base64Reference.pack3 d0 d1 d2 = d0 * 65536 + d1 * 256 + d2.
Proof.
  intros H0 H1 H2. unfold Base64Reference.pack3.
  rewrite (Z.shiftl_mul_pow2 d1 8) by lia.
  replace (d1 * 2 ^ 8) with (d1 * 256) by lia.
  rewrite (lor_shiftl_add d0 (d1 * 256) 16) by lia.
  replace (d0 * 2 ^ 16 + d1 * 256) with (Z.shiftl (d0 * 256 + d1) 8)
    by (rewrite Z.shiftl_mul_pow2 by lia; lia).
  rewrite lor_shiftl_add by lia. lia.
Qed.

Lemma pack3_uint32 (d0 d1 d2 : Z) :
  0 <= d0 < 256 -> 0 <= d1 < 256 -> 0 <= d2 < 256 ->
  uint32_t (Base64Reference.pack3 d0 d1 d2) = Base64Reference.pack3 d0 d1 d2.
Proof.
  intros H0 H1 H2. unfold uint32_t. rewrite pack3_arith by assumption.
  apply Z.mod_small. lia.
Qed.

(** Reassembling the octets from the four sextets of a group. *)
Lemma octets_of_sextets (d0 d1 d2 : Z) :
  0 <= d0 < 256 -> 0 <= d1 < 256 -> 0 <= d2 < 256 ->
  let b := Base64Reference.pack3 d0 d1 d2 in
  let s0 := Z.land (Z.shiftr b 18) 63 in
  let s1 := Z.land (Z.shiftr b 12) 63 in
  let s2 := Z.land (Z.shiftr b 6) 63 in
  let s3 := Z.land b 63 in
  Z.land (Z.lor (Z.shiftl s0 2) (Z.shiftr s1 4)) 255 = d0 /\
  Z.land (Z.lor (Z.shiftl s1 4) (Z.shiftr s2 2)) 255 = d1 /\
  Z.land (Z.lor (Z.shiftl s2 6) s3) 255 = d2.
Proof.
  intros H0 H1 H2 b s0 s1 s2 s3.
  subst s0 s1 s2 s3 b. rewrite pack3_arith by assumption.
  rewrite !mask6, !mask8, !Z.shiftr_div_pow2 by lia.
  change (2 ^ 18) with 262144. change (2 ^ 12) with 4096.
  change (2 ^ 6) with 64. change (2 ^ 4) with 16. change (2 ^ 2) with 4.
  rewrite !lor_shiftl_add.
  - change (2 ^ 2) with 4. change (2 ^ 4) with 16. change (2 ^ 6) with 64.
    repeat split; Z.div_mod_to_equations; lia.
  - lia.
  - change (2 ^ 6) with 64. Z.div_mod_to_equations; lia.
  - lia.
  - change (2 ^ 4) with 16. Z.div_mod_to_equations; lia.
  - lia.
  - change (2 ^ 2) with 4. Z.div_mod_to_equations; lia.
Qed.

End BitFacts.

Section Base64EncodeFacts.
Import SessionReplayManager Base64Reference.
Local Open Scope Z_scope.

Lemma size_t_small (z : Z) : 0 <= z < 2 ^ 64 -> size_t z = z.
Proof. intros H. unfold size_t. apply Z.mod_small. exact H. Qed.

Lemma vector_at_app (pre rest : list byte) (k : nat) (b : byte) :
  nth_error rest k = Some b ->
  vector_at (pre ++ rest) (Z.of_nat (List.length pre) + Z.of_nat k)
  = Some (byte_val b).
Proof.
  intros Hk. unfold vector_at.
  assert (Hlt : (k < List.length rest)%nat)
    by (apply nth_error_Some; rewrite Hk; discriminate).
  rewrite List.length_app.
  replace ((0 <=? Z.of_nat (List.length pre) + Z.of_nat k)
           && (Z.of_nat (List.length pre) + Z.of_nat k
               <? Z.of_nat (List.length pre + List.length rest)%nat))
    with true by (symmetry; zbool).
  replace (Z.to_nat (Z.of_nat (List.length pre) + Z.of_nat k))
    with (List.length pre + k)%nat by lia.
  rewrite nth_error_app2 by lia.
  replace (List.length pre + k - List.length pre)%nat with k by lia.
  rewrite Hk. reflexivity.
Qed.

(** Every sextet is mapped to a character of the alphabet that the reference
    decoder maps back, and that is not the padding character. *)
Lemma sextet_base64_char (k : Z) :
  0 <= k < 64 ->
  sextet (base64_char k) = Some k /\ Ascii.eqb (base64_char k) equals_sign = false.
Proof.
  intros Hk.
  assert (Hn : exists n : nat, k = Z.of_nat n /\ (n < 64)%nat)
    by (exists (Z.to_nat k); lia).
  destruct Hn as [n [-> Hn]].
  do 64 (destruct n as [| n]; [vm_compute; split; reflexivity |]).
  lia.
Qed.

Lemma octet_byte_val (b : byte) : octet (byte_val b) = Some b.
Proof. unfold octet, byte_val. rewrite N2Z.id. apply Byte.of_to_N. Qed.

(** The loop followed by the padding code, started at index [i]. *)
Definition Base64Encode_from (fuel : nat) (data : list byte) (i : Z) (ss : string)
  : outcome string :=
  match Base64Encode_loop fuel data i ss with
  | Returns (i', ss') => Base64Encode_tail data i' ss'
  | Throws => Throws
  | Undefined => Undefined
  | OutOfFuel => OutOfFuel
  end.

Lemma Base64Encode_from_groups (fuel : nat) :
  forall (pre rest : list byte) (ss : string),
    (2 <= List.length (pre ++ rest))%nat ->
    Z.of_nat (List.length (pre ++ rest)) < 2 ^ 64 ->
    (List.length rest < fuel)%nat ->
    Base64Encode_from fuel (pre ++ rest) (Z.of_nat (List.length pre)) ss
    = Returns (ss +:+ encode_groups rest).
Proof.
  induction fuel as [| fuel IH]; intros pre rest ss Hlen Hmax Hfuel; [lia |].
  unfold Base64Encode_from. cbn [Base64Encode_loop].
  rewrite size_t_small by lia.
  destruct rest as [| b0 [| b1 [| b2 rest]]].
  - (* nothing left *)
    rewrite List.length_app in *. cbn [List.length] in *.
    replace (Z.of_nat (List.length pre) <? Z.of_nat (List.length pre + 0)%nat - 2)
      with false by (symmetry; zbool).
    unfold Base64Encode_tail. rewrite List.length_app. cbn [List.length].
    replace (Z.of_nat (List.length pre) <? Z.of_nat (List.length pre + 0)%nat)
      with false by (symmetry; zbool).
    now rewrite string_app_nil_r.
  - (* one byte left *)
    pose proof (vector_at_app pre [b0] 0 b0 eq_refl) as H0.
    rewrite Z.add_0_r in H0.
    rewrite List.length_app in *. cbn [List.length] in *.
    replace (Z.of_nat (List.length pre) <? Z.of_nat (List.length pre + 1)%nat - 2)
      with false by (symmetry; zbool).
    unfold Base64Encode_tail. rewrite List.length_app. cbn [List.length].
    replace (Z.of_nat (List.length pre) <? Z.of_nat (List.length pre + 1)%nat)
      with true by (symmetry; zbool).
    rewrite H0. rewrite (size_t_small (_ + 1)) by lia.
    replace (Z.of_nat (List.length pre) + 1 <? Z.of_nat (List.length pre + 1)%nat)
      with false by (symmetry; zbool).
    pose proof (byte_val_range b0) as R0.
    pose proof (pack3_uint32 (byte_val b0) 0 0 R0 ltac:(lia) ltac:(lia)) as Hu.
    unfold pack3 in Hu. change (Z.shiftl 0 8) with 0 in Hu.
    rewrite !Z.lor_0_r in Hu. rewrite Hu.
    unfold encode_groups, pad1, pack3. change (Z.shiftl 0 8) with 0.
    rewrite !Z.lor_0_r. reflexivity.
  - (* two bytes left *)
    pose proof (vector_at_app pre [b0; b1] 0 b0 eq_refl) as H0.
    pose proof (vector_at_app pre [b0; b1] 1 b1 eq_refl) as H1.
    rewrite Z.add_0_r in H0. change (Z.of_nat 1) with 1 in H1.
    rewrite List.length_app in *. cbn [List.length] in *.
    replace (Z.of_nat (List.length pre) <? Z.of_nat (List.length pre + 2)%nat - 2)
      with false by (symmetry; zbool).
    unfold Base64Encode_tail. rewrite List.length_app. cbn [List.length].
    replace (Z.of_nat (List.length pre) <? Z.of_nat (List.length pre + 2)%nat)
      with true by (symmetry; zbool).
    rewrite H0. rewrite (size_t_small (_ + 1)) by lia.
    replace (Z.of_nat (List.length pre) + 1 <? Z.of_nat (List.length pre + 2)%nat)
      with true by (symmetry; zbool).
    rewrite H1.
    pose proof (byte_val_range b0) as R0. pose proof (byte_val_range b1) as R1.
    pose proof (pack3_uint32 (byte_val b0) 0 0 R0 ltac:(lia) ltac:(lia)) as Hu0.
    unfold pack3 in Hu0. change (Z.shiftl 0 8) with 0 in Hu0.
    rewrite !Z.lor_0_r in Hu0. rewrite Hu0.
    pose proof (pack3_uint32 (byte_val b0) (byte_val b1) 0 R0 R1 ltac:(lia)) as Hu.
    unfold pack3 in Hu. rewrite !Z.lor_0_r in Hu. rewrite Hu.
    unfold encode_groups, pad2, pack3. rewrite !Z.lor_0_r. reflexivity.
  - (* a full group of three bytes *)
    pose proof (vector_at_app pre (b0 :: b1 :: b2 :: rest) 0 b0 eq_refl) as H0.
    pose proof (vector_at_app pre (b0 :: b1 :: b2 :: rest) 1 b1 eq_refl) as H1.
    pose proof (vector_at_app pre (b0 :: b1 :: b2 :: rest) 2 b2 eq_refl) as H2.
    rewrite Z.add_0_r in H0.
    change (Z.of_nat 1) with 1 in H1. change (Z.of_nat 2) with 2 in H2.
    rewrite H0, H1, H2.
    assert (Hn : Z.of_nat (List.length (pre ++ b0 :: b1 :: b2 :: rest))
                 = Z.of_nat (List.length pre) + 3 + Z.of_nat (List.length rest))
      by (rewrite List.length_app; cbn [List.length]; lia).
    replace (Z.of_nat (List.length pre)
             <? Z.of_nat (List.length (pre ++ b0 :: b1 :: b2 :: rest)) - 2)
      with true by (symmetry; zbool).
    cbv zeta.
    rewrite size_t_small by lia.
    pose proof (byte_val_range b0) as R0. pose proof (byte_val_range b1) as R1.
    pose proof (byte_val_range b2) as R2.
    pose proof (pack3_uint32 _ _ _ R0 R1 R2) as Hu. unfold pack3 in Hu.
    rewrite Hu.
    replace (pre ++ b0 :: b1 :: b2 :: rest)
      with ((pre ++ [b0; b1; b2]) ++ rest) in *
      by (rewrite <- List.app_assoc; reflexivity).
    replace (Z.of_nat (List.length pre) + 3)
      with (Z.of_nat (List.length (pre ++ [b0; b1; b2])))
      by (rewrite List.length_app; cbn [List.length]; lia).
    specialize (IH (pre ++ [b0; b1; b2]) rest
                  (ss +:+ group4
                     (Z.lor (Z.lor (Z.shiftl (byte_val b0) 16)
                               (Z.shiftl (byte_val b1) 8)) (byte_val b2)))).
    unfold Base64Encode_from in IH. rewrite IH.
    + rewrite string_app_assoc. reflexivity.
    + exact Hlen.
    + exact Hmax.
    + cbn [List.length] in Hfuel. lia.
Qed.

(** For at least two bytes the index loop computes the grouped encoding. *)
Lemma Base64Encode_groups (data : list byte) :
  (2 <= List.length data)%nat ->
  Z.of_nat (List.length data) < 2 ^ 64 ->
  Base64Encode data = Returns (encode_groups data).
Proof.
  intros Hlen Hmax.
  pose proof (Base64Encode_from_groups (S (List.length data)) [] data EmptyString)
    as H.
  cbn [List.app List.length] in H. unfold Base64Encode_from in H.
  unfold Base64Encode. change (Z.of_nat 0) with 0 in H.
  rewrite H by (assumption || lia). reflexivity.
Qed.

Lemma list_ind3 {A : Type} (P : list A -> Prop) :
  P [] -> (forall a, P [a]) -> (forall a b, P [a; b]) ->
  (forall a b c l, P l -> P (a :: b :: c :: l)) ->
  forall l, P l.
Proof.
  intros H0 H1 H2 H3.
  fix rec 1. intros [| a [| b [| c l]]].
  - exact H0.
  - apply H1.
  - apply H2.
  - apply H3. apply rec.
Qed.

Lemma decode_chars_group (d0 d1 d2 : byte) (rest : list ascii) (tl : list byte) :
  decode_chars rest = Some tl ->
  decode_chars
    (list_ascii_of_string (group4 (pack3 (byte_val d0) (byte_val d1) (byte_val d2)))
     ++ rest)
  = Some (d0 :: d1 :: d2 :: tl).
Proof.
  intros Hrest.
  pose proof (byte_val_range d0) as R0. pose proof (byte_val_range d1) as R1.
  pose proof (byte_val_range d2) as R2.
  destruct (octets_of_sextets _ _ _ R0 R1 R2) as (E0 & E1 & E2).
  set (b := pack3 (byte_val d0) (byte_val d1) (byte_val d2)) in *.
  destruct (sextet_base64_char _ (mask6_range (Z.shiftr b 18))) as [S0 _].
  destruct (sextet_base64_char _ (mask6_range (Z.shiftr b 12))) as [S1 _].
  destruct (sextet_base64_char _ (mask6_range (Z.shiftr b 6))) as [S2 _].
  destruct (sextet_base64_char _ (mask6_range b)) as [S3 N3].
  unfold group4. cbn [list_ascii_of_string List.app decode_chars].
  rewrite S0, S1, S2, S3, N3. cbn [mbind option_bind].
  rewrite E0, E1, E2, !octet_byte_val. cbn [mbind option_bind].
  rewrite Hrest. reflexivity.
Qed.

(** The reference decoder inverts the grouped encoding. *)
Lemma base64_decode_encode_groups (data : list byte) :
  base64_decode (encode_groups data) = Some data.
Proof.
  unfold base64_decode.
  induction data as [| d0 | d0 d1 | d0 d1 d2 rest IH] using list_ind3.
  - reflexivity.
  - pose proof (byte_val_range d0) as R0.
    destruct (octets_of_sextets _ 0 0 R0 ltac:(lia) ltac:(lia)) as (E0 & _ & _).
    set (b := pack3 (byte_val d0) 0 0) in *.
    destruct (sextet_base64_char _ (mask6_range (Z.shiftr b 18))) as [S0 _].
    destruct (sextet_base64_char _ (mask6_range (Z.shiftr b 12))) as [S1 _].
    unfold encode_groups, pad1. fold b.
    cbn [list_ascii_of_string decode_chars].
    rewrite S0, S1. cbn [mbind option_bind].
    change (Ascii.eqb equals_sign equals_sign) with true. cbv iota.
    rewrite E0, octet_byte_val. reflexivity.
  - pose proof (byte_val_range d0) as R0. pose proof (byte_val_range d1) as R1.
    destruct (octets_of_sextets _ _ 0 R0 R1 ltac:(lia)) as (E0 & E1 & _).
    set (b := pack3 (byte_val d0) (byte_val d1) 0) in *.
    destruct (sextet_base64_char _ (mask6_range (Z.shiftr b 18))) as [S0 _].
    destruct (sextet_base64_char _ (mask6_range (Z.shiftr b 12))) as [S1 _].
    destruct (sextet_base64_char _ (mask6_range (Z.shiftr b 6))) as [S2 N2].
    unfold encode_groups, pad2. fold b.
    cbn [list_ascii_of_string decode_chars].
    rewrite S0, S1, S2, N2. cbn [mbind option_bind].
    change (Ascii.eqb equals_sign equals_sign) with true. cbv iota.
    rewrite E0, E1, !octet_byte_val. reflexivity.
  - change (encode_groups (d0 :: d1 :: d2 :: rest))
      with (group4 (pack3 (byte_val d0) (byte_val d1) (byte_val d2))
            +:+ encode_groups rest).
    rewrite list_ascii_of_string_app.
    apply decode_chars_group. exact IH.
Qed.

(** Round trip of the encoder on every vector of at least two bytes. *)
Lemma Base64Encode_roundtrip (data : list byte) :
  (2 <= List.length data)%nat ->
  Z.of_nat (List.length data) < 2 ^ 64 ->
  exists s, Base64Encode data = Returns s /\ base64_decode s = Some data.
Proof.
  intros Hlen Hmax. exists (encode_groups data). split.
  - apply Base64Encode_groups; assumption.
  - apply base64_decode_encode_groups.
Qed.

(** The budget of [Base64Encode_loop] is never exhausted. *)
Lemma Base64Encode_fuel (data : list byte) :
  Z.of_nat (List.length data) < 2 ^ 64 -> Base64Encode data <> OutOfFuel.
Proof.
  intros Hmax.
  destruct data as [| b0 [| b1 rest]]; [discriminate | discriminate |].
  rewrite Base64Encode_groups; [discriminate | cbn [List.length]; lia | exact Hmax].
Qed.

Lemma Base64Encode_one_byte (b : byte) : Base64Encode [b] = Undefined.
Proof. reflexivity. Qed.

(** C7 (the code departs from the claim).  The claim includes vectors of
    length 0 and 1.  On those, [data.size() - 2] wraps around in [size_t], the
    loop is entered and reads [data[0]], [data[1]], [data[2]] outside the
    vector: no string is produced that could be decoded.  With the PNG bytes
    passed through unchanged, [AddSnapshot] on an empty image is such a call.
    For two bytes and more the round trip holds ([Base64Encode_roundtrip]). *)
Theorem Base64Encode_short_vector_undefined :
  Base64Encode [] = Undefined
  /\ Base64Encode [x89] = Undefined
  /\ AddSnapshot Examples.lib 0 [] 1 0 0 800 600
       (SetActive true (SessionReplayManager.new "phc_test" 0))
     = Undefined.
Proof. repeat split; reflexivity. Qed.

Example Base64Encode_Man :
  Base64Encode [x4d; x61; x6e] = Returns "TWFu".
Proof. reflexivity. Qed.

Example Base64Encode_Ma :
  Base64Encode [x4d; x61] = Returns "TWE=".
Proof. reflexivity. Qed.

Example Base64Encode_Many :
  Base64Encode [x4d; x61; x6e; x79] = Returns "TWFueQ==".
Proof. reflexivity. Qed.

Example base64_decode_Many :
  base64_decode "TWFueQ==" = Some [x4d; x61; x6e; x79].
Proof. reflexivity. Qed.

End Base64EncodeFacts.

(** ** Serialised events: names, ids and timestamps *)

Section WireFacts.
Import posthog.

Lemma decimal_value_to_string (z : Z) : decimal_value (to_string z) = Some z.
Proof.
  unfold decimal_value, to_string.
  rewrite NilZero.isi.
  - cbn. now rewrite DecimalZ.of_to.
  - destruct z as [| q | q]; cbn; try discriminate.
    intros H. injection H as H. now apply Unsigned.to_uint_nonnil in H.
  - destruct z as [| q | q]; cbn; try discriminate.
    intros H. injection H as H. now apply Unsigned.to_uint_nonnil in H.
Qed.

Lemma PostHogEvent_to_json_members (e : PostHogEvent) :
  member (PostHogEvent_to_json e) "event" = Some (JString (event e))
  /\ member (PostHogEvent_to_json e) "distinct_id" = Some (JString (distinct_id e))
  /\ member (PostHogEvent_to_json e) "timestamp"
     = Some (JString (to_string (timestamp e)))
  /\ member (PostHogEvent_to_json e) "properties" = Some (properties e).
Proof. repeat split; reflexivity. Qed.

Lemma SessionReplayEvent_to_json_members (e : SessionReplayEvent) :
  member (SessionReplayEvent_to_json e) "event"
  = Some (JString (if String.eqb (re_event e) EmptyString
                   then "$snapshot" else re_event e))
  /\ member (SessionReplayEvent_to_json e) "distinct_id"
     = Some (JString (if String.eqb (re_distinct_id e) EmptyString
                      then "unknown_user" else re_distinct_id e))
  /\ member (SessionReplayEvent_to_json e) "timestamp"
     = Some (JString (to_string (re_timestamp e)))
  /\ member (SessionReplayEvent_to_json e) "properties" = Some (re_properties e).
Proof. repeat split; reflexivity. Qed.

Lemma payload_events_PostHogBatch (b : PostHogBatch) :
  payload_events (PostHogBatch_to_json b) = map PostHogEvent_to_json (batch b).
Proof. reflexivity. Qed.

Lemma payload_events_SessionReplayBatch (b : SessionReplayBatch) :
  payload_events (SessionReplayBatch_to_json b)
  = map SessionReplayEvent_to_json (rb_batch b).
Proof. reflexivity. Qed.

(** A JSON value is a decimal string when it is a string that holds the
    decimal numeral of an integer. *)
Definition is_decimal_string (j : option json) : Prop :=
  exists z : Z, j = Some (JString (to_string z)) /\ decimal_value (to_string z) = Some z.

(** C9.  The [timestamp] member of a serialised capture event and of a
    serialised replay event is a JSON string, the decimal numeral of the
    event's millisecond timestamp; so is the [timestamp] of every event of a
    capture batch and of a replay batch. *)
Theorem timestamp_serialised_as_decimal_string :
  (forall e : PostHogEvent,
      member (PostHogEvent_to_json e) "timestamp"
      = Some (JString (to_string (timestamp e)))
      /\ decimal_value (to_string (timestamp e)) = Some (timestamp e))
  /\ (forall e : SessionReplayEvent,
         member (SessionReplayEvent_to_json e) "timestamp"
         = Some (JString (to_string (re_timestamp e)))
         /\ decimal_value (to_string (re_timestamp e)) = Some (re_timestamp e))
  /\ (forall b : PostHogBatch,
         Forall (fun j => is_decimal_string (member j "timestamp"))
                (payload_events (PostHogBatch_to_json b)))
  /\ (forall b : SessionReplayBatch,
         Forall (fun j => is_decimal_string (member j "timestamp"))
                (payload_events (SessionReplayBatch_to_json b))).
Proof.
  split; [| split; [| split]].
  - intros e. split; [reflexivity | apply decimal_value_to_string].
  - intros e. split; [reflexivity | apply decimal_value_to_string].
  - intros b. rewrite payload_events_PostHogBatch.
    apply List.Forall_map, List.Forall_forall.
    intros e _. exists (timestamp e). split;
      [reflexivity | apply decimal_value_to_string].
  - intros b. rewrite payload_events_SessionReplayBatch.
    apply List.Forall_map, List.Forall_forall.
    intros e _. exists (re_timestamp e). split;
      [reflexivity | apply decimal_value_to_string].
Qed.

(** A replay event is never serialised with an empty name or id. *)
Lemma SessionReplayEvent_to_json_nonempty (e : SessionReplayEvent) :
  exists name did : string,
    member (SessionReplayEvent_to_json e) "event" = Some (JString name)
    /\ member (SessionReplayEvent_to_json e) "distinct_id" = Some (JString did)
    /\ name <> EmptyString /\ did <> EmptyString.
Proof.
  destruct (SessionReplayEvent_to_json_members e) as (He & Hd & _).
  eexists _, _. split; [exact He |]. split; [exact Hd |]. split.
  - destruct (String.eqb_spec (re_event e) EmptyString); [discriminate | assumption].
  - destruct (String.eqb_spec (re_distinct_id e) EmptyString);
      [discriminate | assumption].
Qed.

(** The ids [SendBatch] puts into a batch are never empty. *)
Lemma batch_ids_nonempty (now_ms random : Z) (storage : StorageManager.t)
    (m : SessionReplayManager.t) :
  fst (SessionReplayManager.batch_distinct_id now_ms random storage m) <> EmptyString
  /\ SessionReplayManager.batch_session_id now_ms storage m <> EmptyString.
Proof.
  unfold SessionReplayManager.batch_distinct_id,
         SessionReplayManager.batch_session_id. split.
  - destruct (SessionReplayManager.storage_manager_ m);
      [destruct (String.eqb_spec (StorageManager.GetDistinctId storage) EmptyString) |];
      cbn [fst];
      match goal with
      | |- (if String.eqb ?s EmptyString then _ else _) <> _ =>
        destruct (String.eqb_spec s EmptyString); [discriminate | assumption]
      end.
  - match goal with
    | |- (if String.eqb ?s EmptyString then _ else _) <> _ =>
      destruct (String.eqb_spec s EmptyString); [discriminate | assumption]
    end.
Qed.

Definition capture_args (event_name : string) : Plugin.FlValue :=
  Plugin.FlMap [(Plugin.FlString "eventName", Plugin.FlString event_name)].

Definition queued (p : Plugin.t) : list StorageManager.event_row :=
  match Plugin.storage_manager p with
  | Some storage => StorageManager.events storage
  | None => []
  end.

(** C5 (the code departs from the claim).  [PostHogEvent::to_json] writes the
    name and the id it is given, with none of the fallbacks of
    [SessionReplayEvent::to_json], and [handle_capture] does not look at the
    name: [capture] with the empty event name, after a plain [setup], queues
    an event whose [event] member is the empty string. *)
Theorem capture_serialises_empty_event_name :
  (forall e : PostHogEvent,
      event e = EmptyString ->
      member (PostHogEvent_to_json e) "event" = Some (JString EmptyString))
  /\ exists (p' : Plugin.t) (ev : PostHogEvent),
      Plugin.handle_capture Examples.lib (Examples.world 200 1)
        (capture_args EmptyString)
        (Examples.plugin_after_setup false) = Returns p'
      /\ map StorageManager.event_json (queued p')
         = map StorageManager.event_json (queued (Examples.plugin_after_setup false))
           ++ [json_dump Examples.lib (PostHogEvent_to_json ev)]
      /\ member (PostHogEvent_to_json ev) "event" = Some (JString EmptyString).
Proof.
  split.
  - intros e He. destruct (PostHogEvent_to_json_members e) as (H & _).
    now rewrite He in H.
  - eexists _, (Plugin.capture_event Examples.lib (Examples.world 200 1)
                  (capture_args EmptyString) EmptyString
                  "11111111-1111-4111-8111-111111111111"
                  "22222222-2222-4222-8222-222222222222" []).
    split; [vm_compute; reflexivity |]. split; vm_compute; reflexivity.
Qed.

End WireFacts.

(** ** The event queue of the store *)

Section StoreFacts.
Import StorageManager.
Local Open Scope Z_scope.

(** Order by [created_at]. *)
Definition not_after (r1 r2 : event_row) : Prop := created_at r1 <= created_at r2.

(** Order by [created_at], ties by [id] (bytewise, as SQLite compares text). *)
Definition before_by_time_then_id (r1 r2 : event_row) : bool :=
  (created_at r1 <? created_at r2)
  || ((created_at r1 =? created_at r2) && String.leb (id r1) (id r2)).

Fixpoint ordered_by_time_then_id (rows : list event_row) : bool :=
  match rows with
  | [] => true
  | r :: rest =>
    forallb (before_by_time_then_id r) rest && ordered_by_time_then_id rest
  end.

(** The rows of the table with a given [created_at], in table order. *)
Definition at_time (t : Z) (rows : list event_row) : list event_row :=
  List.filter (fun r => created_at r =? t) rows.

Lemma insert_by_created_at_perm (r : event_row) (sorted : list event_row) :
  Permutation (r :: sorted) (insert_by_created_at r sorted).
Proof.
  induction sorted as [| r' rest IH]; cbn [insert_by_created_at].
  - reflexivity.
  - destruct (created_at r <? created_at r'); [reflexivity |].
    rewrite perm_swap. now apply perm_skip.
Qed.

Lemma insert_by_created_at_sorted (r : event_row) (sorted : list event_row) :
  StronglySorted not_after sorted ->
  StronglySorted not_after (insert_by_created_at r sorted).
Proof.
  induction sorted as [| r' rest IH]; intros Hs; cbn [insert_by_created_at].
  - repeat constructor.
  - inversion Hs as [| ? ? Hrest Hall]; subst.
    destruct (Z.ltb_spec (created_at r) (created_at r')) as [Hlt | Hge].
    + constructor; [exact Hs |]. constructor; [unfold not_after; lia |].
      eapply List.Forall_impl; [| exact Hall]. unfold not_after. intros; lia.
    + constructor; [apply IH; exact Hrest |].
      eapply Permutation_Forall; [apply insert_by_created_at_perm |].
      constructor; [exact Hge | exact Hall].
Qed.

Lemma at_time_later (t : Z) (rows : list event_row) :
  Forall (fun r => t < created_at r) rows -> at_time t rows = [].
Proof.
  induction 1 as [| r rest Hr _ IH]; [reflexivity |].
  unfold at_time in *. cbn [List.filter].
  destruct (Z.eqb_spec (created_at r) t); [lia | exact IH].
Qed.

Lemma at_time_cons (t : Z) (r : event_row) (rows : list event_row) :
  at_time t (r :: rows) = at_time t [r] ++ at_time t rows.
Proof. unfold at_time. apply (List.filter_app _ [r] rows). Qed.

(** A row is inserted behind the rows of its own [created_at]. *)
Lemma insert_by_created_at_at_time (t : Z) (r : event_row)
    (sorted : list event_row) :
  StronglySorted not_after sorted ->
  at_time t (insert_by_created_at r sorted) = at_time t sorted ++ at_time t [r].
Proof.
  induction sorted as [| r' rest IH]; intros Hs; cbn [insert_by_created_at].
  - reflexivity.
  - inversion Hs as [| ? ? Hrest Hall]; subst.
    destruct (Z.ltb_spec (created_at r) (created_at r')) as [Hlt | Hge].
    + rewrite (at_time_cons t r (r' :: rest)).
      unfold at_time at 1 4. cbn [List.filter].
      destruct (Z.eqb_spec (created_at r) t) as [Ht | Ht].
      * rewrite at_time_later; [reflexivity |].
        constructor; [lia |].
        eapply List.Forall_impl; [| exact Hall]. unfold not_after. intros; lia.
      * now rewrite List.app_nil_r.
    + rewrite (at_time_cons t r' (insert_by_created_at r rest)).
      rewrite IH by exact Hrest.
      rewrite (at_time_cons t r' rest). now rewrite List.app_assoc.
Qed.

Lemma fold_insert_sorted (rows acc : list event_row) :
  StronglySorted not_after acc ->
  StronglySorted not_after
    (fold_left (fun sorted r => insert_by_created_at r sorted) rows acc).
Proof.
  revert acc. induction rows as [| r rows IH]; intros acc Hacc; cbn [fold_left].
  - exact Hacc.
  - apply IH. now apply insert_by_created_at_sorted.
Qed.

Lemma fold_insert_perm (rows acc : list event_row) :
  Permutation (acc ++ rows)
    (fold_left (fun sorted r => insert_by_created_at r sorted) rows acc).
Proof.
  revert acc. induction rows as [| r rows IH]; intros acc; cbn [fold_left].
  - now rewrite List.app_nil_r.
  - rewrite <- IH. rewrite <- insert_by_created_at_perm.
    symmetry. apply Permutation_middle.
Qed.

Lemma fold_insert_at_time (t : Z) (rows acc : list event_row) :
  StronglySorted not_after acc ->
  at_time t (fold_left (fun sorted r => insert_by_created_at r sorted) rows acc)
  = at_time t acc ++ at_time t rows.
Proof.
  revert acc. induction rows as [| r rows IH]; intros acc Hacc; cbn [fold_left].
  - now rewrite List.app_nil_r.
  - rewrite IH by now apply insert_by_created_at_sorted.
    rewrite insert_by_created_at_at_time by exact Hacc.
    rewrite (at_time_cons t r rows). now rewrite <- List.app_assoc.
Qed.

(** [ORDER BY created_at ASC] as modelled: the rows of the table, in order
    of [created_at], rows of one [created_at] in table order. *)
Lemma order_by_created_at_spec (rows : list event_row) :
  Permutation rows (order_by_created_at rows)
  /\ StronglySorted not_after (order_by_created_at rows)
  /\ forall t, at_time t (order_by_created_at rows) = at_time t rows.
Proof.
  unfold order_by_created_at. split; [| split].
  - apply (fold_insert_perm rows []).
  - apply fold_insert_sorted. constructor.
  - intros t. now rewrite fold_insert_at_time by constructor.
Qed.

Lemma In_firstn_inv {A : Type} (n : nat) (l : list A) (x : A) :
  In x (firstn n l) -> In x l.
Proof.
  intros H. rewrite <- (firstn_skipn n l). apply in_or_app. now left.
Qed.

Lemma StronglySorted_firstn {A : Type} (R : A -> A -> Prop) (n : nat) (l : list A) :
  StronglySorted R l -> StronglySorted R (firstn n l).
Proof.
  revert n. induction l as [| a l IH]; intros [| n] Hs; cbn [firstn];
    try constructor.
  - inversion Hs; subst. now apply IH.
  - inversion Hs as [| ? ? _ Hall]; subst.
    rewrite List.Forall_forall in *. intros x Hx. apply Hall.
    revert Hx. apply In_firstn_inv.
Qed.

Definition render (r : event_row) : string := id r +:+ "|" +:+ event_json r.

Definition row (i : string) (t : Z) : event_row :=
  {| id := i; event_json := "{}"; created_at := t |}.

(** Three rows queued within the same second, in this order. *)
Definition tie_table : StorageManager.t :=
  with_events fresh [row "b" 5; row "a" 5; row "c" 5].

(** C4, counterexample.  Ids are random and the query orders by
    [created_at] alone: three rows of one second come back as they were
    inserted, [b], [a], [c], which is ordered by id neither upwards nor
    downwards; and a negative limit returns more rows than the limit. *)
Lemma GetQueuedEvents_ties_not_by_id :
  GetQueuedEvents 10 tie_table = ["b|{}"; "a|{}"; "c|{}"]
  /\ ordered_by_time_then_id (selected_rows 10 (events tie_table)) = false
  /\ ordered_by_time_then_id (rev (selected_rows 10 (events tie_table))) = false
  /\ List.length (GetQueuedEvents (-1) tie_table) = 3%nat.
Proof. repeat split; reflexivity. Qed.

(** C4, as amended.  For a limit [n >= 0], [GetQueuedEvents] yields at most
    [n] strings [id|json], built from the first rows of the table in order of
    non-decreasing [created_at]; rows of the same [created_at] come in the
    order of the table (their insertion order), whatever their ids. *)
Theorem GetQueuedEvents_oldest_first (n : Z) (s : StorageManager.t) :
  0 <= n ->
  exists rows : list event_row,
    GetQueuedEvents n s = map render rows
    /\ Z.of_nat (List.length rows) <= n
    /\ StronglySorted not_after rows
    /\ (db_ s = true ->
        rows = firstn (Z.to_nat n) (order_by_created_at (events s))
        /\ Permutation (events s) (order_by_created_at (events s))
        /\ forall t, at_time t (order_by_created_at (events s))
                     = at_time t (events s)).
Proof.
  intros Hn. unfold GetQueuedEvents.
  destruct (db_ s) eqn:Hdb; cbn [negb].
  - exists (selected_rows n (events s)).
    destruct (order_by_created_at_spec (events s)) as (Hperm & Hsorted & Hties).
    unfold selected_rows, limit.
    replace (n <? 0) with false by (symmetry; zbool).
    split; [reflexivity |]. split; [| split].
    + pose proof (List.firstn_le_length (Z.to_nat n)
                    (order_by_created_at (events s))). lia.
    + now apply StronglySorted_firstn.
    + intros _. auto.
  - exists []. split; [reflexivity |]. split; [cbn; lia |].
    split; [constructor | discriminate].
Qed.

Lemma GetQueuedEvents_oldest_first_witness :
  exists rows : list event_row,
    GetQueuedEvents 2 tie_table = map render rows
    /\ Z.of_nat (List.length rows) <= 2
    /\ StronglySorted not_after rows
    /\ (db_ tie_table = true ->
        rows = firstn (Z.to_nat 2) (order_by_created_at (events tie_table))
        /\ Permutation (events tie_table) (order_by_created_at (events tie_table))
        /\ forall t, at_time t (order_by_created_at (events tie_table))
                     = at_time t (events tie_table)).
Proof. apply (GetQueuedEvents_oldest_first 2 tie_table). lia. Defined.







Example RemoveEvents_two_of_three :
  RemoveEvents ["b"; "c"] tie_table = (true, with_events fresh [row "a" 5])
  /\ sql (delete_statement ["b"; "c"]) = "DELETE FROM events WHERE id IN (?,?)".
Proof. split; reflexivity. Qed.

End StoreFacts.

(** ** Scanning strings *)

Section ScanFacts.

Lemma find_char_spec (c : ascii) (s : string) :
  forall pos m : nat,
    find_char c s pos = Some m ->
    pos <= m
    /\ String.get m s = Some c
    /\ forall p : nat, pos <= p < m -> String.get p s <> Some c.
Proof.
  induction s as [| c' s' IH]; intros pos m Hfind; [discriminate |].
  cbn [find_char] in Hfind. destruct pos as [| pos'].
  - destruct (Ascii.eqb_spec c' c) as [-> | Hne].
    + injection Hfind as <-. split; [lia |]. split; [reflexivity |]. intros p Hp; lia.
    + destruct (find_char c s' 0) as [m' |] eqn:E; [| discriminate].
      injection Hfind as <-. destruct (IH 0 m' E) as (_ & Hget & Hfirst).
      split; [lia |]. split; [exact Hget |].
      intros [| p'] Hp; cbn [String.get].
      * congruence.
      * apply Hfirst. lia.
  - destruct (find_char c s' pos') as [m' |] eqn:E; [| discriminate].
    injection Hfind as <-. destruct (IH pos' m' E) as (Hle & Hget & Hfirst).
    split; [lia |]. split; [exact Hget |].
    intros [| p'] Hp; [lia |]. cbn [String.get]. apply Hfirst. lia.
Qed.

Lemma get_Some_lt (s : string) :
  forall (n : nat) (c : ascii), String.get n s = Some c -> n < String.length s.
Proof.
  induction s as [| c' s' IH]; intros n c H; [discriminate |].
  destruct n as [| n']; cbn [String.length]; [lia |].
  cbn [String.get] in H. apply IH in H. lia.
Qed.

Lemma get_None_ge (s : string) :
  forall n : nat, String.get n s = None -> String.length s <= n.
Proof.
  induction s as [| c' s' IH]; intros n H; cbn [String.length]; [lia |].
  destruct n as [| n']; [discriminate |].
  cbn [String.get] in H. apply IH in H. lia.
Qed.

Lemma find_char_lt (c : ascii) (s : string) (pos m : nat) :
  find_char c s pos = Some m -> pos <= m < String.length s.
Proof.
  intros H. destruct (find_char_spec c s pos m H) as (Hle & Hget & _).
  apply get_Some_lt in Hget. lia.
Qed.

(** What [scan_while] returns when its budget covers the rest of the
    string: the first position from [pos] whose character is not kept, or
    the end of the string. *)
Lemma scan_while_spec (keep : ascii -> bool) (s : string) :
  forall fuel pos : nat,
    String.length s <= pos + fuel ->
    pos <= scan_while keep fuel s pos
    /\ (forall c, String.get (scan_while keep fuel s pos) s = Some c ->
                  keep c = false)
    /\ forall p c, pos <= p < scan_while keep fuel s pos ->
                   String.get p s = Some c -> keep c = true.
Proof.
  induction fuel as [| fuel IH]; intros pos Hlen; cbn [scan_while].
  - split; [lia |]. split; [| intros; lia].
    intros c Hc. apply get_Some_lt in Hc. lia.
  - destruct (String.get pos s) as [c |] eqn:Hget.
    + destruct (keep c) eqn:Hkeep.
      * destruct (IH (S pos) ltac:(lia)) as (Hle & Hstop & Hkept).
        split; [lia |]. split; [exact Hstop |].
        intros p c' Hp Hc'. destruct (Nat.eq_dec p pos) as [-> | Hne].
        -- congruence.
        -- apply (Hkept p c'); [lia | exact Hc'].
      * split; [lia |]. split; [| intros; lia]. congruence.
    + split; [lia |]. split; [| intros; lia]. congruence.
Qed.

(** More budget than the length of the string changes nothing. *)
Lemma scan_while_fuel (keep : ascii -> bool) (s : string) :
  forall fuel pos : nat,
    String.length s <= pos + fuel ->
    scan_while keep (S fuel) s pos = scan_while keep fuel s pos.
Proof.
  induction fuel as [| fuel IH]; intros pos Hlen.
  - cbn [scan_while]. destruct (String.get pos s) as [c |] eqn:Hget;
      [| reflexivity].
    apply get_Some_lt in Hget. lia.
  - change (scan_while keep (S (S fuel)) s pos)
      with (match String.get pos s with
            | Some c => if keep c then scan_while keep (S fuel) s (S pos) else pos
            | None => pos
            end).
    cbn [scan_while]. destruct (String.get pos s) as [c |]; [| reflexivity].
    destruct (keep c); [| reflexivity]. apply IH. lia.
Qed.

Lemma substr_empty (s : string) (pos : nat) : substr s pos 0 = EmptyString.
Proof.
  unfold substr. revert pos. induction s as [| c s IH]; intros [| pos];
    cbn [String.substring]; try reflexivity. apply IH.
Qed.

Lemma substr_get_0 (s : string) (pos len : nat) :
  0 < len -> String.get 0 (substr s pos len) = String.get pos s.
Proof. intros H. unfold substr. now rewrite String.substring_correct1. Qed.

Lemma char_at_get (s : string) (pos : nat) (c : ascii) :
  String.get pos s = Some c -> char_at s pos = c.
Proof. unfold char_at. now intros ->. Qed.

End ScanFacts.

(** ** The flag cache *)

Section FlagFacts.
Import FeatureFlagsManager.

(** A stored value is unquoted when it does not begin with a double quote. *)
Definition unquoted (value : string) : Prop := char_at value 0 <> dquote.

Definition all_unquoted (cache : gmap string string) : Prop :=
  forall k v, cache !! k = Some v -> unquoted v.

Lemma unquoted_empty : unquoted EmptyString.
Proof. discriminate. Qed.

Lemma all_unquoted_empty : all_unquoted ∅.
Proof. intros k v H. now rewrite lookup_empty in H. Qed.

Lemma all_unquoted_insert (cache : gmap string string) (key value : string) :
  all_unquoted cache -> unquoted value -> all_unquoted (<[key := value]> cache).
Proof.
  intros Hc Hv k v. destruct (decide (key = k)) as [-> | Hne].
  - rewrite lookup_insert_eq. now intros [= <-].
  - rewrite lookup_insert_ne by exact Hne. apply Hc.
Qed.

(** The text between a position and the next double quote is unquoted. *)
Lemma unquoted_up_to_quote (s : string) (pos value_end : nat) :
  find_char dquote s pos = Some value_end ->
  unquoted (substr s pos (value_end - pos)).
Proof.
  intros Hfind. destruct (find_char_spec _ _ _ _ Hfind) as (Hle & _ & Hfirst).
  unfold unquoted, char_at.
  destruct (Nat.eq_dec value_end pos) as [-> | Hne].
  - rewrite Nat.sub_diag, substr_empty. discriminate.
  - rewrite substr_get_0 by lia.
    destruct (String.get pos s) as [c |] eqn:Hget; [| discriminate].
    cbn. intros ->. apply (Hfirst pos); [lia | exact Hget].
Qed.

Lemma find_last_not_blank_cons (c : ascii) (r : string) :
  is_blank c = false -> exists k, find_last_not_blank (String c r) = Some k.
Proof.
  intros Hc. cbn [find_last_not_blank].
  destruct (find_last_not_blank r) as [k |]; [now exists (S k) |].
  rewrite Hc. now exists 0.
Qed.

(** Trimming keeps a first character that is not a blank. *)
Lemma trim_blanks_cons (c : ascii) (r : string) :
  is_blank c = false ->
  exists r', trim_blanks (String c r) = String c r'.
Proof.
  intros Hc. unfold trim_blanks. cbn [find_first_not_blank]. rewrite Hc.
  cbn [string_drop].
  destruct (find_last_not_blank_cons c r Hc) as [k ->].
  unfold substr. cbn [String.substring]. now eexists.
Qed.

Lemma unquoted_trimmed (s : string) (pos value_end : nat) :
  char_at s pos <> dquote ->
  is_blank (char_at s pos) = false ->
  unquoted (trim_blanks (substr s pos (value_end - pos))).
Proof.
  intros Hq Hb.
  destruct (Nat.le_gt_cases value_end pos) as [Hle | Hgt].
  - replace (value_end - pos) with 0 by lia. rewrite substr_empty. discriminate.
  - destruct (substr s pos (value_end - pos)) as [| c r] eqn:Hsub; [discriminate |].
    assert (Hc : String.get pos s = Some c).
    { rewrite <- (substr_get_0 s pos (value_end - pos)) by lia. now rewrite Hsub. }
    apply char_at_get in Hc. subst c.
    destruct (trim_blanks_cons _ r Hb) as [r' ->]. exact Hq.
Qed.

Lemma skip_blanks_spec (s : string) (pos : nat) :
  pos <= skip_blanks s pos
  /\ (skip_blanks s pos < String.length s ->
      is_blank (char_at s (skip_blanks s pos)) = false).
Proof.
  unfold skip_blanks.
  destruct (scan_while_spec is_blank s (String.length s) pos ltac:(lia))
    as (Hle & Hstop & _).
  split; [exact Hle |]. intros Hlt.
  destruct (String.get (scan_while is_blank (String.length s) s pos) s)
    as [c |] eqn:Hget.
  - rewrite (char_at_get _ _ _ Hget). now apply Hstop.
  - apply get_None_ge in Hget. lia.
Qed.

Lemma parse_value_spec (s : string) (pos : nat) (value : string) (next : nat) :
  is_blank (char_at s pos) = false ->
  parse_value s pos = Some (value, next) ->
  unquoted value /\ pos <= next.
Proof.
  intros Hb. unfold parse_value.
  destruct (Ascii.eqb_spec (char_at s pos) dquote) as [Hq | Hq].
  - destruct (find_char dquote s (S pos)) as [value_end |] eqn:Hfind;
      [| discriminate].
    intros [= <- <-]. split; [now apply unquoted_up_to_quote |].
    apply find_char_lt in Hfind. lia.
  - intros [= <- <-]. split; [now apply unquoted_trimmed |].
    now destruct (scan_while_spec
                    (fun c => negb (Ascii.eqb c ","%char)
                              && negb (Ascii.eqb c "}"%char))
                    s (String.length s) pos ltac:(lia)) as (Hle & _).
Qed.

(** The loop stores unquoted values only. *)
Lemma ParseFlags_loop_unquoted (fuel : nat) :
  forall (s : string) (pos : nat) (cache : gmap string string),
    all_unquoted cache -> all_unquoted (ParseFlags_loop fuel s pos cache).
Proof.
  induction fuel as [| fuel IH]; intros s pos cache Hc; [exact Hc |].
  cbn [ParseFlags_loop].
  destruct (negb (pos <? String.length s)%nat); [exact Hc |].
  destruct (find_char dquote s pos) as [key_start |]; [| exact Hc].
  destruct (find_char dquote s (S key_start)) as [key_end |]; [| exact Hc].
  destruct (find_char ":"%char s key_end) as [colon |]; [| exact Hc].
  destruct (skip_blanks_spec s (S colon)) as (_ & Hblank).
  destruct (Nat.ltb_spec (skip_blanks s (S colon)) (String.length s))
    as [Hlt | Hge]; cbn [negb]; [| exact Hc].
  destruct (parse_value s (skip_blanks s (S colon))) as [[value next] |] eqn:Hv;
    [| exact Hc].
  destruct (parse_value_spec _ _ _ _ (Hblank Hlt) Hv) as (Hu & _).
  pose proof (all_unquoted_insert cache
                (substr s (S key_start) (key_end - S key_start)) value Hc Hu).
  destruct (find_char ","%char s next); [now apply IH | assumption].
Qed.

(** Every cache [ParseFlagsResponse] leaves holds unquoted values only. *)
Lemma ParseFlagsResponse_unquoted (response : string)
    (storage : StorageManager.t) (m : FeatureFlagsManager.t) :
  all_unquoted (flags_cache_ (fst (ParseFlagsResponse response storage m))).
Proof.
  unfold ParseFlagsResponse.
  destruct (_ || _); cbn [fst flags_cache_].
  - apply all_unquoted_empty.
  - apply ParseFlags_loop_unquoted, all_unquoted_empty.
Qed.

(** The budget of [ParseFlags_loop] is enough: an iteration that continues
    moves [pos] forward, and more budget than the rest of the string changes
    nothing. *)
Lemma ParseFlags_loop_fuel (s : string) :
  forall (fuel1 fuel2 pos : nat) (cache : gmap string string),
    String.length s <= pos + fuel1 ->
    String.length s <= pos + fuel2 ->
    ParseFlags_loop fuel1 s pos cache = ParseFlags_loop fuel2 s pos cache.
Proof.
  induction fuel1 as [| fuel1 IH]; intros [| fuel2] pos cache H1 H2;
    cbn [ParseFlags_loop]; try reflexivity;
    try (destruct (Nat.ltb_spec pos (String.length s)); [lia | reflexivity]).
  destruct (negb (pos <? String.length s)%nat); [reflexivity |].
  destruct (find_char dquote s pos) as [key_start |] eqn:E1; [| reflexivity].
  destruct (find_char dquote s (S key_start)) as [key_end |] eqn:E2;
    [| reflexivity].
  destruct (find_char ":"%char s key_end) as [colon |] eqn:E3; [| reflexivity].
  destruct (skip_blanks_spec s (S colon)) as (Hskip & Hblank).
  destruct (Nat.ltb_spec (skip_blanks s (S colon)) (String.length s))
    as [Hlt | Hge]; cbn [negb]; [| reflexivity].
  destruct (parse_value s (skip_blanks s (S colon))) as [[value next] |] eqn:Hv;
    [| reflexivity].
  destruct (parse_value_spec _ _ _ _ (Hblank Hlt) Hv) as (_ & Hnext).
  destruct (find_char ","%char s next) as [comma |] eqn:E4; [| reflexivity].
  apply find_char_lt in E1, E2, E3, E4. apply IH; lia.
Qed.

Lemma match_braces_fuel (s : string) :
  forall (fuel1 fuel2 end_ : nat) (depth : Z),
    String.length s <= end_ + fuel1 ->
    String.length s <= end_ + fuel2 ->
    match_braces fuel1 s end_ depth = match_braces fuel2 s end_ depth.
Proof.
  induction fuel1 as [| fuel1 IH]; intros [| fuel2] end_ depth H1 H2;
    cbn [match_braces]; try reflexivity;
    try (destruct (String.get end_ s) as [c |] eqn:Hget; [| reflexivity];
         apply get_Some_lt in Hget; lia).
  destruct (String.get end_ s) as [c |]; [| reflexivity].
  destruct (0 <? depth)%Z; [| reflexivity].
  apply IH; lia.
Qed.

(** What [IsFeatureEnabled] tests, on any cache. *)
Lemma IsFeatureEnabled_spec (key : string) (m : FeatureFlagsManager.t) :
  IsFeatureEnabled key m = true
  <-> exists v, flags_cache_ m !! key = Some v
                /\ (v = "true" \/ v = "1"
                    \/ (char_at v 0 = dquote /\ 2 < String.length v)).
Proof.
  unfold IsFeatureEnabled. destruct (flags_cache_ m !! key) as [v |].
  - rewrite !orb_true_iff, andb_true_iff, !String.eqb_eq, Nat.ltb_lt.
    rewrite <- (reflect_iff _ _ (Ascii.eqb_spec (char_at v 0) dquote)).
    split.
    + intros H. exists v. split; [reflexivity | tauto].
    + intros (v' & [= <-] & H). tauto.
  - split; [discriminate | intros (v & H & _); discriminate].
Qed.

(** A non-empty string literal: a non-empty text between double quotes. *)
Definition nonempty_string_literal (v : string) : Prop :=
  exists text : string,
    text <> EmptyString /\ v = String dquote (text +:+ String dquote EmptyString).

Lemma nonempty_string_literal_quoted (v : string) :
  nonempty_string_literal v -> char_at v 0 = dquote /\ 2 < String.length v.
Proof.
  intros (text & Hne & ->). split; [reflexivity |].
  cbn [String.length]. rewrite string_length_app. cbn [String.length].
  destruct text; [contradiction | cbn [String.length]; lia].
Qed.

(** A decide response with one string-variant flag:
    [{"featureFlags":{"<key>":"<label>"}}]. *)
Definition string_variant_response (key label : string) : string :=
  "{" +:+ String dquote "featureFlags" +:+ String dquote ":{"
  +:+ String dquote key +:+ String dquote ":"
  +:+ String dquote label +:+ String dquote "}}".

Definition parsed (response : string) : FeatureFlagsManager.t :=
  fst (ParseFlagsResponse response StorageManager.fresh {| flags_cache_ := ∅ |}).

(** C6, counterexample.  In [{"featureFlags":{"k":"true"}}] the flag [k] is
    a string variant; it is stored as [true] and reported enabled. *)
Lemma string_variant_true_is_enabled :
  flags_cache_ (parsed (string_variant_response "k" "true")) !! "k" = Some "true"
  /\ IsFeatureEnabled "k" (parsed (string_variant_response "k" "true")) = true.
Proof. split; reflexivity. Qed.

Example string_variant_control_is_not_enabled :
  flags_cache_ (parsed (string_variant_response "k" "control")) !! "k"
  = Some "control"
  /\ IsFeatureEnabled "k" (parsed (string_variant_response "k" "control")) = false.
Proof. split; reflexivity. Qed.

(** C6, as amended.  On the cache left by parsing any response,
    [IsFeatureEnabled key] is true exactly when the value stored for [key] is
    ["true"], ["1"] or a non-empty string literal, and false when the key is
    absent; the parser strips the quotes of a string variant, so no stored
    value is such a literal, and the answer for a stored value [v] is true
    exactly when [v] is ["true"] or ["1"]: a string-variant flag is reported
    enabled only when its label is [true] or [1]. *)
Theorem IsFeatureEnabled_after_parse (response : string)
    (storage : StorageManager.t) (m0 : FeatureFlagsManager.t) (key : string) :
  (IsFeatureEnabled key (fst (ParseFlagsResponse response storage m0)) = true
   <-> exists v,
        flags_cache_ (fst (ParseFlagsResponse response storage m0)) !! key = Some v
        /\ (v = "true" \/ v = "1" \/ nonempty_string_literal v))
  /\ (forall v,
         flags_cache_ (fst (ParseFlagsResponse response storage m0)) !! key = Some v ->
         ~ nonempty_string_literal v
         /\ IsFeatureEnabled key (fst (ParseFlagsResponse response storage m0))
            = (String.eqb v "true" || String.eqb v "1"))
  /\ (flags_cache_ (fst (ParseFlagsResponse response storage m0)) !! key = None ->
      IsFeatureEnabled key (fst (ParseFlagsResponse response storage m0)) = false).
Proof.
  pose proof (ParseFlagsResponse_unquoted response storage m0) as Hu.
  set (m := fst (ParseFlagsResponse response storage m0)) in *.
  split; [| split].
  - rewrite IsFeatureEnabled_spec. split.
    + intros (v & Hv & [H | [H | [Hq _]]]).
      * exists v. tauto.
      * exists v. tauto.
      * now apply Hu in Hv.
    + intros (v & Hv & [H | [H | H]]).
      * exists v. tauto.
      * exists v. tauto.
      * apply nonempty_string_literal_quoted in H. exists v. tauto.
  - intros v Hv. split.
    + intros H. apply nonempty_string_literal_quoted in H as [Hq _].
      now apply Hu in Hv.
    + unfold IsFeatureEnabled. rewrite Hv.
      destruct (Ascii.eqb_spec (char_at v 0) dquote) as [Hq | _].
      * now apply Hu in Hv.
      * now rewrite orb_false_r.
  - intros Hnone. unfold IsFeatureEnabled. now rewrite Hnone.
Qed.

(** A reload whose transfer fails, whose status is not 2xx or whose body is
    empty returns [false] and leaves the cache as it was. *)
Lemma ReloadFeatureFlags_transport_failure (lib : library)
    (net : HttpClient.curl_result) (distinct_id : string)
    (properties : list (string * string)) (http : HttpClient.t)
    (storage : StorageManager.t) (m : FeatureFlagsManager.t) :
  HttpClient.success
    (fst (HttpClient.PostDecide lib net distinct_id properties http)) = false
  \/ HttpClient.body
       (fst (HttpClient.PostDecide lib net distinct_id properties http))
     = EmptyString ->
  ReloadFeatureFlags lib net distinct_id properties http storage m
  = (false, snd (HttpClient.PostDecide lib net distinct_id properties http),
     storage, m).
Proof.
  intros H. unfold ReloadFeatureFlags.
  destruct (HttpClient.PostDecide lib net distinct_id properties http)
    as [response http'].
  cbn [fst snd] in *.
  destruct H as [-> | ->]; [reflexivity |].
  now rewrite String.eqb_refl, andb_false_r.
Qed.

Definition client : HttpClient.t :=
  HttpClient.SetApiKey "phc_test"
    (HttpClient.SetBaseUrl "http://localhost:8000" HttpClient.initialized).

Definition one_flag : FeatureFlagsManager.t :=
  {| flags_cache_ := {["beta" := "true"]} |}.

(** C2 (the code departs from the claim).  [ParseFlagsResponse] clears the
    cache before it looks for the flags object, and [ReloadFeatureFlags]
    returns [true] for every non-empty 2xx body: after a 200 answer with the
    body [{}], which has no [featureFlags], the reload reports success and
    the flag [beta], enabled before, is gone from the cache.  The persisted
    blob is not rewritten.  (A failed transfer, a non-2xx status and an empty
    body do leave the cache alone: [ReloadFeatureFlags_transport_failure].) *)
Theorem ReloadFeatureFlags_unparsable_body_clears_cache :
  IsFeatureEnabled "beta" one_flag = true
  /\ exists http' : HttpClient.t,
      ReloadFeatureFlags Examples.lib (HttpClient.CURLE_OK 200 "{}") "user" []
        client StorageManager.fresh one_flag
      = (true, http', StorageManager.fresh, {| flags_cache_ := ∅ |})
      /\ IsFeatureEnabled "beta" {| flags_cache_ := ∅ |} = false.
Proof.
  split; [reflexivity |]. eexists. split; [| reflexivity].
  vm_compute. reflexivity.
Qed.

End FlagFacts.

(** ** The replay worker *)

Section ReplayFacts.
Import SessionReplayManager.
Local Open Scope Z_scope.

(** The HTTP client after one turn of the worker. *)
Definition client_after (r : bool * SessionReplayManager.t * HttpClient.t
                             * StorageManager.t) : HttpClient.t :=
  snd (fst r).

(** A client that can post: it has a handle and a base URL. *)
Definition ready (http : HttpClient.t) : Prop :=
  HttpClient.curl_handle_ http = true
  /\ HttpClient.base_url_ http <> EmptyString.

Lemma PerformPost_sent (net : HttpClient.curl_result) (endpoint payload : string)
    (http : HttpClient.t) :
  ready http ->
  HttpClient.sent (snd (HttpClient.PerformPost net endpoint payload http))
  = HttpClient.sent http ++ [(HttpClient.base_url_ http +:+ endpoint, payload)].
Proof.
  intros [Hh Hu]. unfold HttpClient.PerformPost. rewrite Hh.
  destruct (String.eqb_spec (HttpClient.base_url_ http) EmptyString);
    [contradiction |].
  cbn [negb orb]. destruct net; reflexivity.
Qed.

Lemma app_one_neq {A : Type} (l : list A) (x : A) : l ++ [x] <> l.
Proof.
  intros H. apply (f_equal (@List.length A)) in H.
  rewrite List.length_app in H. cbn in H. lia.
Qed.

(** [SendBatch] posts exactly when it is given something to send. *)
Lemma SendBatch_sent (lib : library) (net : HttpClient.curl_result)
    (now_ms random : Z) (snapshots : list SnapshotData)
    (meta_events : list MetaEventData) (http : HttpClient.t)
    (storage : StorageManager.t) (m : SessionReplayManager.t) :
  ready http -> http_client_ m = true ->
  (snapshots = [] /\ meta_events = []
   /\ fst (SendBatch lib net now_ms random snapshots meta_events http storage m)
      = http)
  \/ ((snapshots <> [] \/ meta_events <> [])
      /\ exists request,
          HttpClient.sent
            (fst (SendBatch lib net now_ms random snapshots meta_events
                    http storage m))
          = HttpClient.sent http ++ [request]).
Proof.
  intros Hready Hclient. unfold SendBatch.
  destruct snapshots as [| sn snapshots], meta_events as [| me meta_events];
    cbn [is_nil andb].
  - left. auto.
  - right. split; [right; discriminate |]. rewrite Hclient. cbn [negb].
    destruct (batch_distinct_id now_ms random storage m) as [d storage'].
    cbn [fst]. unfold HttpClient.PostSessionReplay.
    rewrite PerformPost_sent by exact Hready. eauto.
  - right. split; [left; discriminate |]. rewrite Hclient. cbn [negb].
    destruct (batch_distinct_id now_ms random storage m) as [d storage'].
    cbn [fst]. unfold HttpClient.PostSessionReplay.
    rewrite PerformPost_sent by exact Hready. eauto.
  - right. split; [left; discriminate |]. rewrite Hclient. cbn [negb].
    destruct (batch_distinct_id now_ms random storage m) as [d storage'].
    cbn [fst]. unfold HttpClient.PostSessionReplay.
    rewrite PerformPost_sent by exact Hready. eauto.
Qed.

(** A pipeline with batch size 0 and one buffered meta event. *)
Definition meta_only : SessionReplayManager.t :=
  AddMetaEvent 1 800 600 "home"
    (SetBatchSize 0 (SetActive true (SessionReplayManager.new "phc_test" 0))).

(** An active pipeline with the given batch size and one buffered frame of
    two bytes. *)
Definition one_frame (size : Z) : SessionReplayManager.t :=
  match AddSnapshot Examples.lib 1 [x89; x50] 1 0 0 800 600
          (SetBatchSize size
             (SetActive true (SessionReplayManager.new "phc_test" 0))) with
  | Returns m => m
  | _ => SessionReplayManager.new "phc_test" 0
  end.

Definition posting_client : HttpClient.t :=
  HttpClient.SetApiKey "phc_test"
    (HttpClient.SetBaseUrl "http://localhost:8000" HttpClient.initialized).

(** C8, counterexample.  [batchSize] is taken from the configuration
    unchecked.  With batch size 0 the test [size >= batch_size] holds for the
    empty snapshot buffer: a buffered meta event is posted on its own.  With
    both buffers empty the test holds as well, and nothing is posted.  With a
    negative batch size the cast to [size_t] makes the test fail although
    [size >= batchSize] holds. *)
Lemma FlushThread_batch_size_zero_sends_meta_only :
  snapshot_buffer_ meta_only = []
  /\ List.length
       (HttpClient.sent
          (client_after
             (FlushThread_iteration Examples.lib (HttpClient.CURLE_OK 200 "{}")
                100 100 1234 posting_client StorageManager.fresh meta_only)))
     = 1%nat
  /\ HttpClient.sent
       (client_after
          (FlushThread_iteration Examples.lib (HttpClient.CURLE_OK 200 "{}")
             100 100 1234 posting_client StorageManager.fresh
             (SetBatchSize 0 (SetActive true (SessionReplayManager.new "phc_test" 0)))))
     = []
  /\ List.length (snapshot_buffer_ (one_frame (-1))) = 1%nat
  /\ batch_size_ (one_frame (-1)) = -1
  /\ HttpClient.sent
       (client_after
          (FlushThread_iteration Examples.lib (HttpClient.CURLE_OK 200 "{}")
             100 100 1234 posting_client StorageManager.fresh (one_frame (-1))))
     = [].
Proof. repeat split; reflexivity. Qed.

(** C8, as amended.  For a batch size of at least 1, one turn of the worker
    (running, with its HTTP client) posts a batch exactly when the pipeline
    is active and either the snapshot buffer holds at least [batch_size_]
    frames or it is not empty and at least [batch_interval_ms_] have passed
    since the last send; it posts at most one batch, and none when the
    snapshot buffer is empty, whatever the meta buffer holds. *)
Theorem FlushThread_sends_iff (lib : library) (net : HttpClient.curl_result)
    (now now_ms random : Z) (http : HttpClient.t) (storage : StorageManager.t)
    (m : SessionReplayManager.t) :
  should_flush_ m = true ->
  http_client_ m = true ->
  ready http ->
  1 <= batch_size_ m <= 2147483647 ->
  ((exists request,
       HttpClient.sent
         (client_after (FlushThread_iteration lib net now now_ms random
                          http storage m))
       = HttpClient.sent http ++ [request])
   <-> is_active_ m = true
       /\ (batch_size_ m <= Z.of_nat (List.length (snapshot_buffer_ m))
           \/ (snapshot_buffer_ m <> []
               /\ batch_interval_ms_ m <= now - last_batch_time_ m)))
  /\ ((forall request,
          HttpClient.sent
            (client_after (FlushThread_iteration lib net now now_ms random
                             http storage m))
          <> HttpClient.sent http ++ [request]) ->
      client_after (FlushThread_iteration lib net now now_ms random
                      http storage m) = http)
  /\ (snapshot_buffer_ m = [] ->
      client_after (FlushThread_iteration lib net now now_ms random
                      http storage m) = http).
Proof.
  intros Hflush Hclient Hready Hsize.
  unfold FlushThread_iteration, client_after.
  rewrite Hflush, Hclient. cbn [negb orb].
  assert (Hcast : size_t (batch_size_ m) = batch_size_ m)
    by (unfold size_t; apply Z.mod_small; lia).
  rewrite Hcast.
  destruct (is_active_ m) eqn:Hactive; cbn [negb fst snd].
  2:{ split; [| split]; [| auto | auto].
      split; [| intros [H _]; discriminate].
      intros [request H]. symmetry in H. now apply app_one_neq in H. }
  destruct (Z.leb_spec (batch_size_ m) (Z.of_nat (List.length (snapshot_buffer_ m))))
    as [Hfull | Hnotfull].
  - (* the buffer is full *)
    assert (Hne : snapshot_buffer_ m <> [])
      by (intros E; rewrite E in Hfull; cbn in Hfull; lia).
    destruct (SendBatch_sent lib net now_ms random (snapshot_buffer_ m)
                (meta_event_buffer_ m) http storage
                (with_buffers m [] [] now (meta_event_sent_ m)) Hready Hclient)
      as [(E & _) | (_ & request & Hsent)]; [contradiction |].
    destruct (SendBatch lib net now_ms random (snapshot_buffer_ m)
                (meta_event_buffer_ m) http storage
                (with_buffers m [] [] now (meta_event_sent_ m)))
      as [http' storage'].
    cbn [fst snd] in *. split; [| split].
    + split; [auto | eauto].
    + intros H. now apply H in Hsent.
    + contradiction.
  - destruct (Z.leb_spec (batch_interval_ms_ m) (now - last_batch_time_ m))
      as [Hdue | Hnotdue]; cbn [andb].
    + destruct (snapshot_buffer_ m) as [| sn rest] eqn:Hbuf; cbn [is_nil negb].
      * cbn [fst snd]. split; [| split]; [| auto | auto].
        split.
        -- intros [request H]. symmetry in H. now apply app_one_neq in H.
        -- intros [_ [H | [H _]]]; [cbn in H; lia | contradiction].
      * destruct (SendBatch_sent lib net now_ms random (sn :: rest)
                    (meta_event_buffer_ m) http storage
                    (with_buffers m [] [] now (meta_event_sent_ m))
                    Hready Hclient)
          as [(E & _) | (_ & request & Hsent)]; [discriminate |].
        destruct (SendBatch lib net now_ms random (sn :: rest)
                    (meta_event_buffer_ m) http storage
                    (with_buffers m [] [] now (meta_event_sent_ m)))
          as [http' storage'].
        cbn [fst snd] in *. split; [| split].
        -- split; [| eauto]. intros _. split; [reflexivity |].
           right. split; [discriminate | exact Hdue].
        -- intros H. now apply H in Hsent.
        -- discriminate.
    + cbn [fst snd]. split; [| split]; [| auto | auto].
      split.
      * intros [request H]. symmetry in H. now apply app_one_neq in H.
      * intros [_ [H | [_ H]]]; lia.
Qed.

Lemma FlushThread_sends_iff_witness :
  ((exists request,
       HttpClient.sent
         (client_after (FlushThread_iteration Examples.lib
                          (HttpClient.CURLE_OK 200 "{}") 100 100 1234
                          posting_client StorageManager.fresh (one_frame 1)))
       = HttpClient.sent posting_client ++ [request])
   <-> is_active_ (one_frame 1) = true
       /\ (batch_size_ (one_frame 1)
           <= Z.of_nat (List.length (snapshot_buffer_ (one_frame 1)))
           \/ (snapshot_buffer_ (one_frame 1) <> []
               /\ batch_interval_ms_ (one_frame 1)
                  <= 100 - last_batch_time_ (one_frame 1))))
  /\ ((forall request,
          HttpClient.sent
            (client_after (FlushThread_iteration Examples.lib
                             (HttpClient.CURLE_OK 200 "{}") 100 100 1234
                             posting_client StorageManager.fresh (one_frame 1)))
          <> HttpClient.sent posting_client ++ [request]) ->
      client_after (FlushThread_iteration Examples.lib
                      (HttpClient.CURLE_OK 200 "{}") 100 100 1234
                      posting_client StorageManager.fresh (one_frame 1))
      = posting_client)
  /\ (snapshot_buffer_ (one_frame 1) = [] ->
      client_after (FlushThread_iteration Examples.lib
                      (HttpClient.CURLE_OK 200 "{}") 100 100 1234
                      posting_client StorageManager.fresh (one_frame 1))
      = posting_client).
Proof.
  apply (FlushThread_sends_iff Examples.lib (HttpClient.CURLE_OK 200 "{}")
           100 100 1234 posting_client StorageManager.fresh (one_frame 1)).
  - reflexivity.
  - reflexivity.
  - split; [reflexivity | discriminate].
  - simpl. lia.
Defined.

End ReplayFacts.

(** ** Flush cycles of the event queue *)

Section FlushFacts.
Import StorageManager.

(** Identifiers drawn by [GenerateUUID] are made of hexadecimal digits and
    dashes; all that matters below is that they have no ['|']. *)
Definition no_bar (i : string) : Prop := find_char "|"%char i 0 = None.

(** The table as the primary key and [GenerateUUID] keep it. *)
Definition table_ok (rows : list event_row) : Prop :=
  List.NoDup (map id rows) /\ Forall (fun r => no_bar (id r)) rows.

Lemma find_char_app (c : ascii) (s1 s2 : string) :
  find_char c s1 0 = None ->
  find_char c (s1 +:+ String c s2) 0 = Some (String.length s1).
Proof.
  induction s1 as [| c1 s1 IH]; intros Hnone.
  - rewrite string_app_nil_l. cbn [find_char String.length].
    now rewrite Ascii.eqb_refl.
  - rewrite string_app_cons. cbn [find_char String.length] in *.
    destruct (Ascii.eqb c1 c); [discriminate |].
    destruct (find_char c s1 0); [discriminate |].
    now rewrite IH.
Qed.

Lemma substr_app_prefix (s1 s2 : string) :
  substr (s1 +:+ s2) 0 (String.length s1) = s1.
Proof.
  unfold substr. induction s1 as [| c1 s1 IH].
  - rewrite string_app_nil_l. cbn [String.length]. apply (substr_empty s2 0).
  - rewrite string_app_cons. cbn [String.length String.substring].
    now rewrite IH.
Qed.







(** The transfer came back with an HTTP status in [200, 300). *)
Definition status_2xx (net : HttpClient.curl_result) : Prop :=
  exists code body,
    net = HttpClient.CURLE_OK code body /\ (200 <= code < 300)%Z.

Lemma PerformPost_success (net : HttpClient.curl_result)
    (endpoint payload : string) (http : HttpClient.t) :
  HttpClient.success (fst (HttpClient.PerformPost net endpoint payload http)) = true ->
  status_2xx net.
Proof.
  unfold HttpClient.PerformPost.
  destruct (negb (HttpClient.curl_handle_ http) || _); [discriminate |].
  destruct net as [code body |]; cbn [fst HttpClient.success]; [| discriminate].
  intros H. apply andb_true_iff in H as [H1 H2].
  apply Z.leb_le in H1. apply Z.ltb_lt in H2. exists code, body. auto.
Qed.







Definition store_of (p : Plugin.t) : StorageManager.t :=
  default StorageManager.fresh (Plugin.storage_manager p).

Definition client_of (p : Plugin.t) : HttpClient.t :=
  default HttpClient.initialized (Plugin.http_client p).


Example worker_posts_and_removes_on_200 :
  Plugin.storage_manager
    (snd (Plugin.flush_events_thread_iteration Examples.lib
            (Examples.world 200 1) (Examples.plugin_after_setup false)))
  = Some (with_events (store_of (Examples.plugin_after_setup false)) []).
Proof. reflexivity. Qed.

Example worker_keeps_rows_on_500 :
  snd (Plugin.flush_events_thread_iteration Examples.lib
         (Examples.world 500 1) (Examples.plugin_after_setup false))
  = Plugin.with_http (Examples.plugin_after_setup false)
      (client_of
         (snd (Plugin.flush_events_thread_iteration Examples.lib
                 (Examples.world 500 1) (Examples.plugin_after_setup false))))
  /\ List.length
       (HttpClient.sent
          (client_of
             (snd (Plugin.flush_events_thread_iteration Examples.lib
                     (Examples.world 500 1) (Examples.plugin_after_setup false)))))
     = 1%nat.
Proof. split; reflexivity. Qed.

(** Without a 2xx answer no flush removes anything. *)
Lemma drain_post_remove_without_2xx (lib : library) (e : Plugin.env)
    (http : option HttpClient.t) (storage : StorageManager.t) (max_batch : Z)
    (http' : option HttpClient.t) (storage' : StorageManager.t) :
  ~ status_2xx (Plugin.net e) ->
  Plugin.drain_post_remove lib e http storage max_batch = Returns (http', storage') ->
  storage' = storage.
Proof.
  intros Hno. unfold Plugin.drain_post_remove.
  destruct (Plugin.split_events (GetQueuedEvents max_batch storage))
    as [event_ids event_jsons].
  destruct (is_nil event_jsons) eqn:Hnil; [now intros [= _ <-] |].
  destruct http as [client |]; [| discriminate].
  unfold HttpClient.PostCapture.
  destruct event_jsons as [| j rest]; [discriminate |].
  destruct (HttpClient.BuildCapturePayload lib client (j :: rest))
    as [payload | | |]; try discriminate.
  pose proof (PerformPost_success (Plugin.net e) "/capture/" payload client) as Hok.
  destruct (HttpClient.PerformPost (Plugin.net e) "/capture/" payload client)
    as [response client'].
  cbn [fst] in Hok.
  destruct (HttpClient.success response);
    [exfalso; apply Hno, Hok; reflexivity |].
  now intros [= _ <-].
Qed.

Lemma worker_keeps_store_without_2xx (lib : library) (e : Plugin.env)
    (p : Plugin.t) :
  ~ status_2xx (Plugin.net e) ->
  Plugin.storage_manager (snd (Plugin.flush_events_thread_iteration lib e p))
  = Plugin.storage_manager p.
Proof.
  intros Hno. unfold Plugin.flush_events_thread_iteration.
  destruct (Plugin.should_flush p); cbn [negb snd]; [| reflexivity].
  destruct (Plugin.storage_manager p) as [storage |] eqn:Hs; [| exact Hs].
  destruct (Plugin.http_client p) as [client |]; [| exact Hs].
  destruct (Plugin.opt_out p || negb (Plugin.initialized p)); [exact Hs |].
  destruct (Plugin.drain_post_remove lib e (Some client) storage
              (Plugin.max_batch_size p)) as [[http' storage'] | | |] eqn:E;
    cbn [snd]; try exact Hs.
  apply (drain_post_remove_without_2xx _ _ _ _ _ _ _ Hno) in E. now subst.
Qed.

(** The worker run over the worlds of successive turns. *)
Fixpoint run_worker (lib : library) (worlds : list Plugin.env) (p : Plugin.t)
  : Plugin.t :=
  match worlds with
  | [] => p
  | e :: rest =>
    run_worker lib rest (snd (Plugin.flush_events_thread_iteration lib e p))
  end.

(** Under a server that never answers 2xx the worker never changes the
    store, however long it runs. *)
Lemma run_worker_keeps_store_without_2xx (lib : library)
    (worlds : list Plugin.env) :
  Forall (fun e => ~ status_2xx (Plugin.net e)) worlds ->
  forall p, Plugin.storage_manager (run_worker lib worlds p)
            = Plugin.storage_manager p.
Proof.
  induction 1 as [| e rest He _ IH]; intros p; cbn [run_worker]; [reflexivity |].
  rewrite IH. now apply worker_keeps_store_without_2xx.
Qed.

(** [EnqueueEvent] keeps the table well formed when the id it draws has no
    ['|']: the primary key rejects a duplicate. *)
Lemma EnqueueEvent_table_ok (uuid : string) (now : Z) (json_text : string)
    (s : StorageManager.t) :
  table_ok (events s) -> no_bar uuid ->
  table_ok (events (snd (EnqueueEvent uuid now json_text s))).
Proof.
  intros [Hnodup Hbars] Hbar. unfold EnqueueEvent.
  destruct (negb (db_ s)); [now split |].
  destruct (has_id uuid (events s)) eqn:Hhas; [now split |].
  cbn [snd events with_events]. split.
  - rewrite List.map_app. cbn [map id].
    apply List.NoDup_app; [exact Hnodup | | ].
    + constructor; [intros [] | constructor].
    + intros i Hin [<- | []].
      apply in_map_iff in Hin as (r & Hr & Hin).
      unfold has_id in Hhas. rewrite <- Hr in Hhas.
      assert (Hex : existsb (fun r0 => String.eqb (id r0) (id r)) (events s) = true).
      { apply List.existsb_exists. exists r. split; [exact Hin |].
        apply String.eqb_refl. }
      congruence.
  - apply List.Forall_app. split; [exact Hbars |]. now constructor.
Qed.

End FlushFacts.

(** ** Opt-out *)

Section OptOutFacts.
Import Plugin.

(** The number of transfers the plugin has handed to curl. *)
Definition transfers (p : Plugin.t) : nat :=
  match http_client p with
  | Some client => List.length (HttpClient.sent client)
  | None => O
  end.

(** The handlers that test the flag leave an opted-out plugin as it is, and
    so does the flush worker. *)
Lemma opted_out_guarded_handlers (lib : library) (e : env) (args : FlValue)
    (p : Plugin.t) :
  opt_out p = true ->
  handle_capture lib e args p = Returns p
  /\ handle_identify lib e args p = Returns p
  /\ handle_screen lib e args p = Returns p
  /\ handle_group lib e args p = Returns p
  /\ handle_captureException lib e args p = p
  /\ handle_flush lib e p = Returns p
  /\ handle_reloadFeatureFlags lib e p = Returns p
  /\ snd (flush_events_thread_iteration lib e p) = p.
Proof.
  intros Hout.
  unfold handle_capture, handle_identify, handle_screen, handle_group,
    handle_captureException, handle_flush, handle_reloadFeatureFlags,
    flush_events_thread_iteration.
  rewrite Hout, !orb_true_r, !andb_false_r. cbn [negb].
  repeat split.
  - destruct args; try reflexivity.
    destruct (fl_value_lookup_string _ "groupType"); [| reflexivity].
    destruct (fl_value_lookup_string _ "groupKey"); [| reflexivity].
    now destruct (storage_manager p).
  - destruct args; try reflexivity. now destruct (storage_manager p).
  - now destruct (storage_manager p).
  - destruct (feature_flags_manager p); [| reflexivity].
    now destruct (storage_manager p).
  - destruct (should_flush p); [| reflexivity].
    destruct (storage_manager p); [| reflexivity].
    now destruct (http_client p).
Qed.

Definition alias_args (new_id : string) : FlValue :=
  FlMap [(FlString "alias", FlString new_id)].

Definition opted_out_plugin : Plugin.t := Examples.plugin_after_setup true.

(** [setup] with [optOut] and session replay with batches of one frame. *)
Definition opted_out_replay_plugin : Plugin.t :=
  handle_setup Examples.lib (Examples.world 200 0)
    (FlMap
       [(FlString "apiKey", FlString "phc_test");
        (FlString "host", FlString "http://localhost:8000");
        (FlString "optOut", FlBool true);
        (FlString "preloadFeatureFlags", FlBool false);
        (FlString "sessionReplay", FlBool true);
        (FlString "sessionReplayConfig",
         FlMap [(FlString "batchSize", FlInt 1)])])
    Plugin.init.

Definition snapshot_args : FlValue :=
  FlMap
    [(FlString "imageBytes", FlUint8List [x89; x50; x4e; x47]);
     (FlString "id", FlInt 1); (FlString "x", FlInt 0); (FlString "y", FlInt 0);
     (FlString "width", FlInt 800); (FlString "height", FlInt 600)].

Definition after (r : outcome Plugin.t) : Plugin.t :=
  match r with
  | Returns p => p
  | _ => Plugin.init
  end.

(** C1 (the code departs from the claim).  [alias] tests neither
    [initialized] nor [opt_out], unlike [capture], [identify], [screen] and
    [group]: on an opted-out plugin it queues a [$create_alias] event.  The
    replay pipeline never reads the flag: on an opted-out plugin a frame is
    buffered and the next turn of the replay worker posts it.  ([setup]
    itself queues its "App Started" event whatever [optOut] says, and
    [createNewSession] tests only [initialized].) *)
Theorem alias_and_replay_ignore_opt_out :
  opt_out opted_out_plugin = true
  /\ List.length (queued opted_out_plugin) = 1%nat
  /\ List.length
       (queued (handle_alias Examples.lib (Examples.world 200 1)
                  (alias_args "bob") opted_out_plugin))
     = 2%nat
  /\ List.length
       (queued (handle_createNewSession Examples.lib (Examples.world 200 1)
                  opted_out_plugin))
     = 2%nat
  /\ opt_out opted_out_replay_plugin = true
  /\ transfers opted_out_replay_plugin = 0%nat
  /\ transfers
       (replay_worker_iteration Examples.lib (Examples.world 200 2)
          (after (handle_sendFullSnapshot Examples.lib (Examples.world 200 1)
                    snapshot_args opted_out_replay_plugin)))
     = 1%nat.
Proof. repeat split; reflexivity. Qed.

End OptOutFacts.

(* ===================================================================== *)
(** * Further properties of the sources *)
(* ===================================================================== *)

(** ** The store: settings and the queue *)

Section SettingsFacts.
Import StorageManager.
Local Open Scope Z_scope.

Lemma get_set_setting (key value dflt : string) (s : t) :
  db_ s = true ->
  set_setting key value s = (true, with_settings s (<[key := value]> (settings s)))
  /\ get_setting key dflt (snd (set_setting key value s)) = value.
Proof.
  intros Hdb. unfold get_setting, set_setting. rewrite Hdb. cbn.
  now rewrite Hdb, lookup_insert_eq.
Qed.

Lemma get_set_setting_ne (key key' value dflt : string) (s : t) :
  key <> key' ->
  get_setting key' dflt (snd (set_setting key value s)) = get_setting key' dflt s.
Proof.
  intros Hne. unfold get_setting, set_setting.
  destruct (db_ s) eqn:Hdb; cbn; rewrite Hdb; cbn; [| reflexivity].
  now rewrite lookup_insert_ne.
Qed.



End SettingsFacts.

Section QueueFacts.
Import StorageManager.
Local Open Scope Z_scope.

(** X2.  After [Close] the database handle is null: every write reports failure
    and leaves the store as it is, and every read gives its default, the
    empty text, [{}] for the flags, [false] for the opt-out flag, no event
    and a queue size of 0.  For the plugin this means that on a closed store
    the distinct id and the session id are generated anew at every call
    and never stored, and that [capture] loses its event without a sign:
    nothing is queued and nothing is sent. *)
Theorem closed_store_fails_safe (s : StorageManager.t) (uuid text key value : string)
    (now n : Z) (ids : list string) (b : bool) (lib : library) (e : Plugin.env)
    (args : Plugin.FlValue) :
  EnqueueEvent uuid now text (Close s) = (false, Close s)
  /\ RemoveEvents ids (Close s) = (false, Close s)
  /\ GetQueuedEvents n (Close s) = []
  /\ GetQueueSize (Close s) = 0
  /\ SetDistinctId value (Close s) = (false, Close s)
  /\ SetSessionId value (Close s) = (false, Close s)
  /\ SetFeatureFlags value (Close s) = (false, Close s)
  /\ SetOptOut b (Close s) = (false, Close s)
  /\ GetDistinctId (Close s) = EmptyString
  /\ GetSessionId (Close s) = EmptyString
  /\ GetFeatureFlags (Close s) = "{}"
  /\ GetOptOut (Close s) = false
  /\ SetSuperProperty key value (Close s) = (false, Close s)
  /\ RemoveSuperProperty key (Close s) = (false, Close s)
  /\ GetAllSuperProperties (Close s) = []
  /\ Plugin.get_or_create_distinct_id e (Close s)
     = (Plugin.fresh_distinct_id e, Close s)
  /\ Plugin.get_or_create_session_id e (Close s)
     = (Plugin.fresh_session_id e, Close s)
  /\ (forall (p : Plugin.t) (event_name : string),
         Plugin.initialized p = true -> Plugin.opt_out p = false ->
         Plugin.storage_manager p = Some (Close s) ->
         Plugin.lookup_fl_string args "eventName" = Some event_name ->
         exists p' : Plugin.t,
           Plugin.handle_capture lib e args p = Returns p'
           /\ Plugin.storage_manager p' = Some (Close s)
           /\ Plugin.http_client p' = Plugin.http_client p).
Proof.
  do 17 (split; [reflexivity |]).
  intros p event_name Hinit Hopt Hs Hname.
  unfold Plugin.handle_capture. rewrite Hinit, Hopt, Hname, Hs. cbn [negb orb].
  change (Plugin.get_or_create_distinct_id e (Close s))
    with (Plugin.fresh_distinct_id e, Close s).
  cbv beta iota zeta.
  change (Plugin.get_or_create_session_id e (Close s))
    with (Plugin.fresh_session_id e, Close s).
  cbv beta iota zeta.
  set (event := Plugin.capture_event lib e args event_name _ _ _).
  change (Plugin.enqueue lib e event (Close s)) with (Close s).
  unfold Plugin.inline_flush.
  change (GetQueueSize (Close s)) with 0.
  destruct (Plugin.flush_at p <=? 0); [| eexists; repeat split].
  change (Plugin.drain_post_remove lib e (Plugin.http_client p) (Close s)
            (Plugin.max_batch_size p))
    with (Returns (Plugin.http_client p, Close s)
          : outcome (option HttpClient.t * StorageManager.t)).
  eexists. repeat split.
Qed.

Lemma int_of_int64_small (z : Z) :
  - 2 ^ 31 <= z < 2 ^ 31 -> int_of_int64 z = z.
Proof.
  intros H. unfold int_of_int64. rewrite Z.mod_small by lia. lia.
Qed.



End QueueFacts.

(** ** The store: super properties *)

Section SuperPropertyFacts.
Import StorageManager.

(** The order of [std::map<std::string, V>]: [std::string]'s [operator<]. *)
Definition key_lt {V : Type} (a b : string * V) : Prop :=
  String.compare (fst a) (fst b) = Lt.

Lemma string_compare_refl (a : string) : String.compare a a = Eq.
Proof.
  pose proof (String.compare_antisym a a) as H.
  destruct (String.compare a a); [reflexivity | discriminate | discriminate].
Qed.

Lemma ascii_compare_lt_trans (a b c : ascii) :
  Ascii.compare a b = Lt -> Ascii.compare b c = Lt -> Ascii.compare a c = Lt.
Proof. unfold Ascii.compare. rewrite !N.compare_lt_iff. lia. Qed.

Lemma string_compare_lt_trans (a : string) :
  forall b c : string,
    String.compare a b = Lt -> String.compare b c = Lt -> String.compare a c = Lt.
Proof.
  induction a as [| x a IH]; intros [| y b] [| z c]; cbn; try congruence.
  destruct (Ascii.compare x y) eqn:Hxy; try discriminate;
    destruct (Ascii.compare y z) eqn:Hyz; try discriminate; intros H1 H2.
  - apply Ascii.compare_eq_iff in Hxy, Hyz. subst.
    unfold Ascii.compare. rewrite N.compare_refl. eauto.
  - apply Ascii.compare_eq_iff in Hxy. subst. now rewrite Hyz.
  - apply Ascii.compare_eq_iff in Hyz. subst. now rewrite Hxy.
  - now rewrite (ascii_compare_lt_trans _ _ _ Hxy Hyz).
Qed.

Lemma map_get_map_set {V : Type} (k k' : string) (v : V) (m : list (string * V)) :
  map_get k' (map_set k v m) = if String.eqb k' k then Some v else map_get k' m.
Proof.
  induction m as [| [k0 v0] m IH]; cbn [map_set map_get]; [reflexivity |].
  destruct (String.compare k k0) eqn:Hc; cbn [map_get].
  - apply String.compare_eq_iff in Hc. subst k0.
    now destruct (String.eqb k' k).
  - reflexivity.
  - rewrite IH. destruct (String.eqb_spec k' k0) as [-> | _]; [| reflexivity].
    destruct (String.eqb_spec k0 k) as [-> | _]; [| reflexivity].
    now rewrite string_compare_refl in Hc.
Qed.

Lemma map_get_In {V : Type} (k : string) (v : V) (m : list (string * V)) :
  map_get k m = Some v -> In (k, v) m.
Proof.
  induction m as [| [k0 v0] m IH]; cbn [map_get]; [discriminate |].
  destruct (String.eqb_spec k k0) as [-> | _].
  - intros [= ->]. now left.
  - intros H. right. auto.
Qed.

Lemma map_set_keys {V : Type} (k : string) (v : V) (m : list (string * V))
    (x : string * V) :
  In x (map_set k v m) -> fst x = k \/ In x m.
Proof.
  induction m as [| [k0 v0] m IH]; cbn [map_set].
  - intros [<- | []]. now left.
  - destruct (String.compare k k0).
    + intros [<- | H]; [now left | right; now right].
    + intros [<- | H]; [now left | now right].
    + intros [<- | H]; [right; now left |].
      destruct (IH H); [now left | right; now right].
Qed.

Lemma map_set_sorted {V : Type} (k : string) (v : V) (m : list (string * V)) :
  StronglySorted key_lt m -> StronglySorted key_lt (map_set k v m).
Proof.
  induction 1 as [| [k0 v0] m Hm IH Hall]; cbn [map_set].
  - repeat constructor.
  - destruct (String.compare k k0) eqn:Hc.
    + apply String.compare_eq_iff in Hc. subst k0. now constructor.
    + constructor; [now constructor |]. constructor; [exact Hc |].
      eapply List.Forall_impl; [| exact Hall].
      intros [k1 v1] H1. unfold key_lt in *. cbn [fst] in *.
      eapply string_compare_lt_trans; eassumption.
    + constructor; [exact IH |]. apply List.Forall_forall. intros x Hx.
      destruct (map_set_keys _ _ _ _ Hx) as [Hk | Hin].
      * unfold key_lt. cbn [fst]. rewrite Hk, String.compare_antisym, Hc.
        reflexivity.
      * rewrite List.Forall_forall in Hall. auto.
Qed.

Lemma sorted_In_map_get {V : Type} (k : string) (v : V) (m : list (string * V)) :
  StronglySorted key_lt m -> In (k, v) m -> map_get k m = Some v.
Proof.
  induction 1 as [| [k0 v0] m Hm IH Hall]; [intros [] |].
  intros [[= -> ->] | Hin]; cbn [map_get].
  - now rewrite String.eqb_refl.
  - destruct (String.eqb_spec k k0) as [-> | _]; [| auto].
    rewrite List.Forall_forall in Hall. specialize (Hall _ Hin).
    unfold key_lt in Hall. cbn [fst] in Hall.
    now rewrite string_compare_refl in Hall.
Qed.

Lemma fold_map_set_lookup (l : list (string * string)) (k : string) :
  map_get k (fold_right (fun kv m => map_set (fst kv) (snd kv) m) [] l)
  = (list_to_map l : gmap string string) !! k.
Proof.
  induction l as [| [k0 v0] l IH]; cbn [fold_right fst snd].
  - symmetry. apply lookup_empty.
  - rewrite map_get_map_set, IH.
    change (list_to_map ((k0, v0) :: l) : gmap string string)
      with (<[k0 := v0]> (list_to_map l : gmap string string)).
    destruct (String.eqb_spec k k0) as [-> | Hne].
    + now rewrite lookup_insert_eq.
    + now rewrite lookup_insert_ne by congruence.
Qed.

Lemma fold_map_set_sorted (l : list (string * string)) :
  StronglySorted key_lt
    (fold_right (fun kv m => map_set (fst kv) (snd kv) m) [] l).
Proof.
  induction l as [| kv l IH]; cbn [fold_right]; [constructor |].
  now apply map_set_sorted.
Qed.

(** What [GetAllSuperProperties] returns, on an open database: the rows of
    the table, each once, in the order of their keys. *)
Lemma GetAllSuperProperties_spec (s : StorageManager.t) :
  db_ s = true ->
  StronglySorted key_lt (GetAllSuperProperties s)
  /\ (forall k, map_get k (GetAllSuperProperties s) = super_properties s !! k)
  /\ (forall k v, In (k, v) (GetAllSuperProperties s)
                  <-> super_properties s !! k = Some v).
Proof.
  intros Hdb. unfold GetAllSuperProperties. rewrite Hdb. cbn [negb].
  assert (Hlookup : forall k,
             map_get k (fold_right (fun kv m => map_set (fst kv) (snd kv) m) []
                          (map_to_list (super_properties s)))
             = super_properties s !! k).
  { intros k. now rewrite fold_map_set_lookup, list_to_map_to_list. }
  split; [apply fold_map_set_sorted |]. split; [exact Hlookup |].
  intros k v. rewrite <- Hlookup. split.
  - apply sorted_In_map_get, fold_map_set_sorted.
  - apply map_get_In.
Qed.



End SuperPropertyFacts.

(** ** The HTTP client *)

Section HttpFacts.
Import HttpClient.
Local Open Scope Z_scope.

Lemma back_app_char (u : string) (ch : ascii) :
  back (u +:+ String ch EmptyString) = Some ch
  /\ pop_back (u +:+ String ch EmptyString) = u.
Proof.
  induction u as [| c u [IHb IHp]].
  - rewrite string_app_nil_l. split; reflexivity.
  - rewrite string_app_cons. cbn [back pop_back].
    destruct (u +:+ String ch EmptyString) eqn:E.
    + destruct u; rewrite ?string_app_nil_l, ?string_app_cons in E; discriminate.
    + split; [exact IHb | now rewrite IHp].
Qed.

(** X5.  [SetBaseUrl] removes one trailing slash, and only one: a host given with
    or without its final ['/'] gives the same base URL, to which the
    endpoints ["/capture/"] and ["/decide/"] are appended.  A URL that does
    not end in ['/'] is kept as it is; nothing else of the client changes. *)
Theorem SetBaseUrl_strips_one_slash (u : string) (c : HttpClient.t) :
  base_url_ (SetBaseUrl (u +:+ "/") c) = u
  /\ (back u <> Some "/"%char -> base_url_ (SetBaseUrl u c) = u)
  /\ base_url_ (SetBaseUrl (u +:+ "//") c) = u +:+ "/"
  /\ (forall url, api_key_ (SetBaseUrl url c) = api_key_ c
                  /\ curl_handle_ (SetBaseUrl url c) = curl_handle_ c
                  /\ sent (SetBaseUrl url c) = sent c).
Proof.
  split; [| split; [| split]].
  - unfold SetBaseUrl. cbn [base_url_].
    destruct (back_app_char u "/") as [-> ->]. reflexivity.
  - intros Hno. unfold SetBaseUrl. cbn [base_url_].
    destruct (back u) as [ch |]; [| reflexivity].
    destruct (Ascii.eqb_spec ch "/"%char) as [-> | _]; [now elim Hno | reflexivity].
  - unfold SetBaseUrl. cbn [base_url_].
    replace (u +:+ "//") with ((u +:+ "/") +:+ "/")
      by (now rewrite string_app_assoc).
    destruct (back_app_char (u +:+ "/") "/") as [-> ->]. reflexivity.
  - intros url. repeat split.
Qed.

(** X6.  What one call of [PerformPost] does.  Without a curl handle or without a
    base URL nothing is transferred and the response is the failure
    response, with status 0.  Otherwise exactly one transfer is made, to the
    base URL followed by the endpoint; a transfer that curl could not
    complete gives the failure response, and a completed one gives the
    status and body of the server, with [success] exactly for a status in
    [200, 300). *)
Theorem PerformPost_contract (net : curl_result) (endpoint payload : string)
    (c : HttpClient.t) :
  (curl_handle_ c = false \/ base_url_ c = EmptyString ->
   PerformPost net endpoint payload c = (no_response, c))
  /\ (curl_handle_ c = true -> base_url_ c <> EmptyString ->
      sent (snd (PerformPost net endpoint payload c))
      = sent c ++ [(base_url_ c +:+ endpoint, payload)]
      /\ base_url_ (snd (PerformPost net endpoint payload c)) = base_url_ c
      /\ api_key_ (snd (PerformPost net endpoint payload c)) = api_key_ c
      /\ (net = CURLE_error ->
          fst (PerformPost net endpoint payload c) = no_response)
      /\ (forall code text, net = CURLE_OK code text ->
            status_code (fst (PerformPost net endpoint payload c)) = code
            /\ body (fst (PerformPost net endpoint payload c)) = text))
  /\ (success (fst (PerformPost net endpoint payload c)) = true
      <-> curl_handle_ c = true /\ base_url_ c <> EmptyString
          /\ exists code text, net = CURLE_OK code text /\ 200 <= code < 300).
Proof.
  unfold PerformPost. split; [| split].
  - intros [-> | ->]; [reflexivity |]. now rewrite orb_true_r.
  - intros -> Hurl.
    destruct (String.eqb_spec (base_url_ c) EmptyString); [contradiction |].
    cbn [negb orb].
    destruct net as [code text |]; cbn [fst snd sent base_url_ api_key_];
      (split; [reflexivity | split; [reflexivity | split; [reflexivity | split]]]).
    + discriminate.
    + intros code' text' [= <- <-]. split; reflexivity.
    + reflexivity.
    + discriminate.
  - destruct (curl_handle_ c); cbn [negb orb].
    2:{ split; [discriminate | intros ([=] & _)]. }
    destruct (String.eqb_spec (base_url_ c) EmptyString) as [Hu | Hu].
    { split; [discriminate | intros (_ & H & _); contradiction]. }
    destruct net as [code text |]; cbn [fst success no_response].
    + rewrite andb_true_iff, Z.leb_le, Z.ltb_lt. split.
      * intros H. split; [reflexivity |]. split; [exact Hu |]. eauto.
      * intros (_ & _ & code' & text' & [= <- <-] & H). exact H.
    + split; [discriminate | intros (_ & _ & code' & text' & [=] & _)].
Qed.

End HttpFacts.

(** ** The capture payload *)

Section PayloadFacts.
Import HttpClient.
Variable lib : library.

(** The stored text is rebuilt into the event [e]: it parses to an object
    with a string [event], a string [distinct_id] and a [timestamp] that is
    a numeral in a string, or a number. *)
Definition rebuilt (text : string) (e : posthog.PostHogEvent) : Prop :=
  rebuild_event lib text = Some (Returns e).

(** The hand-written envelope around texts joined by commas. *)
Definition envelope (key : string) (texts : list string) : string :=
  "{" +:+ String dquote "api_key" +:+ String dquote ":"
  +:+ String dquote key +:+ String dquote ","
  +:+ String dquote "batch" +:+ String dquote ":["
  +:+ String.concat "," texts +:+ "]}".

Lemma join_events_concat (events : list string) :
  forall (i : nat) (oss : string),
    join_events i events oss
    = oss +:+ match events with
              | [] => EmptyString
              | _ :: _ =>
                (if (0 <? i)%nat then "," else EmptyString)
                +:+ String.concat "," events
              end.
Proof.
  induction events as [| e rest IH]; intros i oss; cbn [join_events].
  - now rewrite string_app_nil_r.
  - rewrite IH. change (0 <? S i)%nat with true.
    destruct rest as [| e' rest]; cbn [String.concat].
    + rewrite string_app_nil_r.
      destruct (0 <? i)%nat; [now rewrite string_app_assoc |].
      now rewrite string_app_nil_l.
    + destruct (0 <? i)%nat;
        now rewrite ?string_app_nil_l, !string_app_assoc.
Qed.

Lemma fallback_payload_envelope (c : HttpClient.t) (events : list string) :
  fallback_payload c events = envelope (api_key_ c) events.
Proof.
  unfold fallback_payload, envelope. rewrite join_events_concat.
  destruct events as [| e rest].
  - rewrite string_app_nil_r. cbn [String.concat].
    now rewrite !string_app_assoc.
  - change (0 <? 0)%nat with false. rewrite string_app_nil_l.
    now rewrite !string_app_assoc.
Qed.

Lemma BuildCapturePayload_loop_rebuilt (c : HttpClient.t) (all : list string) :
  forall (todo : list string) (evs acc : list posthog.PostHogEvent),
    Forall2 rebuilt todo evs ->
    BuildCapturePayload_loop lib c all todo acc
    = Returns (json_dump lib
                 (posthog.PostHogBatch_to_json
                    {| posthog.batch_api_key := api_key_ c;
                       posthog.batch := acc ++ evs |})).
Proof.
  intros todo evs acc H. revert acc.
  induction H as [| text e todo evs He _ IH]; intros acc;
    cbn [BuildCapturePayload_loop].
  - now rewrite List.app_nil_r.
  - unfold rebuilt in He. rewrite He, IH, <- List.app_assoc. reflexivity.
Qed.

Lemma BuildCapturePayload_loop_stops (c : HttpClient.t) (all : list string)
    (text : string) (post : list string) :
  forall (pre : list string) (evs acc : list posthog.PostHogEvent),
    Forall2 rebuilt pre evs ->
    BuildCapturePayload_loop lib c all (pre ++ text :: post) acc
    = match rebuild_event lib text with
      | None => Returns (fallback_payload c all)
      | Some (Returns e) =>
        BuildCapturePayload_loop lib c all post ((acc ++ evs) ++ [e])
      | Some _ => Throws
      end.
Proof.
  intros pre evs acc H. revert acc.
  induction H as [| text' e' pre evs He _ IH]; intros acc;
    cbn [BuildCapturePayload_loop List.app].
  - now rewrite List.app_nil_r.
  - unfold rebuilt in He. rewrite He, IH, <- List.app_assoc. reflexivity.
Qed.

(** X7.  [BuildCapturePayload] on the stored texts of a batch.  When every text
    is rebuilt into an event, the payload is the serialised batch of these
    events, in order, under the client's API key.  When a text is not valid
    JSON, or lacks a string [event], a string [distinct_id] or a usable
    [timestamp], the payload of the whole batch, the texts before it
    included, is the hand-written envelope around all the stored texts as
    they are, joined by commas.  When the [timestamp] of a text is a string
    that [std::stoll] rejects, the exception leaves the function. *)
Theorem BuildCapturePayload_spec (c : HttpClient.t) (events : list string) :
  (forall evs : list posthog.PostHogEvent,
      Forall2 rebuilt events evs ->
      BuildCapturePayload lib c events
      = Returns (json_dump lib
                   (posthog.PostHogBatch_to_json
                      {| posthog.batch_api_key := api_key_ c;
                         posthog.batch := evs |})))
  /\ (forall (pre post : list string) (text : string)
             (evs : list posthog.PostHogEvent),
         events = pre ++ text :: post ->
         Forall2 rebuilt pre evs ->
         (rebuild_event lib text = None ->
          BuildCapturePayload lib c events
          = Returns (envelope (api_key_ c) events))
         /\ (rebuild_event lib text = Some Throws ->
             BuildCapturePayload lib c events = Throws)).
Proof.
  unfold BuildCapturePayload. split.
  - intros evs H. now rewrite (BuildCapturePayload_loop_rebuilt c events events evs []).
  - intros pre post text evs -> H.
    rewrite (BuildCapturePayload_loop_stops c _ text post pre evs [] H).
    split; intros ->; [| reflexivity].
    now rewrite fallback_payload_envelope.
Qed.

End PayloadFacts.

(** The texts ["a"] and ["b"] are not rebuilt by a library that parses
    nothing: the payload is the envelope around them. *)
Example BuildCapturePayload_fallback :
  HttpClient.BuildCapturePayload Examples.lib posting_client ["a"; "b"]
  = Returns ("{" +:+ String dquote "api_key" +:+ String dquote ":"
             +:+ String dquote "phc_test" +:+ String dquote ","
             +:+ String dquote "batch" +:+ String dquote ":[a,b]}").
Proof. reflexivity. Qed.

(** ** Reading and persisting feature flags *)

Section FlagReadFacts.
Import FeatureFlagsManager.

Lemma GetFeatureFlag_parsed (response : string)
    (storage : StorageManager.t) (m0 : FeatureFlagsManager.t) (key : string) :
  GetFeatureFlag key (fst (ParseFlagsResponse response storage m0))
  = default EmptyString
      (flags_cache_ (fst (ParseFlagsResponse response storage m0)) !! key).
Proof.
  pose proof (ParseFlagsResponse_unquoted response storage m0) as Hu.
  unfold GetFeatureFlag.
  destruct (flags_cache_ (fst (ParseFlagsResponse response storage m0)) !! key)
    as [value |] eqn:Hv; [| reflexivity].
  apply Hu in Hv. unfold unquoted in Hv. cbn [default].
  destruct (Ascii.eqb_spec (char_at value 0) dquote); [contradiction |].
  now rewrite andb_false_r.
Qed.

(** X8.  On the cache left by parsing any response, [GetFeatureFlag] returns
    the stored text of the flag as it is, and the empty string for a flag
    that is not in the cache: its branch that removes surrounding quotes is
    never taken, since the parser stores no value that begins with a
    quote.  [GetFeatureFlagPayload] is always the empty string. *)
Theorem GetFeatureFlag_after_parse (response : string)
    (storage : StorageManager.t) (m0 : FeatureFlagsManager.t) (key : string) :
  GetFeatureFlag key (fst (ParseFlagsResponse response storage m0))
  = default EmptyString
      (flags_cache_ (fst (ParseFlagsResponse response storage m0)) !! key)
  /\ GetFeatureFlagPayload key (fst (ParseFlagsResponse response storage m0))
     = EmptyString.
Proof.
  split; [| reflexivity].
  pose proof (ParseFlagsResponse_unquoted response storage m0) as Hu.
  unfold GetFeatureFlag.
  destruct (flags_cache_ (fst (ParseFlagsResponse response storage m0)) !! key)
    as [value |] eqn:Hv; [| reflexivity].
  apply Hu in Hv. unfold unquoted in Hv. cbn [default].
  destruct (Ascii.eqb_spec (char_at value 0) dquote); [contradiction |].
  now rewrite andb_false_r.
Qed.

(** The flags object was found in the response: the condition under which
    [ParseFlagsResponse] runs its loop and persists the response. *)
Definition has_flags_object (response : string) : Prop :=
  (String.eqb (ExtractJsonValue response "featureFlags") EmptyString
   || negb (Ascii.eqb (char_at (ExtractJsonValue response "featureFlags") 0)
              "{"%char)) = false.



Example has_flags_object_variant :
  has_flags_object (string_variant_response "k" "control").
Proof. reflexivity. Qed.

End FlagReadFacts.

(** ** Scanning behind a prefix *)

Section ShiftFacts.

Lemma find_char_shift (c : ascii) (pre t : string) (k : nat) :
  find_char c (pre +:+ t) (String.length pre + k)
  = Nat.add (String.length pre) <$> find_char c t k.
Proof.
  induction pre as [| c' pre IH].
  - rewrite string_app_nil_l. cbn [String.length Nat.add].
    now destruct (find_char c t k).
  - rewrite string_app_cons. cbn [String.length Nat.add find_char].
    rewrite IH. now destruct (find_char c t k).
Qed.

Lemma get_shift (pre t : string) (k : nat) :
  String.get (String.length pre + k) (pre +:+ t) = String.get k t.
Proof.
  induction pre as [| c' pre IH]; [reflexivity |].
  rewrite string_app_cons. cbn [String.length Nat.add String.get]. exact IH.
Qed.

Lemma char_at_shift (pre t : string) (k : nat) :
  char_at (pre +:+ t) (String.length pre + k) = char_at t k.
Proof. unfold char_at. now rewrite get_shift. Qed.

Lemma substr_shift (pre t : string) (k n : nat) :
  substr (pre +:+ t) (String.length pre + k) n = substr t k n.
Proof.
  unfold substr. induction pre as [| c' pre IH]; [reflexivity |].
  rewrite string_app_cons. cbn [String.length Nat.add String.substring]. exact IH.
Qed.

Lemma scan_while_shift (keep : ascii -> bool) (pre t : string) :
  forall fuel k : nat,
    scan_while keep fuel (pre +:+ t) (String.length pre + k)
    = String.length pre + scan_while keep fuel t k.
Proof.
  induction fuel as [| fuel IH]; intros k; cbn [scan_while]; [reflexivity |].
  rewrite get_shift. destruct (String.get k t) as [c |]; [| reflexivity].
  destruct (keep c); [| reflexivity].
  now rewrite <- Nat.add_succ_r, IH.
Qed.

Lemma scan_while_enough (keep : ascii -> bool) (s : string) :
  forall fuel1 fuel2 pos : nat,
    String.length s <= pos + fuel1 ->
    String.length s <= pos + fuel2 ->
    scan_while keep fuel1 s pos = scan_while keep fuel2 s pos.
Proof.
  induction fuel1 as [| fuel1 IH]; intros [| fuel2] pos H1 H2;
    cbn [scan_while]; try reflexivity;
    try (destruct (String.get pos s) as [c |] eqn:Hget; [| reflexivity];
         apply get_Some_lt in Hget; lia).
  destruct (String.get pos s) as [c |]; [| reflexivity].
  destruct (keep c); [| reflexivity]. apply IH; lia.
Qed.

Lemma skip_blanks_shift (pre t : string) (k : nat) :
  skip_blanks (pre +:+ t) (String.length pre + k)
  = String.length pre + skip_blanks t k.
Proof.
  unfold skip_blanks. rewrite scan_while_shift. f_equal.
  apply scan_while_enough; rewrite ?string_length_app; lia.
Qed.

(** A scan stops at once on a character that is not kept. *)
Lemma scan_while_stop (keep : ascii -> bool) (s : string) (fuel pos : nat) :
  keep (char_at s pos) = false ->
  pos < String.length s ->
  scan_while keep fuel s pos = pos.
Proof.
  intros Hkeep Hlt. destruct fuel as [| fuel]; [reflexivity |].
  cbn [scan_while]. destruct (String.get pos s) as [c |] eqn:Hget;
    [| reflexivity].
  rewrite (char_at_get _ _ _ Hget) in Hkeep. now rewrite Hkeep.
Qed.

Lemma parse_value_shift (pre t : string) (k : nat) :
  FeatureFlagsManager.parse_value (pre +:+ t) (String.length pre + k)
  = (fun vn => (fst vn, String.length pre + snd vn))
      <$> FeatureFlagsManager.parse_value t k.
Proof.
  unfold FeatureFlagsManager.parse_value. rewrite char_at_shift.
  destruct (Ascii.eqb (char_at t k) dquote).
  - rewrite <- Nat.add_succ_r, find_char_shift.
    destruct (find_char dquote t (S k)) as [value_end |]; [| reflexivity].
    cbn [fmap option_fmap option_map fst snd]. rewrite substr_shift.
    replace (String.length pre + value_end - (String.length pre + S k))
      with (value_end - S k) by lia.
    now rewrite Nat.add_succ_r.
  - cbn [fmap option_fmap option_map fst snd].
    rewrite (scan_while_enough _ (pre +:+ t) _ (String.length pre + String.length t))
      by (rewrite ?string_length_app; lia).
    rewrite scan_while_shift.
    rewrite (scan_while_enough _ t (String.length pre + String.length t)
               (String.length t)); [| lia | lia].
    rewrite substr_shift.
    match goal with
    | |- context [String.length pre + ?x - (String.length pre + k)] =>
      replace (String.length pre + x - (String.length pre + k)) with (x - k)
        by lia
    end.
    reflexivity.
Qed.

Lemma ParseFlags_loop_shift (pre t : string) :
  forall (fuel k : nat) (cache : gmap string string),
    FeatureFlagsManager.ParseFlags_loop fuel (pre +:+ t) (String.length pre + k) cache
    = FeatureFlagsManager.ParseFlags_loop fuel t k cache.
Proof.
  induction fuel as [| fuel IH]; intros k cache; [reflexivity |].
  cbn [FeatureFlagsManager.ParseFlags_loop].
  replace (String.length pre + k <? String.length (pre +:+ t))%nat
    with (k <? String.length t)%nat
    by (rewrite string_length_app;
        destruct (Nat.ltb_spec k (String.length t));
        destruct (Nat.ltb_spec (String.length pre + k)
                    (String.length pre + String.length t)); (reflexivity || lia)).
  destruct (negb (k <? String.length t)%nat); [reflexivity |].
  rewrite find_char_shift.
  destruct (find_char dquote t k) as [key_start |]; [| reflexivity].
  cbn [fmap option_fmap option_map].
  rewrite <- Nat.add_succ_r, find_char_shift.
  destruct (find_char dquote t (S key_start)) as [key_end |]; [| reflexivity].
  cbn [fmap option_fmap option_map].
  rewrite find_char_shift.
  destruct (find_char ":"%char t key_end) as [colon |]; [| reflexivity].
  cbn [fmap option_fmap option_map].
  rewrite <- Nat.add_succ_r, skip_blanks_shift.
  replace (String.length pre + skip_blanks t (S colon)
           <? String.length (pre +:+ t))%nat
    with (skip_blanks t (S colon) <? String.length t)%nat
    by (rewrite string_length_app;
        destruct (Nat.ltb_spec (skip_blanks t (S colon)) (String.length t));
        destruct (Nat.ltb_spec (String.length pre + skip_blanks t (S colon))
                    (String.length pre + String.length t)); (reflexivity || lia)).
  destruct (negb (skip_blanks t (S colon) <? String.length t)%nat);
    [reflexivity |].
  rewrite parse_value_shift.
  destruct (FeatureFlagsManager.parse_value t (skip_blanks t (S colon)))
    as [[value next] |]; [| reflexivity].
  cbn [fmap option_fmap option_map fst snd].
  rewrite substr_shift.
  replace (String.length pre + key_end - (String.length pre + S key_start))
    with (key_end - S key_start) by lia.
  rewrite find_char_shift.
  destruct (find_char ","%char t next) as [comma |]; [| reflexivity].
  cbn [fmap option_fmap option_map].
  now rewrite <- Nat.add_succ_r, IH.
Qed.

End ShiftFacts.

(** ** Parsing a flat flags object *)

Section ParseRoundTrip.
Import FeatureFlagsManager.

(** The text of a flag's value in a decide response: a string variant,
    written between double quotes, or a bare token such as [true], [false]
    or a number. *)
Inductive flag_text : Type :=
| Quoted (label : string)
| Raw (token : string).

(** The value the cache is expected to hold for it. *)
Definition flag_value (v : flag_text) : string :=
  match v with
  | Quoted label => label
  | Raw token => token
  end.

Definition render_value (v : flag_text) : string :=
  match v with
  | Quoted label => String dquote (label +:+ String dquote EmptyString)
  | Raw token => token
  end.

(** One member ["key":value] followed by [tail]. *)
Definition render_entry (key : string) (v : flag_text) (tail : string) : string :=
  String dquote (key +:+ String dquote (String ":" (render_value v +:+ tail))).

(** The members of an object, separated by commas, followed by [closing]. *)
Fixpoint render_entries (l : list (string * flag_text)) (closing : string)
  : string :=
  match l with
  | [] => closing
  | (key, v) :: rest =>
    render_entry key v
      match rest with
      | [] => closing
      | _ :: _ => String "," (render_entries rest closing)
      end
  end.

(** A compact decide response whose first member is the flags object:
    [{"featureFlags":{...}<rest>]. *)
Definition flags_response (l : list (string * flag_text)) (rest : string)
  : string :=
  "{" +:+ String dquote ("featureFlags" +:+ String dquote
     (String ":" (String "{" (render_entries l (String "}" rest))))).

Fixpoint all_chars (p : ascii -> bool) (s : string) : bool :=
  match s with
  | EmptyString => true
  | String c s' => p c && all_chars p s'
  end.

(** Characters other than the double quote and the braces. *)
Definition plain (c : ascii) : bool :=
  negb (Ascii.eqb c dquote) && negb (Ascii.eqb c "{"%char)
  && negb (Ascii.eqb c "}"%char).

(** Keys and labels are plain texts; a bare token is a plain text without
    comma that neither begins nor ends with a blank. *)
Definition value_ok (v : flag_text) : bool :=
  match v with
  | Quoted label => all_chars plain label
  | Raw token =>
    all_chars (fun c => plain c && negb (Ascii.eqb c ","%char)) token
    && negb (is_blank (char_at token 0))
    && String.eqb (trim_blanks token) token
  end.

Definition entry_ok (kv : string * flag_text) : bool :=
  all_chars plain (fst kv) && value_ok (snd kv).

(** The cache after the members have been stored in order. *)
Definition stored (l : list (string * flag_text)) (cache : gmap string string)
  : gmap string string :=
  fold_left (fun m kv => <[fst kv := flag_value (snd kv)]> m) l cache.

Lemma all_chars_impl (p q : ascii -> bool) (s : string) :
  (forall c, p c = true -> q c = true) ->
  all_chars p s = true -> all_chars q s = true.
Proof.
  intros Hpq. induction s as [| c s IH]; cbn [all_chars]; [reflexivity |].
  rewrite !andb_true_iff. intros [Hc Hs]. auto.
Qed.

Lemma all_chars_find_none (p : ascii -> bool) (c : ascii) (s : string) :
  p c = false -> all_chars p s = true -> find_char c s 0 = None.
Proof.
  intros Hc. induction s as [| c' s IH]; cbn [all_chars find_char];
    [reflexivity |].
  rewrite andb_true_iff. intros [Hc' Hs].
  destruct (Ascii.eqb_spec c' c) as [-> | _]; [congruence |].
  now rewrite IH.
Qed.

Lemma char_at_app_0 (text tail : string) (c : ascii) :
  char_at (text +:+ String c tail) 0
  = match text with EmptyString => c | String _ _ => char_at text 0 end.
Proof. now destruct text. Qed.

Lemma all_chars_char_at_0 (p : ascii -> bool) (text : string) :
  all_chars p text = true -> text <> EmptyString -> p (char_at text 0) = true.
Proof.
  destruct text as [| c text]; [contradiction |].
  cbn [all_chars]. rewrite andb_true_iff. now intros [H _] _.
Qed.

(** A scan over kept characters stops at the first one that is not kept. *)
Lemma scan_while_app (keep : ascii -> bool) (c : ascii) (tail : string) :
  keep c = false ->
  forall (text : string) (fuel : nat),
    all_chars keep text = true ->
    String.length text < fuel ->
    scan_while keep fuel (text +:+ String c tail) 0 = String.length text.
Proof.
  intros Hc text. induction text as [| a text IH]; intros fuel Ht Hfuel.
  - rewrite string_app_nil_l. destruct fuel as [| fuel]; [reflexivity |].
    cbn [scan_while String.get String.length]. now rewrite Hc.
  - cbn [all_chars] in Ht. apply andb_true_iff in Ht as [Ha Ht].
    destruct fuel as [| fuel]; [cbn [String.length] in Hfuel; lia |].
    rewrite string_app_cons. cbn [scan_while String.get String.length].
    rewrite Ha.
    change (String a (text +:+ String c tail))
      with (String a EmptyString +:+ (text +:+ String c tail)).
    change 1 with (String.length (String a EmptyString) + 0).
    rewrite scan_while_shift, IH; [reflexivity | exact Ht |].
    cbn [String.length] in Hfuel. lia.
Qed.

(** Reading a rendered value that is followed by [','] or ['}']. *)
Lemma parse_value_render (v : flag_text) (c : ascii) (tail : string) :
  value_ok v = true ->
  c = ","%char \/ c = "}"%char ->
  parse_value (render_value v +:+ String c tail) 0
  = Some (flag_value v, String.length (render_value v)).
Proof.
  intros Hok Hc. unfold parse_value. destruct v as [label | token];
    cbn [render_value flag_value value_ok] in *.
  - rewrite string_app_cons, string_app_assoc, string_app_cons, string_app_nil_l.
    unfold char_at at 1. cbn [String.get default]. rewrite Ascii.eqb_refl.
    cbn [find_char].
    rewrite (find_char_app dquote label (String c tail))
      by (apply (all_chars_find_none plain); [reflexivity | exact Hok]).
    cbn [fmap option_fmap option_map]. unfold substr.
    cbn [String.substring Nat.sub]. rewrite Nat.sub_0_r.
    pose proof (substr_app_prefix label (String dquote (String c tail))) as Hsub.
    unfold substr in Hsub. rewrite Hsub.
    cbn [String.length]. rewrite string_length_app. cbn [String.length].
    do 2 f_equal. lia.
  - apply andb_true_iff in Hok as [Hok Htrim].
    apply andb_true_iff in Hok as [Hall Hblank].
    apply String.eqb_eq in Htrim.
    assert (Hq : Ascii.eqb (char_at (token +:+ String c tail) 0) dquote = false).
    { rewrite char_at_app_0. destruct token as [| a token'] eqn:Ht.
      - destruct Hc as [-> | ->]; reflexivity.
      - rewrite <- Ht in *.
        pose proof (all_chars_char_at_0 _ token Hall) as Hp.
        cbn beta in Hp. specialize (Hp ltac:(now rewrite Ht)).
        apply andb_true_iff in Hp as [Hp _].
        unfold plain in Hp. rewrite !andb_true_iff, !negb_true_iff in Hp.
        tauto. }
    rewrite Hq.
    rewrite (scan_while_app _ c tail); cycle 1.
    + destruct Hc as [-> | ->]; reflexivity.
    + apply (all_chars_impl (fun c0 => plain c0 && negb (Ascii.eqb c0 ","%char)));
        [| exact Hall].
      intros c0. unfold plain.
      rewrite !andb_true_iff, !negb_true_iff. tauto.
    + rewrite string_length_app. cbn [String.length]. lia.
    + rewrite Nat.sub_0_r, substr_app_prefix, Htrim. reflexivity.
Qed.

(** The text up to the value of a member: ["key":]. *)
Definition entry_head (key : string) : string :=
  String dquote (key +:+ String dquote (String ":" EmptyString)).

Lemma render_entry_head (key : string) (v : flag_text) (tail : string) :
  render_entry key v tail = entry_head key +:+ (render_value v +:+ tail).
Proof.
  unfold render_entry, entry_head.
  now rewrite string_app_cons, string_app_assoc, !string_app_cons,
    string_app_nil_l.
Qed.

Lemma entry_head_length (key : string) :
  String.length (entry_head key) = S (S (S (String.length key))).
Proof.
  unfold entry_head. cbn [String.length]. rewrite string_length_app.
  cbn [String.length]. lia.
Qed.

Lemma rendered_value_first (v : flag_text) (c : ascii) (tail : string) :
  value_ok v = true ->
  c = ","%char \/ c = "}"%char ->
  is_blank (char_at (render_value v +:+ String c tail) 0) = false.
Proof.
  intros Hok Hc. destruct v as [label | token]; cbn [render_value value_ok] in *.
  - reflexivity.
  - rewrite char_at_app_0. destruct token as [| a token'] eqn:Ht.
    + destruct Hc as [-> | ->]; reflexivity.
    + rewrite <- Ht in *.
      apply andb_true_iff in Hok as [Hok _].
      apply andb_true_iff in Hok as [_ Hblank].
      now apply negb_true_iff in Hblank.
Qed.

(** One turn of the loop of [ParseFlagsResponse] at the start of a member
    that is followed by [','] or ['}']: the member is stored, and the loop
    goes on behind the next comma, if there is one. *)
Lemma ParseFlags_loop_entry (fuel : nat) (key : string) (v : flag_text)
    (c : ascii) (tail : string) (cache : gmap string string) :
  all_chars plain key = true ->
  value_ok v = true ->
  c = ","%char \/ c = "}"%char ->
  ParseFlags_loop (S fuel) (render_entry key v (String c tail)) 0 cache
  = match find_char ","%char (String c tail) 0 with
    | None => <[key := flag_value v]> cache
    | Some m =>
      ParseFlags_loop fuel (render_entry key v (String c tail))
        (S (String.length (entry_head key +:+ render_value v) + m))
        (<[key := flag_value v]> cache)
    end.
Proof.
  intros Hkey Hok Hc.
  set (s := render_entry key v (String c tail)).
  set (K := String.length key).
  set (W := render_value v +:+ String c tail).
  assert (Hs : s = entry_head key +:+ W) by apply render_entry_head.
  assert (Hlen : String.length (entry_head key) = S (S (S K)))
    by apply entry_head_length.
  assert (Hq : find_char dquote key 0 = None)
    by (apply (all_chars_find_none plain); [reflexivity | exact Hkey]).
  assert (E0 : (0 <? String.length s)%nat = true) by reflexivity.
  assert (E1 : find_char dquote s 0 = Some 0).
  { unfold s, render_entry. cbn [find_char]. now rewrite Ascii.eqb_refl. }
  assert (E2 : find_char dquote s 1 = Some (S K)).
  { unfold s, render_entry. cbn [find_char].
    now rewrite (find_char_app dquote key _ Hq). }
  assert (E3 : substr s 1 (S K - 1) = key).
  { unfold s, render_entry, substr. cbn [String.substring Nat.sub].
    rewrite Nat.sub_0_r.
    pose proof (substr_app_prefix key
                  (String dquote (String ":" (render_value v +:+ String c tail))))
      as Hsub.
    unfold substr in Hsub. exact Hsub. }
  assert (E4 : find_char ":"%char s (S K) = Some (S (S K))).
  { unfold s, render_entry. cbn [find_char].
    replace K with (String.length key + 0) at 1 by (unfold K; lia).
    rewrite find_char_shift. cbn [find_char].
    replace (Ascii.eqb dquote ":"%char) with false by reflexivity.
    rewrite Ascii.eqb_refl. cbn [fmap option_fmap option_map].
    do 2 f_equal. unfold K. lia. }
  assert (Hblank : is_blank (char_at W 0) = false)
    by (apply rendered_value_first; assumption).
  assert (HW : 0 < String.length W)
    by (unfold W; rewrite string_length_app; cbn [String.length]; lia).
  assert (E5 : skip_blanks s (S (S (S K))) = S (S (S K))).
  { rewrite Hs, <- Hlen.
    rewrite <- (Nat.add_0_r (String.length (entry_head key))) at 1.
    rewrite skip_blanks_shift. unfold skip_blanks.
    rewrite (scan_while_stop is_blank W _ 0 Hblank HW). lia. }
  assert (E6 : (S (S (S K)) <? String.length s)%nat = true).
  { apply Nat.ltb_lt. rewrite Hs, string_length_app, Hlen. lia. }
  assert (E7 : parse_value s (S (S (S K)))
               = Some (flag_value v, S (S (S K)) + String.length (render_value v))).
  { rewrite Hs, <- Hlen.
    rewrite <- (Nat.add_0_r (String.length (entry_head key))) at 1.
    rewrite parse_value_shift. unfold W.
    rewrite (parse_value_render v c tail Hok Hc).
    cbn [fmap option_fmap option_map fst snd]. reflexivity. }
  assert (E8 : find_char ","%char s (S (S (S K)) + String.length (render_value v))
               = Nat.add (S (S (S K)) + String.length (render_value v))
                   <$> find_char ","%char (String c tail) 0).
  { unfold s. rewrite render_entry_head, <- string_app_assoc, <- Hlen.
    rewrite <- string_length_app.
    rewrite <- (Nat.add_0_r (String.length (entry_head key +:+ render_value v)))
      at 1.
    now rewrite find_char_shift. }
  cbn [ParseFlags_loop]. fold s. rewrite E0. cbn [negb]. rewrite E1, E2, E3, E4, E5, E6.
  cbn [negb]. rewrite E7, E8.
  rewrite string_length_app, Hlen.
  destruct (find_char ","%char (String c tail) 0) as [m |]; reflexivity.
Qed.

Lemma render_entries_app (l : list (string * flag_text)) (a b : string) :
  render_entries l (a +:+ b) = render_entries l a +:+ b.
Proof.
  induction l as [| [key v] rest IH]; cbn [render_entries]; [reflexivity |].
  rewrite !render_entry_head, !string_app_assoc. do 2 f_equal.
  destruct rest as [| kv rest']; [reflexivity |].
  now rewrite IH, string_app_cons.
Qed.

(** The loop of [ParseFlagsResponse] over the members of a flat object
    stores every member, in order. *)
Lemma ParseFlags_loop_entries (l : list (string * flag_text)) :
  forall (fuel : nat) (cache : gmap string string),
    forallb entry_ok l = true ->
    String.length (render_entries l "}") <= fuel ->
    ParseFlags_loop fuel (render_entries l "}") 0 cache = stored l cache.
Proof.
  induction l as [| [key v] rest IH]; intros fuel cache Hok Hfuel.
  - cbn [render_entries String.length] in *.
    destruct fuel as [| fuel]; [lia | reflexivity].
  - cbn [forallb] in Hok. apply andb_true_iff in Hok as [Hkv Hrest].
    unfold entry_ok in Hkv. cbn [fst snd] in Hkv.
    apply andb_true_iff in Hkv as [Hkey Hv].
    cbn [render_entries] in *. unfold stored. cbn [fold_left fst snd].
    destruct fuel as [| fuel];
      [rewrite render_entry_head, !string_length_app, entry_head_length in Hfuel;
       lia |].
    destruct rest as [| kv rest'].
    + rewrite (ParseFlags_loop_entry fuel key v "}" EmptyString cache Hkey Hv)
        by now right.
      reflexivity.
    + set (more := render_entries (kv :: rest') "}") in *.
      rewrite (ParseFlags_loop_entry fuel key v "," more cache Hkey Hv)
        by now left.
      cbn [find_char]. rewrite Ascii.eqb_refl.
      assert (Hs : render_entry key v (String "," more)
                   = ((entry_head key +:+ render_value v) +:+ ",") +:+ more).
      { rewrite render_entry_head, !string_app_assoc.
        now rewrite string_app_cons, string_app_nil_l. }
      assert (Hpos : S (String.length (entry_head key +:+ render_value v) + 0)
                     = String.length ((entry_head key +:+ render_value v) +:+ ",")
                       + 0).
      { rewrite (string_length_app _ ","). cbn [String.length]. lia. }
      rewrite Hs, Hpos, ParseFlags_loop_shift.
      apply (IH fuel _ Hrest).
      rewrite Hs, !string_length_app in Hfuel. cbn [String.length] in Hfuel.
      fold more. lia.
Qed.

(** *** Finding the flags object *)

Definition no_brace (c : ascii) : bool :=
  negb (Ascii.eqb c "{"%char) && negb (Ascii.eqb c "}"%char).

Lemma all_chars_app (p : ascii -> bool) (a b : string) :
  all_chars p (a +:+ b) = all_chars p a && all_chars p b.
Proof.
  induction a as [| c a IH]; [reflexivity |].
  rewrite string_app_cons. cbn [all_chars]. now rewrite IH, andb_assoc.
Qed.

Lemma plain_no_brace (text : string) :
  all_chars plain text = true -> all_chars no_brace text = true.
Proof.
  apply all_chars_impl. intros c. unfold plain, no_brace.
  rewrite !andb_true_iff. tauto.
Qed.

Lemma render_value_no_brace (v : flag_text) :
  value_ok v = true -> all_chars no_brace (render_value v) = true.
Proof.
  destruct v as [label | token]; cbn [value_ok render_value all_chars].
  - intros H. rewrite all_chars_app, (plain_no_brace _ H). reflexivity.
  - rewrite !andb_true_iff. intros [[H _] _].
    apply (all_chars_impl (fun c => plain c && negb (Ascii.eqb c ","%char)));
      [| exact H].
    intros c. unfold plain, no_brace. rewrite !andb_true_iff. tauto.
Qed.

Lemma render_entries_no_brace (l : list (string * flag_text)) :
  forallb entry_ok l = true ->
  all_chars no_brace (render_entries l EmptyString) = true.
Proof.
  induction l as [| [key v] rest IH]; [reflexivity |].
  cbn [forallb render_entries]. rewrite andb_true_iff. intros [Hkv Hrest].
  unfold entry_ok in Hkv. cbn [fst snd] in Hkv.
  apply andb_true_iff in Hkv as [Hkey Hv].
  unfold render_entry. cbn [all_chars].
  rewrite all_chars_app. cbn [all_chars]. rewrite all_chars_app.
  rewrite (plain_no_brace _ Hkey), (render_value_no_brace _ Hv).
  destruct rest as [| kv rest']; [reflexivity |].
  cbn [all_chars]. now rewrite (IH Hrest).
Qed.

Lemma match_braces_shift (pre text : string) :
  forall (fuel k : nat) (depth : Z),
    match_braces fuel (pre +:+ text) (String.length pre + k) depth
    = String.length pre + match_braces fuel text k depth.
Proof.
  induction fuel as [| fuel IH]; intros k depth; cbn [match_braces];
    [reflexivity |].
  rewrite get_shift. destruct (String.get k text) as [c |]; [| reflexivity].
  destruct (0 <? depth)%Z; [| reflexivity].
  now rewrite <- Nat.add_succ_r, IH.
Qed.

(** From depth 1, over a text without braces, the loop of [ExtractJsonValue]
    ends just behind the next closing brace. *)
Lemma match_braces_flat (rest : string) :
  forall (text : string) (fuel : nat),
    all_chars no_brace text = true ->
    String.length text < fuel ->
    match_braces fuel (text +:+ String "}" rest) 0 1 = S (String.length text).
Proof.
  induction text as [| a text IH]; intros fuel Hall Hfuel.
  - rewrite string_app_nil_l. cbn [String.length] in *.
    destruct fuel as [| fuel]; [lia |].
    cbn [match_braces String.get]. change (0 <? 1)%Z with true.
    replace (Ascii.eqb "}" "{")%char with false by reflexivity.
    rewrite Ascii.eqb_refl. change (1 - 1)%Z with 0%Z.
    destruct fuel as [| fuel]; [reflexivity |].
    cbn [match_braces]. now destruct (String.get 1 (String "}" rest)).
  - cbn [all_chars String.length] in *.
    apply andb_true_iff in Hall as [Ha Hall].
    destruct fuel as [| fuel]; [lia |].
    rewrite string_app_cons. cbn [match_braces String.get].
    change (0 <? 1)%Z with true.
    unfold no_brace in Ha. apply andb_true_iff in Ha as [Ha1 Ha2].
    apply negb_true_iff in Ha1, Ha2. rewrite Ha1, Ha2.
    change (String a (text +:+ String "}" rest))
      with (String a EmptyString +:+ (text +:+ String "}" rest)).
    change 1 with (String.length (String a EmptyString) + 0) at 1.
    rewrite match_braces_shift, IH; [reflexivity | exact Hall | lia].
Qed.

(** The text in front of the members of the flags object. *)
Definition flags_prefix : string :=
  "{" +:+ String dquote ("featureFlags" +:+ String dquote ":{").

Lemma ExtractJsonValue_flat_object (body rest : string) :
  all_chars no_brace body = true ->
  ExtractJsonValue (flags_prefix +:+ (body +:+ String "}" rest)) "featureFlags"
  = String "{" (body +:+ "}").
Proof.
  intros Hall. set (tail := body +:+ String "}" rest).
  unfold ExtractJsonValue.
  change (find_str (String dquote "featureFlags" +:+ String dquote EmptyString)
            (flags_prefix +:+ tail)) with (Some 1).
  cbv beta iota.
  change (find_char ":"%char (flags_prefix +:+ tail) 1) with (Some 15).
  cbv beta iota.
  change (skip_blanks (flags_prefix +:+ tail) 16) with 16.
  change (16 <? String.length (flags_prefix +:+ tail))%nat with true.
  cbn [negb].
  change (char_at (flags_prefix +:+ tail) 16) with "{"%char.
  replace (Ascii.eqb "{" dquote)%char with false by reflexivity.
  rewrite Ascii.eqb_refl.
  subst tail.
  change 17 with (String.length flags_prefix + 0).
  rewrite match_braces_shift.
  rewrite match_braces_flat;
    [| exact Hall | rewrite !string_length_app; cbn [String.length]; lia].
  change (flags_prefix +:+ (body +:+ String "}" rest))
    with (("{" +:+ String dquote ("featureFlags" +:+ String dquote ":"))
          +:+ String "{" (body +:+ String "}" rest)).
  change 16
    with (String.length
            ("{" +:+ String dquote ("featureFlags" +:+ String dquote ":")) + 0)
    at 1.
  rewrite substr_shift.
  replace (String.length flags_prefix + S (String.length body) - 16)
    with (String.length (String "{" (body +:+ "}")))
    by (cbn [String.length]; rewrite string_length_app;
        change (String.length flags_prefix) with 17; cbn [String.length]; lia).
  replace (String "{" (body +:+ String "}" rest))
    with (String "{" (body +:+ "}") +:+ rest).
  - apply substr_app_prefix.
  - rewrite string_app_cons, string_app_assoc.
    now rewrite string_app_cons, string_app_nil_l.
Qed.

Lemma flags_response_body (l : list (string * flag_text)) (rest : string) :
  flags_response l rest
  = flags_prefix +:+ (render_entries l EmptyString +:+ String "}" rest).
Proof.
  rewrite <- render_entries_app, string_app_nil_l. reflexivity.
Qed.

Lemma stored_lookup (l : list (string * flag_text)) :
  forall cache : gmap string string,
    List.NoDup (map fst l) ->
    (forall key v, In (key, v) l -> stored l cache !! key = Some (flag_value v))
    /\ (forall key, ~ In key (map fst l) -> stored l cache !! key = cache !! key).
Proof.
  unfold stored.
  induction l as [| [k0 v0] l IH]; intros cache Hnodup; cbn [fold_left map fst snd].
  - split; [intros key v [] | reflexivity].
  - cbn [map fst] in Hnodup.
    apply List.NoDup_cons_iff in Hnodup as [Hnotin Hnodup].
    destruct (IH (<[k0 := flag_value v0]> cache) Hnodup) as [Hin Hout].
    split.
    + intros key v [[= -> ->] | H]; [| now apply Hin].
      now rewrite (Hout _ Hnotin), lookup_insert_eq.
    + intros key Hkey. cbn [In] in Hkey.
      rewrite Hout by tauto. apply lookup_insert_ne. tauto.
Qed.

(** X10.  Parsing is right on compact flat flag objects.  Take a response that
    begins with [{"featureFlags":{], goes on with members ["key":value]
    separated by commas, and closes the object with ['}'], whatever follows.
    When keys and string variants hold no double quote and no brace, and
    bare tokens moreover no comma and no blank at either end,
    [ParseFlagsResponse] persists the response and leaves in the cache
    exactly the members, each under its key: a string variant without its
    quotes, a bare token as it stands; of two members with the same key the
    later one stays.  With distinct keys every member is read back by
    [GetFeatureFlag], and a key that is no member is not in the cache. *)
Theorem ParseFlagsResponse_flat_object (l : list (string * flag_text))
    (rest : string) (storage : StorageManager.t) (m0 : FeatureFlagsManager.t) :
  forallb entry_ok l = true ->
  ParseFlagsResponse (flags_response l rest) storage m0
  = ({| flags_cache_ := stored l ∅ |},
     snd (StorageManager.SetFeatureFlags (flags_response l rest) storage))
  /\ (List.NoDup (map fst l) ->
      (forall key v,
          In (key, v) l ->
          GetFeatureFlag key (fst (ParseFlagsResponse (flags_response l rest)
                                     storage m0))
          = flag_value v)
      /\ (forall key,
             ~ In key (map fst l) ->
             flags_cache_ (fst (ParseFlagsResponse (flags_response l rest)
                                  storage m0)) !! key = None)).
Proof.
  intros Hok.
  assert (Hparse : ParseFlagsResponse (flags_response l rest) storage m0
                   = ({| flags_cache_ := stored l ∅ |},
                      snd (StorageManager.SetFeatureFlags (flags_response l rest)
                             storage))).
  { assert (Hex : ExtractJsonValue (flags_response l rest) "featureFlags"
                  = String "{" (render_entries l EmptyString +:+ "}")).
    { rewrite (flags_response_body l rest).
      apply ExtractJsonValue_flat_object, render_entries_no_brace, Hok. }
    unfold ParseFlagsResponse. rewrite !Hex.
    change (String.eqb (String "{" (render_entries l EmptyString +:+ "}"))
              EmptyString) with false.
    change (char_at (String "{" (render_entries l EmptyString +:+ "}")) 0)
      with "{"%char.
    rewrite Ascii.eqb_refl. cbn [negb orb].
    do 2 f_equal.
    change (String "{" (render_entries l EmptyString +:+ "}"))
      with ("{" +:+ (render_entries l EmptyString +:+ "}")).
    change 1 with (String.length "{" + 0) at 1.
    rewrite ParseFlags_loop_shift.
    rewrite <- render_entries_app, string_app_nil_l.
    apply ParseFlags_loop_entries; [exact Hok |].
    rewrite string_length_app. cbn [String.length]. lia. }
  split; [exact Hparse |].
  intros Hnodup. rewrite Hparse. cbn [fst flags_cache_].
  destruct (stored_lookup l ∅ Hnodup) as [Hin Hout].
  split.
  - intros key v Hkv.
    pose proof (GetFeatureFlag_parsed (flags_response l rest) storage m0 key)
      as Hget.
    rewrite Hparse in Hget. cbn [fst flags_cache_] in Hget.
    now rewrite Hget, (Hin key v Hkv).
  - intros key Hkey. now rewrite (Hout key Hkey), lookup_empty.
Qed.

(** A response with a boolean flag, a string variant and a number,
    followed by another member of the response. *)
Definition sample_flags : list (string * flag_text) :=
  [("beta", Raw "true"); ("experiment", Quoted "control"); ("limit", Raw "3")].

Lemma ParseFlagsResponse_flat_object_witness :
  ParseFlagsResponse (flags_response sample_flags ",x:1}") StorageManager.fresh
    {| flags_cache_ := ∅ |}
  = ({| flags_cache_ := stored sample_flags ∅ |},
     snd (StorageManager.SetFeatureFlags (flags_response sample_flags ",x:1}")
            StorageManager.fresh))
  /\ (List.NoDup (map fst sample_flags) ->
      (forall key v,
          In (key, v) sample_flags ->
          GetFeatureFlag key
            (fst (ParseFlagsResponse (flags_response sample_flags ",x:1}")
                    StorageManager.fresh {| flags_cache_ := ∅ |}))
          = flag_value v)
      /\ (forall key,
             ~ In key (map fst sample_flags) ->
             flags_cache_
               (fst (ParseFlagsResponse (flags_response sample_flags ",x:1}")
                       StorageManager.fresh {| flags_cache_ := ∅ |})) !! key
             = None)).
Proof.
  apply (ParseFlagsResponse_flat_object sample_flags ",x:1}" StorageManager.fresh
           {| flags_cache_ := ∅ |}).
  reflexivity.
Defined.

Example sample_flags_parsed :
  flags_cache_ (parsed (flags_response sample_flags ",x:1}"))
  = {["beta" := "true"; "experiment" := "control"; "limit" := "3"]}
  /\ IsFeatureEnabled "beta" (parsed (flags_response sample_flags ",x:1}")) = true
  /\ IsFeatureEnabled "experiment" (parsed (flags_response sample_flags ",x:1}"))
     = false.
Proof. repeat split; vm_compute; reflexivity. Qed.

End ParseRoundTrip.

(** ** The replay pipeline: frames, buffers and ids *)

Section ReplayPipelineFacts.
Import SessionReplayManager Base64Reference.
Local Open Scope Z_scope.

Lemma group4_length (b : Z) : String.length (group4 b) = 4%nat.
Proof. reflexivity. Qed.

Lemma encode_groups_length (data : list byte) :
  String.length (encode_groups data)
  = (4 * ((List.length data + 2) / 3))%nat.
Proof.
  induction data as [| a | a b | a b c data IH] using list_ind3;
    try reflexivity.
  change (encode_groups (a :: b :: c :: data))
    with (group4 (pack3 (byte_val a) (byte_val b) (byte_val c))
          +:+ encode_groups data).
  rewrite string_length_app, group4_length, IH. cbn [List.length].
  replace (S (S (S (List.length data))) + 2)%nat
    with (List.length data + 2 + 1 * 3)%nat by lia.
  rewrite Nat.div_add by lia. lia.
Qed.

Lemma ResizeImage_same (m : SessionReplayManager.t) (image : list byte) (w h : Z) :
  ResizeImage m image w h = (image, w, h).
Proof. unfold ResizeImage. now destruct (_ || _). Qed.

(** X11.  [AddSnapshot] on an active pipeline, for an image whose encoder output
    has at least two bytes: one frame is appended to the snapshot buffer,
    with the id, the position and the size it was given (the maximal image
    dimension changes neither the size nor the bytes) and the time of the
    call; its base64 text has four characters for every three bytes,
    rounded up, and decodes to the bytes the encoder produced, the JPEG or
    the PNG as it came.  The meta buffer and the time of the last batch are
    untouched. *)
Theorem AddSnapshot_frame_decodes (lib : library) (now_ms : Z) (png : list byte)
    (id_ x_ y_ w h : Z) (m : SessionReplayManager.t) :
  is_active_ m = true ->
  (2 <= List.length (CompressToJpeg lib m png w h))%nat ->
  Z.of_nat (List.length (CompressToJpeg lib m png w h)) < 2 ^ 64 ->
  exists base64 : string,
    AddSnapshot lib now_ms png id_ x_ y_ w h m
    = Returns
        (with_buffers m
           (snapshot_buffer_ m
            ++ [{| image_base64 := base64; id := id_; x := x_; y := y_;
                   width := w; height := h; timestamp := now_ms |}])
           (meta_event_buffer_ m) (last_batch_time_ m) (meta_event_sent_ m))
    /\ base64_decode base64 = Some (CompressToJpeg lib m png w h)
    /\ String.length base64
       = (4 * ((List.length (CompressToJpeg lib m png w h) + 2) / 3))%nat.
Proof.
  intros Hactive Hlen Hmax.
  exists (encode_groups (CompressToJpeg lib m png w h)).
  split; [| split].
  - unfold AddSnapshot. rewrite Hactive, ResizeImage_same. cbn [negb].
    now rewrite (Base64Encode_groups _ Hlen Hmax).
  - apply base64_decode_encode_groups.
  - apply encode_groups_length.
Qed.

Lemma AddSnapshot_frame_decodes_witness :
  exists base64 : string,
    AddSnapshot Examples.lib 5 [x89; x50; x4e; x47] 1 0 0 800 600
      (SetActive true (SessionReplayManager.new "phc_test" 0))
    = Returns
        (with_buffers (SetActive true (SessionReplayManager.new "phc_test" 0))
           (snapshot_buffer_ (SetActive true (SessionReplayManager.new "phc_test" 0))
            ++ [{| image_base64 := base64; id := 1; x := 0; y := 0;
                   width := 800; height := 600; timestamp := 5 |}])
           (meta_event_buffer_ (SetActive true (SessionReplayManager.new "phc_test" 0)))
           (last_batch_time_ (SetActive true (SessionReplayManager.new "phc_test" 0)))
           (meta_event_sent_ (SetActive true (SessionReplayManager.new "phc_test" 0))))
    /\ base64_decode base64
       = Some (CompressToJpeg Examples.lib
                 (SetActive true (SessionReplayManager.new "phc_test" 0))
                 [x89; x50; x4e; x47] 800 600)
    /\ String.length base64
       = (4 * ((List.length
                  (CompressToJpeg Examples.lib
                     (SetActive true (SessionReplayManager.new "phc_test" 0))
                     [x89; x50; x4e; x47] 800 600) + 2) / 3))%nat.
Proof.
  apply (AddSnapshot_frame_decodes Examples.lib 5 [x89; x50; x4e; x47] 1 0 0
           800 600 (SetActive true (SessionReplayManager.new "phc_test" 0))).
  - reflexivity.
  - cbn. lia.
  - cbn. lia.
Defined.

(** X12.  A pipeline that is not active, as it is from its construction until
    [SetActive(true)], drops what it is given: [AddSnapshot] and
    [AddMetaEvent] change nothing, and a turn of the worker sends nothing
    and keeps the buffers. *)
Theorem inactive_pipeline_drops_frames (lib : library)
    (net : HttpClient.curl_result) (now now_ms random : Z) (png : list byte)
    (id_ x_ y_ w h : Z) (screen : string) (http : HttpClient.t)
    (storage : StorageManager.t) (m : SessionReplayManager.t) :
  is_active_ m = false ->
  AddSnapshot lib now_ms png id_ x_ y_ w h m = Returns m
  /\ AddMetaEvent now_ms w h screen m = m
  /\ FlushThread_iteration lib net now now_ms random http storage m
     = (true, m, http, storage)
  /\ is_active_ (SessionReplayManager.new screen now) = false.
Proof.
  intros Hactive. unfold AddSnapshot, AddMetaEvent, FlushThread_iteration.
  rewrite Hactive. cbn [negb]. rewrite orb_true_r.
  repeat (split; [reflexivity |]). reflexivity.
Qed.

Lemma inactive_pipeline_drops_frames_witness :
  AddSnapshot Examples.lib 5 [x89; x50] 1 0 0 800 600
    (SessionReplayManager.new "phc_test" 0)
  = Returns (SessionReplayManager.new "phc_test" 0)
  /\ AddMetaEvent 5 800 600 "home" (SessionReplayManager.new "phc_test" 0)
     = SessionReplayManager.new "phc_test" 0
  /\ FlushThread_iteration Examples.lib (HttpClient.CURLE_OK 200 "{}") 9 5 1234
       posting_client StorageManager.fresh (SessionReplayManager.new "phc_test" 0)
     = (true, SessionReplayManager.new "phc_test" 0, posting_client,
        StorageManager.fresh)
  /\ is_active_ (SessionReplayManager.new "home" 9) = false.
Proof.
  apply (inactive_pipeline_drops_frames Examples.lib (HttpClient.CURLE_OK 200 "{}")
           9 5 1234 [x89; x50] 1 0 0 800 600 "home" posting_client
           StorageManager.fresh (SessionReplayManager.new "phc_test" 0)).
  reflexivity.
Defined.

End ReplayPipelineFacts.

Section ReplaySendFacts.
Import SessionReplayManager.
Local Open Scope Z_scope.

(** The replay manager after one turn of its worker. *)
Definition manager_after (r : bool * SessionReplayManager.t * HttpClient.t
                              * StorageManager.t) : SessionReplayManager.t :=
  snd (fst (fst r)).

(** X13.  Replay frames are sent once and not kept: in a turn of the worker that
    sends (for a batch size of at least 1), both buffers are emptied and the
    time of the last batch is set before the transfer is made, so the
    manager afterwards is the same whether the server accepted the batch,
    refused it, or could not be reached.  [Flush] likewise leaves both
    buffers empty whatever the answer. *)
Theorem replay_buffers_cleared_whatever_the_answer (lib : library)
    (net : HttpClient.curl_result) (now now_ms random : Z) (http : HttpClient.t)
    (storage : StorageManager.t) (m : SessionReplayManager.t) :
  should_flush_ m = true ->
  is_active_ m = true ->
  http_client_ m = true ->
  1 <= batch_size_ m <= 2147483647 ->
  (batch_size_ m <= Z.of_nat (List.length (snapshot_buffer_ m))
   \/ (snapshot_buffer_ m <> []
       /\ batch_interval_ms_ m <= now - last_batch_time_ m) ->
   manager_after (FlushThread_iteration lib net now now_ms random http storage m)
   = with_buffers m [] [] now (meta_event_sent_ m))
  /\ snapshot_buffer_
       (fst (fst (Flush lib net now_ms random http storage m))) = []
  /\ meta_event_buffer_
       (fst (fst (Flush lib net now_ms random http storage m))) = [].
Proof.
  intros Hflush Hactive Hclient Hsize. split; [| split].
  - intros Hsend. unfold FlushThread_iteration, manager_after.
    rewrite Hflush, Hactive, Hclient. cbn [negb orb].
    replace (size_t (batch_size_ m)) with (batch_size_ m)
      by (unfold size_t; rewrite Z.mod_small; lia).
    destruct (Z.leb_spec (batch_size_ m)
                (Z.of_nat (List.length (snapshot_buffer_ m)))) as [Hfull | Hnot].
    + now destruct (SendBatch _ _ _ _ _ _ _ _ _).
    + destruct Hsend as [Hfull | [Hne Hdue]]; [lia |].
      replace (batch_interval_ms_ m <=? now - last_batch_time_ m) with true
        by (symmetry; zbool).
      destruct (snapshot_buffer_ m) as [| sn rest]; [contradiction |].
      cbn [is_nil negb andb]. now destruct (SendBatch _ _ _ _ _ _ _ _ _).
  - unfold Flush. rewrite Hclient. cbn [negb].
    destruct (snapshot_buffer_ m) as [| sn rest] eqn:Hs,
             (meta_event_buffer_ m) as [| me rest'] eqn:Hm;
      cbn [is_nil negb orb]; [exact Hs | | |];
      now destruct (SendBatch _ _ _ _ _ _ _ _ _).
  - unfold Flush. rewrite Hclient. cbn [negb].
    destruct (snapshot_buffer_ m) as [| sn rest] eqn:Hs,
             (meta_event_buffer_ m) as [| me rest'] eqn:Hm;
      cbn [is_nil negb orb]; [exact Hm | | |];
      now destruct (SendBatch _ _ _ _ _ _ _ _ _).
Qed.

Lemma replay_buffers_cleared_whatever_the_answer_witness :
  (batch_size_ (one_frame 1)
   <= Z.of_nat (List.length (snapshot_buffer_ (one_frame 1)))
   \/ (snapshot_buffer_ (one_frame 1) <> []
       /\ batch_interval_ms_ (one_frame 1) <= 100 - last_batch_time_ (one_frame 1)) ->
   manager_after (FlushThread_iteration Examples.lib HttpClient.CURLE_error
                    100 100 1234 posting_client StorageManager.fresh (one_frame 1))
   = with_buffers (one_frame 1) [] [] 100 (meta_event_sent_ (one_frame 1)))
  /\ snapshot_buffer_
       (fst (fst (Flush Examples.lib HttpClient.CURLE_error 100 1234
                    posting_client StorageManager.fresh (one_frame 1)))) = []
  /\ meta_event_buffer_
       (fst (fst (Flush Examples.lib HttpClient.CURLE_error 100 1234
                    posting_client StorageManager.fresh (one_frame 1)))) = [].
Proof.
  apply (replay_buffers_cleared_whatever_the_answer Examples.lib
           HttpClient.CURLE_error 100 100 1234 posting_client
           StorageManager.fresh (one_frame 1)).
  - reflexivity.
  - reflexivity.
  - reflexivity.
  - simpl. lia.
Defined.

Lemma generated_id_nonempty (a b : string) : a +:+ "-" +:+ b <> EmptyString.
Proof. destruct a; discriminate. Qed.

(** X14.  The distinct id of replay batches.  With an open store that has no
    distinct id yet, [SendBatch] makes one from the clock and the number it
    draws, [<ms>-<random>], and stores it: every later batch, whatever its
    clock and its draw, and every later event of [capture] carry this id.
    With a stored id, [SendBatch] uses that one and leaves the store as it
    is. *)
Theorem replay_distinct_id_persisted (now_ms random : Z)
    (storage : StorageManager.t) (m : SessionReplayManager.t) :
  storage_manager_ m = true ->
  StorageManager.db_ storage = true ->
  (StorageManager.GetDistinctId storage = EmptyString ->
   fst (batch_distinct_id now_ms random storage m)
   = to_string now_ms +:+ "-" +:+ to_string random
   /\ StorageManager.GetDistinctId (snd (batch_distinct_id now_ms random storage m))
      = to_string now_ms +:+ "-" +:+ to_string random
   /\ (forall now_ms' random',
          batch_distinct_id now_ms' random'
            (snd (batch_distinct_id now_ms random storage m)) m
          = (to_string now_ms +:+ "-" +:+ to_string random,
             snd (batch_distinct_id now_ms random storage m)))
   /\ (forall e : Plugin.env,
          Plugin.get_or_create_distinct_id e
            (snd (batch_distinct_id now_ms random storage m))
          = (to_string now_ms +:+ "-" +:+ to_string random,
             snd (batch_distinct_id now_ms random storage m))))
  /\ (StorageManager.GetDistinctId storage <> EmptyString ->
      batch_distinct_id now_ms random storage m
      = (StorageManager.GetDistinctId storage, storage)).
Proof.
  intros Hsm Hdb. split.
  - intros Hnone.
    set (new_id := to_string now_ms +:+ "-" +:+ to_string random).
    assert (Hne : String.eqb new_id EmptyString = false)
      by (apply String.eqb_neq, generated_id_nonempty).
    assert (Hfirst : batch_distinct_id now_ms random storage m
                     = (new_id, snd (StorageManager.SetDistinctId new_id storage))).
    { unfold batch_distinct_id. rewrite Hsm, Hnone. cbn [String.eqb].
      fold new_id. cbv beta iota zeta. now rewrite Hne. }
    pose proof (proj2 (get_set_setting "distinct_id" new_id EmptyString storage Hdb))
      as Hget.
    change (StorageManager.GetDistinctId
              (snd (StorageManager.SetDistinctId new_id storage)) = new_id) in Hget.
    rewrite Hfirst. cbn [fst snd].
    split; [reflexivity |]. split; [exact Hget |]. split.
    + intros now_ms' random'. unfold batch_distinct_id.
      rewrite Hsm, Hget, Hne. cbv beta iota zeta. now rewrite Hne.
    + intros e. unfold Plugin.get_or_create_distinct_id. now rewrite Hget, Hne.
  - intros Hsome. unfold batch_distinct_id. rewrite Hsm.
    apply String.eqb_neq in Hsome. rewrite Hsome. cbv beta iota zeta.
    now rewrite Hsome.
Qed.

Lemma replay_distinct_id_persisted_witness :
  (StorageManager.GetDistinctId StorageManager.fresh = EmptyString ->
   fst (batch_distinct_id 1700000000000 1234 StorageManager.fresh (one_frame 1))
   = to_string 1700000000000 +:+ "-" +:+ to_string 1234
   /\ StorageManager.GetDistinctId
        (snd (batch_distinct_id 1700000000000 1234 StorageManager.fresh
                (one_frame 1)))
      = to_string 1700000000000 +:+ "-" +:+ to_string 1234
   /\ (forall now_ms' random',
          batch_distinct_id now_ms' random'
            (snd (batch_distinct_id 1700000000000 1234 StorageManager.fresh
                    (one_frame 1))) (one_frame 1)
          = (to_string 1700000000000 +:+ "-" +:+ to_string 1234,
             snd (batch_distinct_id 1700000000000 1234 StorageManager.fresh
                    (one_frame 1))))
   /\ (forall e : Plugin.env,
          Plugin.get_or_create_distinct_id e
            (snd (batch_distinct_id 1700000000000 1234 StorageManager.fresh
                    (one_frame 1)))
          = (to_string 1700000000000 +:+ "-" +:+ to_string 1234,
             snd (batch_distinct_id 1700000000000 1234 StorageManager.fresh
                    (one_frame 1)))))
  /\ (StorageManager.GetDistinctId StorageManager.fresh <> EmptyString ->
      batch_distinct_id 1700000000000 1234 StorageManager.fresh (one_frame 1)
      = (StorageManager.GetDistinctId StorageManager.fresh, StorageManager.fresh)).
Proof.
  apply (replay_distinct_id_persisted 1700000000000 1234 StorageManager.fresh
           (one_frame 1)); reflexivity.
Defined.

End ReplaySendFacts.

(** ** Replay events on the wire *)

Section ReplayWireFacts.
Import SessionReplayManager.
Local Open Scope Z_scope.




End ReplayWireFacts.

(** ** The method channel *)

Section MethodFacts.
Import Plugin.

(** The names [handle_method_call] compares the method with. *)
Definition known_methods : list string :=
  ["setup"; "capture"; "identify"; "screen"; "distinctId"; "reset"; "enable";
   "disable"; "isOptOut"; "debug"; "register"; "unregister"; "flush";
   "isFeatureEnabled"; "getFeatureFlag"; "reloadFeatureFlags"; "getSessionId";
   "createNewSession"; "openUrl"; "alias"; "group"; "captureException";
   "getFeatureFlagPayload"; "close"; "sendFullSnapshot"; "sendMetaEvent";
   "isSessionReplayActive"].

Lemma answer_null_reply (x : outcome Plugin.t) (p' : Plugin.t) (r : reply) :
  answer_null x = Returns (p', r) -> r = Success None.
Proof. destruct x; cbn [answer_null]; [now intros [= _ <-] | | |]; discriminate. Qed.

(** X16.  A method whose name is none of the twenty-seven known names is answered
    with "not implemented" and changes nothing; a known method is never
    answered so. *)
Theorem unknown_method_not_implemented (lib : library) (e : env)
    (args : FlValue) (p : Plugin.t) :
  (forall method : string,
      ~ In method known_methods ->
      handle_method_call lib e method args p = Returns (p, NotImplemented))
  /\ (forall (method : string) (p' : Plugin.t) (r : reply),
         In method known_methods ->
         handle_method_call lib e method args p = Returns (p', r) ->
         exists result, r = Success result).
Proof.
  split.
  - intros method Hno. unfold handle_method_call.
    repeat match goal with
           | |- context [String.eqb method ?name] =>
             destruct (String.eqb_spec method name) as [-> | _];
             [exfalso; apply Hno; cbn; tauto |]
           end.
    reflexivity.
  - intros method p' r Hin H. cbn [known_methods In] in Hin.
    repeat match type of Hin with
           | _ \/ _ => destruct Hin as [<- | Hin]
           end;
      try contradiction;
      cbv beta iota delta [handle_method_call String.eqb Ascii.eqb Bool.eqb] in H;
      try (apply answer_null_reply in H; subst r; now eexists);
      unfold flag_query in H;
      cbv beta iota delta [String.eqb Ascii.eqb Bool.eqb] in H;
      repeat match type of H with
             | context [match ?x with _ => _ end] =>
               lazymatch x with
               | context [match _ with _ => _ end] => fail
               | _ => destruct x
               end
             end;
      try discriminate;
      try (injection H as _ <-; now eexists).
Qed.

End MethodFacts.

(** ** What the handlers do to the store *)

Section HandlerStoreFacts.
Import StorageManager.

(** The store [s'] is [s], or [s] with another persisted flags text. *)
Definition flags_only (s s' : StorageManager.t) : Prop :=
  s' = s \/ exists text, s' = snd (SetFeatureFlags text s).

Lemma GetOptOut_setting (s : StorageManager.t) :
  GetOptOut s = String.eqb (get_setting "opt_out" "0" s) "1".
Proof.
  unfold GetOptOut, get_setting. destruct (db_ s); cbn [negb]; [| reflexivity].
  now destruct (settings s !! "opt_out").
Qed.

Lemma set_setting_frame (key value : string) (s : StorageManager.t) :
  db_ (snd (set_setting key value s)) = db_ s
  /\ events (snd (set_setting key value s)) = events s
  /\ super_properties (snd (set_setting key value s)) = super_properties s.
Proof.
  unfold set_setting. destruct (db_ s) eqn:Hdb; cbn; rewrite ?Hdb; auto.
Qed.

Lemma SetOptOut_spec (b : bool) (s : StorageManager.t) :
  db_ s = true ->
  GetOptOut (snd (SetOptOut b s)) = b
  /\ db_ (snd (SetOptOut b s)) = true
  /\ events (snd (SetOptOut b s)) = events s
  /\ super_properties (snd (SetOptOut b s)) = super_properties s
  /\ GetDistinctId (snd (SetOptOut b s)) = GetDistinctId s
  /\ GetSessionId (snd (SetOptOut b s)) = GetSessionId s.
Proof.
  intros Hdb. rewrite GetOptOut_setting. unfold SetOptOut.
  destruct (set_setting_frame "opt_out" (if b then "1" else "0") s)
    as (Hdb' & Hev & Hsp).
  destruct (get_set_setting "opt_out" (if b then "1" else "0") "0" s Hdb)
    as [_ Hget].
  unfold GetDistinctId, GetSessionId.
  rewrite Hget, !get_set_setting_ne by discriminate.
  rewrite Hdb', Hdb. repeat split; auto. now destruct b.
Qed.

Lemma SetSessionId_spec (value : string) (s : StorageManager.t) :
  db_ s = true ->
  GetSessionId (snd (SetSessionId value s)) = value
  /\ db_ (snd (SetSessionId value s)) = true
  /\ events (snd (SetSessionId value s)) = events s
  /\ super_properties (snd (SetSessionId value s)) = super_properties s
  /\ GetDistinctId (snd (SetSessionId value s)) = GetDistinctId s
  /\ GetOptOut (snd (SetSessionId value s)) = GetOptOut s.
Proof.
  intros Hdb. rewrite !GetOptOut_setting. unfold SetSessionId.
  destruct (set_setting_frame "session_id" value s) as (Hdb' & Hev & Hsp).
  destruct (get_set_setting "session_id" value EmptyString s Hdb) as [_ Hget].
  unfold GetDistinctId, GetSessionId.
  rewrite Hget, !get_set_setting_ne by discriminate.
  rewrite Hdb', Hdb. repeat split; auto.
Qed.

Lemma SetDistinctId_spec (value : string) (s : StorageManager.t) :
  db_ s = true ->
  GetDistinctId (snd (SetDistinctId value s)) = value
  /\ db_ (snd (SetDistinctId value s)) = true
  /\ events (snd (SetDistinctId value s)) = events s
  /\ super_properties (snd (SetDistinctId value s)) = super_properties s
  /\ GetSessionId (snd (SetDistinctId value s)) = GetSessionId s
  /\ GetOptOut (snd (SetDistinctId value s)) = GetOptOut s.
Proof.
  intros Hdb. rewrite !GetOptOut_setting. unfold SetDistinctId.
  destruct (set_setting_frame "distinct_id" value s) as (Hdb' & Hev & Hsp).
  destruct (get_set_setting "distinct_id" value EmptyString s Hdb) as [_ Hget].
  unfold GetDistinctId, GetSessionId.
  rewrite Hget, !get_set_setting_ne by discriminate.
  rewrite Hdb', Hdb. repeat split; auto.
Qed.

Lemma flags_only_frame (s s' : StorageManager.t) :
  flags_only s s' ->
  db_ s' = db_ s /\ events s' = events s
  /\ super_properties s' = super_properties s
  /\ GetDistinctId s' = GetDistinctId s
  /\ GetSessionId s' = GetSessionId s
  /\ GetOptOut s' = GetOptOut s.
Proof.
  intros [-> | [text ->]]; [repeat split |].
  destruct (set_setting_frame "feature_flags" text s) as (Hdb & Hev & Hsp).
  rewrite !GetOptOut_setting.
  unfold SetFeatureFlags, GetDistinctId, GetSessionId.
  rewrite !get_set_setting_ne by discriminate.
  repeat split; assumption.
Qed.

Lemma ParseFlagsResponse_flags_only (response : string) (s : StorageManager.t)
    (m : FeatureFlagsManager.t) :
  flags_only s (snd (FeatureFlagsManager.ParseFlagsResponse response s m)).
Proof.
  unfold FeatureFlagsManager.ParseFlagsResponse.
  destruct (_ || _); cbn [snd]; [now left | right; eauto].
Qed.

Lemma new_flags_only (s : StorageManager.t) :
  flags_only s (snd (FeatureFlagsManager.new s)).
Proof.
  unfold FeatureFlagsManager.new, FeatureFlagsManager.LoadCachedFlags.
  destruct (_ && _); [apply ParseFlagsResponse_flags_only | now left].
Qed.

Lemma ReloadFeatureFlags_frame (lib : library) (net : HttpClient.curl_result)
    (distinct_id : string) (properties : list (string * string))
    (http : HttpClient.t) (s : StorageManager.t) (m : FeatureFlagsManager.t) :
  flags_only s
    (snd (fst (FeatureFlagsManager.ReloadFeatureFlags lib net distinct_id
                 properties http s m)))
  /\ HttpClient.base_url_
       (snd (fst (fst (FeatureFlagsManager.ReloadFeatureFlags lib net distinct_id
                         properties http s m))))
     = HttpClient.base_url_ http
  /\ HttpClient.api_key_
       (snd (fst (fst (FeatureFlagsManager.ReloadFeatureFlags lib net distinct_id
                         properties http s m))))
     = HttpClient.api_key_ http.
Proof.
  unfold FeatureFlagsManager.ReloadFeatureFlags, HttpClient.PostDecide.
  assert (Hkeep : forall payload,
             HttpClient.base_url_
               (snd (HttpClient.PerformPost net "/decide/" payload http))
             = HttpClient.base_url_ http
             /\ HttpClient.api_key_
                  (snd (HttpClient.PerformPost net "/decide/" payload http))
                = HttpClient.api_key_ http).
  { intros payload. unfold HttpClient.PerformPost.
    destruct (_ || _); [now split |]. now destruct net. }
  specialize (Hkeep (HttpClient.BuildDecidePayload lib http distinct_id properties)).
  destruct (HttpClient.PerformPost net "/decide/" _ http) as [response http'].
  cbn [snd] in Hkeep.
  destruct (_ && _); cbn [fst snd].
  - pose proof (ParseFlagsResponse_flags_only (HttpClient.body response) s m) as H.
    destruct (FeatureFlagsManager.ParseFlagsResponse (HttpClient.body response) s m)
      as [m' s'].
    cbn [fst snd] in *. tauto.
  - split; [now left | exact Hkeep].
Qed.

Lemma enqueue_frame (lib : library) (e : Plugin.env) (event : posthog.PostHogEvent)
    (s : StorageManager.t) :
  db_ (Plugin.enqueue lib e event s) = db_ s
  /\ settings (Plugin.enqueue lib e event s) = settings s
  /\ super_properties (Plugin.enqueue lib e event s) = super_properties s
  /\ (db_ s = true ->
      has_id (Plugin.fresh_row_id e) (events s) = false ->
      events (Plugin.enqueue lib e event s)
      = events s
        ++ [{| id := Plugin.fresh_row_id e;
               event_json := json_dump lib (posthog.PostHogEvent_to_json event);
               created_at := Plugin.now_s e |}]).
Proof.
  unfold Plugin.enqueue, EnqueueEvent.
  destruct (db_ s) eqn:Hdb; cbn [negb].
  - destruct (has_id _ _) eqn:Hid;
      cbn [snd with_events db_ settings events super_properties];
      rewrite ?Hdb; repeat split; auto; discriminate.
  - cbn [snd]. rewrite ?Hdb. repeat split; auto; discriminate.
Qed.

Lemma enqueue_getters (lib : library) (e : Plugin.env)
    (event : posthog.PostHogEvent) (s : StorageManager.t) :
  GetDistinctId (Plugin.enqueue lib e event s) = GetDistinctId s
  /\ GetSessionId (Plugin.enqueue lib e event s) = GetSessionId s
  /\ GetOptOut (Plugin.enqueue lib e event s) = GetOptOut s.
Proof.
  destruct (enqueue_frame lib e event s) as (Hdb & Hset & _).
  unfold GetDistinctId, GetSessionId, GetOptOut, get_setting.
  now rewrite Hdb, Hset.
Qed.

(** [get_or_create_distinct_id] on an open store: the stored id, or a fresh
    one that is stored; afterwards the store holds the id returned. *)
Lemma get_or_create_distinct_id_spec (e : Plugin.env) (s : StorageManager.t) :
  db_ s = true ->
  fst (Plugin.get_or_create_distinct_id e s)
  = (if String.eqb (GetDistinctId s) EmptyString
     then Plugin.fresh_distinct_id e else GetDistinctId s)
  /\ GetDistinctId (snd (Plugin.get_or_create_distinct_id e s))
     = fst (Plugin.get_or_create_distinct_id e s)
  /\ db_ (snd (Plugin.get_or_create_distinct_id e s)) = true
  /\ events (snd (Plugin.get_or_create_distinct_id e s)) = events s
  /\ super_properties (snd (Plugin.get_or_create_distinct_id e s))
     = super_properties s
  /\ GetSessionId (snd (Plugin.get_or_create_distinct_id e s)) = GetSessionId s
  /\ GetOptOut (snd (Plugin.get_or_create_distinct_id e s)) = GetOptOut s.
Proof.
  intros Hdb. unfold Plugin.get_or_create_distinct_id.
  destruct (String.eqb (GetDistinctId s) EmptyString); cbn [fst snd];
    [| repeat split; auto].
  destruct (set_setting_frame "distinct_id" (Plugin.fresh_distinct_id e) s)
    as (Hdb' & Hev & Hsp).
  destruct (get_set_setting "distinct_id" (Plugin.fresh_distinct_id e)
              EmptyString s Hdb) as [_ Hget].
  rewrite !GetOptOut_setting. unfold SetDistinctId, GetDistinctId, GetSessionId.
  rewrite Hget, !get_set_setting_ne by discriminate.
  rewrite Hdb', Hdb. repeat split; auto.
Qed.

Lemma get_or_create_session_id_spec (e : Plugin.env) (s : StorageManager.t) :
  db_ s = true ->
  fst (Plugin.get_or_create_session_id e s)
  = (if String.eqb (GetSessionId s) EmptyString
     then Plugin.fresh_session_id e else GetSessionId s)
  /\ GetSessionId (snd (Plugin.get_or_create_session_id e s))
     = fst (Plugin.get_or_create_session_id e s)
  /\ db_ (snd (Plugin.get_or_create_session_id e s)) = true
  /\ events (snd (Plugin.get_or_create_session_id e s)) = events s
  /\ super_properties (snd (Plugin.get_or_create_session_id e s))
     = super_properties s
  /\ GetDistinctId (snd (Plugin.get_or_create_session_id e s)) = GetDistinctId s
  /\ GetOptOut (snd (Plugin.get_or_create_session_id e s)) = GetOptOut s.
Proof.
  intros Hdb. unfold Plugin.get_or_create_session_id.
  destruct (String.eqb (GetSessionId s) EmptyString); cbn [fst snd];
    [| repeat split; auto].
  destruct (set_setting_frame "session_id" (Plugin.fresh_session_id e) s)
    as (Hdb' & Hev & Hsp).
  destruct (get_set_setting "session_id" (Plugin.fresh_session_id e)
              EmptyString s Hdb) as [_ Hget].
  rewrite !GetOptOut_setting. unfold SetSessionId, GetDistinctId, GetSessionId.
  rewrite Hget, !get_set_setting_ne by discriminate.
  rewrite Hdb', Hdb. repeat split; auto.
Qed.

End HandlerStoreFacts.

(** ** Setup *)

Section SetupFacts.
Import Plugin StorageManager.

(** The row [setup] queues: the [$screen] event "App Started". *)
Definition app_started_row (lib : library) (e : env) (distinct_id : string)
  : event_row :=
  {| id := fresh_row_id e;
     event_json :=
       json_dump lib
         (posthog.PostHogEvent_to_json
            (session_event e "App Started" distinct_id (fresh_session_id e)));
     created_at := now_s e |}.

(** X17.  A first [setup] with a non-empty API key, a data directory that opens
    and a curl handle initialises the plugin: the flush worker may run, the
    HTTP client has the key and the host without a final slash (the default
    host when none or an empty one is given), the opt-out flag of the
    arguments is the one persisted, the session id is a new one whatever was
    stored, the distinct id is the stored one or else a new one, and one
    [$screen] event "App Started" carrying both ids is queued (without
    regard to the opt-out flag).  With [sessionReplay] set, the replay
    manager is created active. *)
Theorem setup_establishes_session (lib : library) (e : env)
    (entries : list (FlValue * FlValue)) (key : string) (p : Plugin.t)
    (storage0 : StorageManager.t) :
  initialized p = false ->
  lookup_fl_string (FlMap entries) "apiKey" = Some key ->
  key <> EmptyString ->
  disk e = Some storage0 ->
  db_ storage0 = true ->
  curl_init e = true ->
  exists (storage : StorageManager.t) (client : HttpClient.t)
         (flags : FeatureFlagsManager.t),
    initialized (handle_setup lib e (FlMap entries) p) = true
    /\ should_flush (handle_setup lib e (FlMap entries) p) = true
    /\ storage_manager (handle_setup lib e (FlMap entries) p) = Some storage
    /\ http_client (handle_setup lib e (FlMap entries) p) = Some client
    /\ feature_flags_manager (handle_setup lib e (FlMap entries) p) = Some flags
    /\ api_key (handle_setup lib e (FlMap entries) p) = key
    /\ HttpClient.api_key_ client = key
    /\ host (handle_setup lib e (FlMap entries) p)
       = (match lookup_fl_string (FlMap entries) "host" with
          | Some h => if String.eqb h EmptyString
                      then "https://us.i.posthog.com" else h
          | None => "https://us.i.posthog.com"
          end)
    /\ HttpClient.base_url_ client
       = HttpClient.base_url_
           (HttpClient.SetBaseUrl (host (handle_setup lib e (FlMap entries) p))
              HttpClient.initialized)
    /\ opt_out (handle_setup lib e (FlMap entries) p)
       = default (opt_out p) (lookup_fl_bool (FlMap entries) "optOut")
    /\ db_ storage = true
    /\ GetOptOut storage = opt_out (handle_setup lib e (FlMap entries) p)
    /\ GetSessionId storage = fresh_session_id e
    /\ GetDistinctId storage
       = (if String.eqb (GetDistinctId storage0) EmptyString
          then fresh_distinct_id e else GetDistinctId storage0)
    /\ (has_id (fresh_row_id e) (events storage0) = false ->
        events storage
        = events storage0 ++ [app_started_row lib e (GetDistinctId storage)])
    /\ (lookup_fl_bool (FlMap entries) "sessionReplay" = Some true ->
        exists replay,
          session_replay_manager (handle_setup lib e (FlMap entries) p)
          = Some replay
          /\ SessionReplayManager.is_active_ replay = true).
Proof.
  intros Hinit Hkey Hne Hdisk Hdb Hcurl.
  apply String.eqb_neq in Hne.
  unfold handle_setup. rewrite Hinit, Hkey. cbv zeta. rewrite Hne, Hdisk, Hcurl.
  cbn [negb].
  set (host_ := if String.eqb _ EmptyString then "https://us.i.posthog.com" else _).
  set (opt := default (opt_out p) (lookup_fl_bool (FlMap entries) "optOut")).
  set (dbg := default (debug p) (lookup_fl_bool (FlMap entries) "debug")).
  (* the store behind the flags manager's constructor *)
  pose proof (new_flags_only storage0) as Hnew.
  destruct (FeatureFlagsManager.new storage0) as [flags1 s1]. cbn [snd] in Hnew.
  destruct (flags_only_frame _ _ Hnew) as (Hdb1 & Hev1 & _ & Hd1 & _ & _).
  rewrite Hdb in Hdb1.
  (* the opt-out flag is persisted *)
  destruct (SetOptOut_spec opt s1 Hdb1) as (Hopt2 & Hdb2 & Hev2 & _ & Hd2 & _).
  set (s2 := snd (SetOptOut opt s1)) in *.
  (* the distinct id *)
  destruct (get_or_create_distinct_id_spec e s2 Hdb2)
    as (Hd3 & Hget3 & Hdb3 & Hev3 & _ & _ & Hopt3).
  destruct (get_or_create_distinct_id e s2) as [d s3]. cbn [fst snd] in *.
  (* the session id *)
  destruct (SetSessionId_spec (fresh_session_id e) s3 Hdb3)
    as (Hsid4 & Hdb4 & Hev4 & _ & Hd4 & Hopt4).
  set (s4 := snd (SetSessionId (fresh_session_id e) s3)) in *.
  set (client0 := HttpClient.SetDebug dbg
                    (HttpClient.SetApiKey key
                       (HttpClient.SetBaseUrl host_ HttpClient.initialized))).
  (* the preload of the flags *)
  assert (Hpre : exists client5 s5 flags5,
             (if default true (lookup_fl_bool (FlMap entries) "preloadFeatureFlags")
                 && negb opt
              then
                let '(_, client, storage, flags) :=
                  FeatureFlagsManager.ReloadFeatureFlags lib (net e) d []
                    client0 s4 flags1 in
                (client, storage, flags)
              else (client0, s4, flags1))
             = (client5, s5, flags5)
             /\ flags_only s4 s5
             /\ HttpClient.base_url_ client5 = HttpClient.base_url_ client0
             /\ HttpClient.api_key_ client5 = HttpClient.api_key_ client0).
  { destruct (_ && _).
    - destruct (ReloadFeatureFlags_frame lib (net e) d [] client0 s4 flags1)
        as (H1 & H2 & H3).
      destruct (FeatureFlagsManager.ReloadFeatureFlags lib (net e) d []
                  client0 s4 flags1) as [[[ok client5] s5] flags5].
      cbn [fst snd] in *. exists client5, s5, flags5. auto.
    - exists client0, s4, flags1. repeat split. now left. }
  destruct Hpre as (client5 & s5 & flags5 & -> & Hfl5 & Hurl5 & Hkey5).
  destruct (flags_only_frame _ _ Hfl5) as (Hdb5 & Hev5 & _ & Hd5 & Hsid5 & Hopt5).
  rewrite Hdb4 in Hdb5.
  destruct (enqueue_frame lib e (session_event e "App Started" d (fresh_session_id e))
              s5) as (Hdb6 & _ & _ & Hev6).
  destruct (enqueue_getters lib e
              (session_event e "App Started" d (fresh_session_id e)) s5)
    as (Hd6 & Hsid6 & Hopt6).
  eexists _, client5, flags5.
  cbn [initialized should_flush storage_manager http_client feature_flags_manager
         api_key host opt_out session_replay_manager].
  repeat match goal with
         | |- _ /\ _ => split
         end; try reflexivity.
  - now rewrite Hkey5.
  - unfold host_. now destruct (lookup_fl_string (FlMap entries) "host").
  - now rewrite Hurl5.
  - now rewrite Hdb6.
  - now rewrite Hopt6, Hopt5, Hopt4, Hopt3.
  - now rewrite Hsid6, Hsid5.
  - now rewrite Hd6, Hd5, Hd4, Hget3, Hd3, Hd2, Hd1.
  - intros Hfresh. rewrite Hev6; [| exact Hdb5 |].
    + rewrite Hev5, Hev4, Hev3, Hev2, Hev1. unfold app_started_row.
      now rewrite Hd6, Hd5, Hd4, Hget3.
    + now rewrite Hev5, Hev4, Hev3, Hev2, Hev1.
  - intros ->. cbn [default]. eexists. split; [reflexivity |].
    unfold setup_replay.
    destruct (fl_value_lookup_string (FlMap entries) "sessionReplayConfig")
      as [[] |]; try reflexivity.
    repeat match goal with
           | |- context [match ?x with _ => _ end] => destruct x
           end; reflexivity.
Qed.

Lemma setup_establishes_session_witness :
  initialized (Examples.plugin_after_setup true) = true
  /\ should_flush (Examples.plugin_after_setup true) = true
  /\ opt_out (Examples.plugin_after_setup true) = true
  /\ exists storage,
      storage_manager (Examples.plugin_after_setup true) = Some storage
      /\ GetOptOut storage = true
      /\ GetSessionId storage = "22222222-2222-4222-8222-222222222222"
      /\ GetDistinctId storage = "11111111-1111-4111-8111-111111111111"
      /\ List.length (events storage) = 1%nat.
Proof.
  destruct (setup_establishes_session Examples.lib (Examples.world 200 0)
              [(FlString "apiKey", FlString "phc_test");
               (FlString "host", FlString "http://localhost:8000");
               (FlString "optOut", FlBool true);
               (FlString "preloadFeatureFlags", FlBool false)]
              "phc_test" Plugin.init StorageManager.fresh
              eq_refl eq_refl ltac:(discriminate) eq_refl eq_refl eq_refl)
    as (storage & client & flags & Hi & Hf & Hs & _ & _ & _ & _ & _ & _ & Ho
        & _ & Hopt & Hsid & Hd & Hev & _).
  split; [exact Hi |]. split; [exact Hf |]. split; [exact Ho |].
  exists storage. split; [exact Hs |].
  split; [now rewrite Hopt |]. split; [exact Hsid |]. split; [exact Hd |].
  now rewrite (Hev eq_refl).
Defined.

End SetupFacts.

(** ** Opting out and back in *)

Section OptOutToggleFacts.
Import Plugin StorageManager.

(** The store of the plugin, when there is one, is open: [setup] keeps a
    store only when it could open it, and it is closed only on disposal. *)
Definition store_open (p : Plugin.t) : Prop :=
  match storage_manager p with
  | Some storage => db_ storage = true
  | None => True
  end.

(** X18.  [disable] sets the opt-out flag of the plugin and persists it, and
    [enable] clears both; [isOptOut] answers with the flag accordingly, and
    after [disable] a [capture] changes nothing.  Neither method touches the
    queue or the distinct id. *)
Theorem opt_out_toggle (lib : library) (e : env) (args : FlValue) (p : Plugin.t) :
  store_open p ->
  exists p_off p_on : Plugin.t,
    handle_method_call lib e "disable" args p = Returns (p_off, Success None)
    /\ opt_out p_off = true
    /\ handle_method_call lib e "isOptOut" args p_off
       = Returns (p_off, Success (Some (FlBool true)))
    /\ handle_method_call lib e "capture" args p_off
       = Returns (p_off, Success None)
    /\ handle_method_call lib e "enable" args p_off = Returns (p_on, Success None)
    /\ opt_out p_on = false
    /\ handle_method_call lib e "isOptOut" args p_on
       = Returns (p_on, Success (Some (FlBool false)))
    /\ queued p_on = queued p
    /\ (forall storage storage',
           storage_manager p = Some storage ->
           storage_manager p_on = Some storage' ->
           GetDistinctId storage' = GetDistinctId storage
           /\ GetSessionId storage' = GetSessionId storage).
Proof.
  unfold store_open. intros Hopen.
  cbv beta iota delta [handle_method_call String.eqb Ascii.eqb Bool.eqb].
  unfold handle_capture, queued.
  destruct (storage_manager p) as [storage |] eqn:Hs.
  - destruct (SetOptOut_spec true storage Hopen)
      as (Hget1 & Hdb1 & Hev1 & _ & Hd1 & Hsid1).
    destruct (SetOptOut_spec false (snd (SetOptOut true storage)) Hdb1)
      as (Hget2 & _ & Hev2 & _ & Hd2 & Hsid2).
    exists (with_storage (with_opt_out p true) (snd (SetOptOut true storage))),
      (with_storage
         (with_opt_out
            (with_storage (with_opt_out p true) (snd (SetOptOut true storage)))
            false)
         (snd (SetOptOut false (snd (SetOptOut true storage))))).
    cbn [storage_manager with_opt_out with_storage answer_null opt_out
           initialized].
    rewrite Hs, Hget1, Hget2, orb_true_r.
    repeat match goal with
           | |- _ /\ _ => split
           end; try reflexivity.
    + now rewrite Hev2, Hev1.
    + intros st st' [= <-] [= <-]. split; congruence.
  - exists (with_opt_out p true), (with_opt_out (with_opt_out p true) false).
    cbn [storage_manager with_opt_out answer_null opt_out initialized].
    rewrite Hs, orb_true_r.
    repeat match goal with
           | |- _ /\ _ => split
           end; try reflexivity.
    intros st st' [=].
Qed.

Lemma opt_out_toggle_witness :
  exists p_off p_on : Plugin.t,
    handle_method_call Examples.lib (Examples.world 200 1) "disable" FlNull
      (Examples.plugin_after_setup false) = Returns (p_off, Success None)
    /\ opt_out p_off = true
    /\ handle_method_call Examples.lib (Examples.world 200 1) "isOptOut" FlNull p_off
       = Returns (p_off, Success (Some (FlBool true)))
    /\ handle_method_call Examples.lib (Examples.world 200 1) "capture" FlNull p_off
       = Returns (p_off, Success None)
    /\ handle_method_call Examples.lib (Examples.world 200 1) "enable" FlNull p_off
       = Returns (p_on, Success None)
    /\ opt_out p_on = false
    /\ handle_method_call Examples.lib (Examples.world 200 1) "isOptOut" FlNull p_on
       = Returns (p_on, Success (Some (FlBool false)))
    /\ queued p_on = queued (Examples.plugin_after_setup false)
    /\ (forall storage storage',
           storage_manager (Examples.plugin_after_setup false) = Some storage ->
           storage_manager p_on = Some storage' ->
           GetDistinctId storage' = GetDistinctId storage
           /\ GetSessionId storage' = GetSessionId storage).
Proof.
  apply (opt_out_toggle Examples.lib (Examples.world 200 1) FlNull
           (Examples.plugin_after_setup false)).
  reflexivity.
Defined.

End OptOutToggleFacts.

(** ** Who the user is: [identify], [alias], [reset], [distinctId] *)

Section IdentityFacts.
Import Plugin StorageManager.

(** The row [EnqueueEvent] writes for an event during the call [e]. *)
Definition queued_row (lib : library) (e : env) (event : posthog.PostHogEvent)
  : event_row :=
  {| id := fresh_row_id e;
     event_json := json_dump lib (posthog.PostHogEvent_to_json event);
     created_at := now_s e |}.

Lemma distinctId_call (lib : library) (e : env) (args : FlValue) (p : Plugin.t) :
  handle_method_call lib e "distinctId" args p
  = match storage_manager p with
    | Some storage =>
      let '(distinct_id, storage) := get_or_create_distinct_id e storage in
      Returns (with_storage p storage, Success (Some (FlString distinct_id)))
    | None => Returns (p, Success (Some (FlString EmptyString)))
    end.
Proof. reflexivity. Qed.

(** X19.  [identify] with a user id on a plugin that is set up and not opted out
    stores the id as the distinct id, keeps (or creates) the session id, and
    queues one [$identify] event for that id with the session id.  From then on
    [distinctId] answers with the user id; but an empty user id is stored
    as it is, and the next [distinctId] replaces it by a generated one. *)
Theorem identify_sets_distinct_id (lib : library) (e : env) (args : FlValue)
    (p : Plugin.t) (storage : StorageManager.t) (user_id : string) :
  initialized p = true -> opt_out p = false ->
  storage_manager p = Some storage -> db_ storage = true ->
  lookup_fl_string args "userId" = Some user_id ->
  exists storage' : StorageManager.t,
    handle_identify lib e args p = Returns (with_storage p storage')
    /\ GetDistinctId storage' = user_id
    /\ GetSessionId storage'
       = (if String.eqb (GetSessionId storage) EmptyString
          then fresh_session_id e else GetSessionId storage)
    /\ (has_id (fresh_row_id e) (events storage) = false ->
        events storage'
        = events storage
          ++ [queued_row lib e
                {| posthog.event := "$identify"; posthog.distinct_id := user_id;
                   posthog.timestamp := now_ms e;
                   posthog.properties :=
                     session_properties (GetSessionId storage') (JObject []) |}])
    /\ (forall (e' : env) (args' : FlValue),
           handle_method_call lib e' "distinctId" args' (with_storage p storage')
           = if String.eqb user_id EmptyString
             then Returns
                    (with_storage p
                       (snd (SetDistinctId (fresh_distinct_id e') storage')),
                     Success (Some (FlString (fresh_distinct_id e'))))
             else Returns (with_storage p storage',
                           Success (Some (FlString user_id)))).
Proof.
  intros Hinit Hopt Hs Hdb Huser.
  unfold handle_identify. rewrite Hinit, Hopt, Huser, Hs. cbn [negb orb].
  destruct (SetDistinctId_spec user_id storage Hdb)
    as (Hd1 & Hdb1 & Hev1 & _ & Hsid1 & _).
  set (s1 := snd (SetDistinctId user_id storage)) in *.
  destruct (get_or_create_session_id_spec e s1 Hdb1)
    as (Hfst & Hsid2 & Hdb2 & Hev2 & _ & Hd2 & _).
  destruct (get_or_create_session_id e s1) as [sid s2]. cbn [fst snd] in *.
  set (event := {| posthog.event := "$identify"; posthog.distinct_id := user_id;
                   posthog.timestamp := now_ms e;
                   posthog.properties := session_properties sid (JObject []) |}).
  destruct (enqueue_frame lib e event s2) as (Hdb3 & _ & _ & Hrow).
  destruct (enqueue_getters lib e event s2) as (Hd3 & Hsid3 & _).
  exists (enqueue lib e event s2).
  split; [reflexivity |].
  split; [congruence |].
  split; [rewrite Hsid3, Hsid2, Hfst, Hsid1; reflexivity |].
  split.
  - intros Hid. rewrite Hsid3, Hsid2.
    rewrite Hrow by (rewrite ?Hev2, ?Hev1; assumption).
    now rewrite Hev2, Hev1.
  - intros e' args'. rewrite distinctId_call.
    cbn [storage_manager with_storage]. unfold get_or_create_distinct_id.
    rewrite Hd3, Hd2, Hd1.
    now destruct (String.eqb user_id EmptyString).
Qed.

Lemma identify_sets_distinct_id_witness :
  exists storage' : StorageManager.t,
    handle_identify Examples.lib (Examples.world 200 1)
      (FlMap [(FlString "userId", FlString "user-1")])
      (Examples.plugin_after_setup false)
    = Returns (with_storage (Examples.plugin_after_setup false) storage')
    /\ GetDistinctId storage' = "user-1".
Proof.
  destruct (identify_sets_distinct_id Examples.lib (Examples.world 200 1)
              (FlMap [(FlString "userId", FlString "user-1")])
              (Examples.plugin_after_setup false)
              (default fresh (storage_manager (Examples.plugin_after_setup false)))
              "user-1" eq_refl eq_refl eq_refl eq_refl eq_refl)
    as (storage' & Hcall & Hid & _).
  exists storage'. split; assumption.
Defined.

(** X20.  [alias] on a plugin with an open store queues one [$create_alias] event
    that is sent under the new id and carries the previous distinct id (a
    generated one if none was stored) as its [alias] property; afterwards the
    new id is the stored distinct id.  The session id is kept. *)
Theorem alias_switches_identity (lib : library) (e : env)
    (entries : list (FlValue * FlValue)) (p : Plugin.t)
    (storage : StorageManager.t) (new_id : string) :
  storage_manager p = Some storage -> db_ storage = true ->
  lookup_fl_string (FlMap entries) "alias" = Some new_id ->
  exists storage' : StorageManager.t,
    handle_method_call lib e "alias" (FlMap entries) p
    = Returns (with_storage p storage', Success None)
    /\ GetDistinctId storage' = new_id
    /\ GetSessionId storage' = GetSessionId storage
    /\ (has_id (fresh_row_id e) (events storage) = false ->
        events storage'
        = events storage
          ++ [queued_row lib e
                {| posthog.event := "$create_alias";
                   posthog.distinct_id := new_id;
                   posthog.timestamp := now_ms e;
                   posthog.properties :=
                     JObject
                       [("alias",
                         JString (if String.eqb (GetDistinctId storage) EmptyString
                                  then fresh_distinct_id e
                                  else GetDistinctId storage))] |}]).
Proof.
  intros Hs Hdb Halias.
  assert (Hcall : handle_method_call lib e "alias" (FlMap entries) p
                  = answer_null (Returns (handle_alias lib e (FlMap entries) p)))
    by reflexivity.
  rewrite Hcall. unfold handle_alias. rewrite Halias, Hs.
  destruct (get_or_create_distinct_id_spec e storage Hdb)
    as (Hfst & _ & Hdb1 & Hev1 & _ & Hsid1 & _).
  destruct (get_or_create_distinct_id e storage) as [old_id s1].
  cbn [fst snd] in *.
  set (event := {| posthog.event := "$create_alias";
                   posthog.distinct_id := new_id;
                   posthog.timestamp := now_ms e;
                   posthog.properties :=
                     set_member (JObject []) "alias" (JString old_id) |}).
  destruct (enqueue_frame lib e event s1) as (Hdb2 & _ & _ & Hrow).
  destruct (enqueue_getters lib e event s1) as (_ & Hsid2 & _).
  rewrite Hdb1 in Hdb2.
  destruct (SetDistinctId_spec new_id (enqueue lib e event s1) Hdb2)
    as (Hd3 & _ & Hev3 & _ & Hsid3 & _).
  exists (snd (SetDistinctId new_id (enqueue lib e event s1))).
  split; [reflexivity |].
  split; [exact Hd3 |].
  split; [congruence |].
  intros Hid. rewrite Hev3, Hrow by (rewrite ?Hev1; assumption).
  rewrite Hev1. subst event. now rewrite Hfst.
Qed.

Lemma alias_switches_identity_witness :
  exists storage' : StorageManager.t,
    handle_method_call Examples.lib (Examples.world 200 1) "alias"
      (FlMap [(FlString "alias", FlString "user-2")])
      (Examples.plugin_after_setup false)
    = Returns (with_storage (Examples.plugin_after_setup false) storage',
               Success None)
    /\ GetDistinctId storage' = "user-2".
Proof.
  destruct (alias_switches_identity Examples.lib (Examples.world 200 1)
              [(FlString "alias", FlString "user-2")]
              (Examples.plugin_after_setup false)
              (default fresh (storage_manager (Examples.plugin_after_setup false)))
              "user-2" eq_refl eq_refl eq_refl)
    as (storage' & Hcall & Hid & _).
  exists storage'. split; assumption.
Defined.

(** Removing the listed super properties one by one. *)
Lemma remove_listed_super_properties (l : list (string * string))
    (s : StorageManager.t) :
  db_ s = true ->
  db_ (fold_left (fun st prop => snd (RemoveSuperProperty (fst prop) st)) l s)
  = true
  /\ settings (fold_left (fun st prop => snd (RemoveSuperProperty (fst prop) st))
                 l s) = settings s
  /\ events (fold_left (fun st prop => snd (RemoveSuperProperty (fst prop) st))
               l s) = events s
  /\ (forall k,
         super_properties
           (fold_left (fun st prop => snd (RemoveSuperProperty (fst prop) st)) l s)
           !! k
         = if in_dec string_dec k (map fst l) then None
           else super_properties s !! k).
Proof.
  revert s. induction l as [| [k0 v0] l IH]; intros s Hdb.
  - cbn [fold_left map]. repeat split; auto.
  - cbn [fold_left fst].
    assert (Hstep : snd (RemoveSuperProperty k0 s)
                    = with_super_properties s (delete k0 (super_properties s)))
      by (unfold RemoveSuperProperty; now rewrite Hdb).
    rewrite Hstep.
    destruct (IH (with_super_properties s (delete k0 (super_properties s))) Hdb)
      as (Hdb' & Hset & Hev & Hlook).
    repeat split; auto.
    intros k. rewrite Hlook. cbn [super_properties with_super_properties map fst].
    destruct (in_dec string_dec k (map fst l)) as [Hin | Hnin];
      destruct (in_dec string_dec k (k0 :: map fst l)) as [Hin' | Hnin'];
      try reflexivity.
    + exfalso. apply Hnin'. now right.
    + destruct Hin' as [-> | Hin']; [apply lookup_delete_eq | contradiction].
    + apply lookup_delete_ne. intros ->. apply Hnin'. now left.
Qed.

(** X21.  [reset] on a plugin with an open store draws a new distinct id and
    removes every super property; the session id, the opt-out flag, the
    persisted flags and the queued events stay as they are. *)
Theorem reset_clears_identity (lib : library) (e : env) (args : FlValue)
    (p : Plugin.t) (storage : StorageManager.t) :
  storage_manager p = Some storage -> db_ storage = true ->
  exists storage' : StorageManager.t,
    handle_method_call lib e "reset" args p
    = Returns (with_storage p storage', Success None)
    /\ GetDistinctId storage' = fresh_distinct_id e
    /\ GetAllSuperProperties storage' = []
    /\ events storage' = events storage
    /\ GetSessionId storage' = GetSessionId storage
    /\ GetOptOut storage' = GetOptOut storage
    /\ GetFeatureFlags storage' = GetFeatureFlags storage.
Proof.
  intros Hs Hdb.
  assert (Hcall : handle_method_call lib e "reset" args p
                  = match storage_manager p with
                    | Some storage =>
                      answer_null (Returns (with_storage p (reset_storage e storage)))
                    | None => answer_null (Returns p)
                    end) by reflexivity.
  rewrite Hcall, Hs. exists (reset_storage e storage).
  split; [reflexivity |].
  unfold reset_storage.
  destruct (SetDistinctId_spec (fresh_distinct_id e) storage Hdb)
    as (Hd1 & Hdb1 & Hev1 & Hsp1 & Hsid1 & Hopt1).
  assert (Hff1 : GetFeatureFlags (snd (SetDistinctId (fresh_distinct_id e) storage))
                 = GetFeatureFlags storage)
    by (unfold GetFeatureFlags, SetDistinctId;
        now rewrite get_set_setting_ne by discriminate).
  set (s1 := snd (SetDistinctId (fresh_distinct_id e) storage)) in *.
  destruct (GetAllSuperProperties_spec s1 Hdb1) as (_ & _ & Hall).
  destruct (remove_listed_super_properties (GetAllSuperProperties s1) s1 Hdb1)
    as (Hdb2 & Hset2 & Hev2 & Hlook).
  set (s2 := fold_left _ (GetAllSuperProperties s1) s1) in *.
  assert (Hempty : super_properties s2 = ∅).
  { apply map_empty. intros k. rewrite Hlook.
    destruct (in_dec string_dec k (map fst (GetAllSuperProperties s1)))
      as [Hin | Hnin]; [reflexivity |].
    destruct (super_properties s1 !! k) as [v |] eqn:Hk; [| reflexivity].
    exfalso. apply Hnin. apply Hall in Hk.
    change k with (fst (k, v)). now apply in_map. }
  rewrite !GetOptOut_setting in *.
  unfold GetDistinctId, GetSessionId, GetFeatureFlags, get_setting in *.
  rewrite Hdb2, Hset2. rewrite Hdb1 in *.
  repeat split; try assumption; try congruence.
  unfold GetAllSuperProperties. now rewrite Hdb2, Hempty, map_to_list_empty.
Qed.

Lemma reset_clears_identity_witness :
  exists storage' : StorageManager.t,
    handle_method_call Examples.lib (Examples.world 200 1) "reset" FlNull
      (with_storage Plugin.init (snd (SetSuperProperty "plan" "1" fresh)))
    = Returns (with_storage Plugin.init storage', Success None)
    /\ GetDistinctId storage' = "11111111-1111-4111-8111-111111111111"
    /\ GetAllSuperProperties storage' = [].
Proof.
  destruct (reset_clears_identity Examples.lib (Examples.world 200 1) FlNull
              (with_storage Plugin.init (snd (SetSuperProperty "plan" "1" fresh)))
              (snd (SetSuperProperty "plan" "1" fresh)) eq_refl eq_refl)
    as (storage' & Hcall & Hid & Hsp & _).
  exists storage'. repeat split; assumption.
Defined.

End IdentityFacts.

(** ** What [capture] queues *)

Section CaptureFacts.
Import Plugin StorageManager.
Local Open Scope Z_scope.

Definition is_object (j : json) : bool :=
  match j with
  | JObject _ => true
  | _ => false
  end.

Lemma set_member_is_object (j : json) (k : string) (v : json) :
  is_object j = true -> is_object (set_member j k v) = true.
Proof. now destruct j. Qed.

Lemma member_set_member_eq (j : json) (k : string) (v : json) :
  is_object j = true -> member (set_member j k v) k = Some v.
Proof.
  destruct j; try discriminate. intros _. cbn [set_member member].
  now rewrite map_get_map_set, String.eqb_refl.
Qed.

Lemma member_set_member_ne (j : json) (k k' : string) (v : json) :
  k <> k' -> member (set_member j k' v) k = member j k.
Proof.
  intros Hne. apply String.eqb_neq in Hne.
  destruct j; try reflexivity; cbn [set_member member].
  - cbn [map_get]. now rewrite Hne.
  - now rewrite map_get_map_set, Hne.
Qed.

Lemma add_super_properties_is_object (lib : library)
    (super_props : list (string * string)) (j : json) :
  is_object j = true -> is_object (add_super_properties lib super_props j) = true.
Proof.
  unfold add_super_properties. revert j.
  induction super_props as [| [k v] l IH]; intros j Hj; [exact Hj |].
  cbn [fold_left fst snd]. apply IH.
  destruct (json_parse lib v); now apply set_member_is_object.
Qed.

Lemma add_super_properties_other (lib : library)
    (super_props : list (string * string)) (j : json) (k : string) :
  ~ In k (map fst super_props) ->
  member (add_super_properties lib super_props j) k = member j k.
Proof.
  unfold add_super_properties. revert j.
  induction super_props as [| [k0 v0] l IH]; intros j Hk; [reflexivity |].
  cbn [fold_left fst snd map In] in *.
  rewrite IH by tauto.
  destruct (json_parse lib v0); apply member_set_member_ne; intros ->; tauto.
Qed.

(** The five property names [handle_capture] reads from its arguments. *)
Definition extracted_names : list string :=
  ["$elements"; "$event_type"; "$viewport_width"; "$viewport_height";
   "$screen_name"].

(** The properties of an event before the arguments are looked at. *)
Definition base_properties (lib : library) (session_id : string)
    (super_props : list (string * string)) : json :=
  add_super_properties lib super_props
    (session_properties session_id (library_properties (JObject []))).

Lemma base_properties_is_object (lib : library) (session_id : string)
    (super_props : list (string * string)) :
  is_object (base_properties lib session_id super_props) = true.
Proof.
  apply add_super_properties_is_object. unfold session_properties.
  apply set_member_is_object. now destruct (negb _).
Qed.

Lemma add_event_properties_other (entries : list (FlValue * FlValue))
    (j : json) (k : string) :
  ~ In k extracted_names ->
  member (add_event_properties (FlMap entries) j) k = member j k.
Proof.
  intros Hk. unfold add_event_properties.
  cbn [fl_value_to_json_obj fold_left].
  assert (H1 : k <> "$elements") by (intros ->; apply Hk; cbn; tauto).
  assert (H2 : k <> "$event_type") by (intros ->; apply Hk; cbn; tauto).
  assert (H3 : k <> "$viewport_width") by (intros ->; apply Hk; cbn; tauto).
  assert (H4 : k <> "$viewport_height") by (intros ->; apply Hk; cbn; tauto).
  assert (H5 : k <> "$screen_name") by (intros ->; apply Hk; cbn; tauto).
  destruct (lookup_fl_string (FlMap entries) "$screen_name");
    rewrite ?member_set_member_ne by assumption;
    destruct (lookup_fl_int (FlMap entries) "$viewport_height");
    rewrite ?member_set_member_ne by assumption;
    destruct (lookup_fl_int (FlMap entries) "$viewport_width");
    rewrite ?member_set_member_ne by assumption;
    destruct (lookup_fl_string (FlMap entries) "$event_type");
    rewrite ?member_set_member_ne by assumption;
    destruct (fl_value_lookup_string (FlMap entries) "$elements") as [[] |];
    rewrite ?member_set_member_ne by assumption; reflexivity.
Qed.

Lemma capture_event_other (lib : library) (e : env) (args : FlValue)
    (event_name distinct_id session_id : string)
    (super_props : list (string * string)) (k : string) :
  ~ In k extracted_names ->
  member (posthog.properties
            (capture_event lib e args event_name distinct_id session_id
               super_props)) k
  = member (base_properties lib session_id super_props) k.
Proof.
  intros Hk. unfold capture_event. cbn [posthog.properties].
  fold (base_properties lib session_id super_props).
  destruct (fl_value_lookup_string args "properties") as [[] |];
    try reflexivity.
  now apply add_event_properties_other.
Qed.

(** X22.  The event [handle_capture] builds carries the event name, the distinct
    id and the clock reading.  Of the [properties] passed with the call only
    the five extracted names can reach the event, each only with the type
    the handler expects: every other property of the call is dropped, since
    the generic conversion turns the map into an empty object.  A property
    that is neither extracted nor a super property is one of the fixed
    library and session properties. *)
Theorem capture_drops_custom_properties (lib : library) (e : env)
    (args : FlValue) (event_name distinct_id session_id : string)
    (super_props : list (string * string)) :
  posthog.event (capture_event lib e args event_name distinct_id session_id
                   super_props) = event_name
  /\ posthog.distinct_id (capture_event lib e args event_name distinct_id
                            session_id super_props) = distinct_id
  /\ posthog.timestamp (capture_event lib e args event_name distinct_id
                          session_id super_props) = now_ms e
  /\ (forall k : string,
         ~ In k extracted_names ->
         member (posthog.properties
                   (capture_event lib e args event_name distinct_id session_id
                      super_props)) k
         = member (base_properties lib session_id super_props) k)
  /\ (forall k : string,
         ~ In k (map fst super_props) ->
         member (base_properties lib session_id super_props) k
         = member (session_properties session_id (library_properties (JObject [])))
             k)
  /\ (forall (entries : list (FlValue * FlValue)) (v : string),
         fl_value_lookup_string args "properties" = Some (FlMap entries) ->
         lookup_fl_string (FlMap entries) "$screen_name" = Some v ->
         member (posthog.properties
                   (capture_event lib e args event_name distinct_id session_id
                      super_props)) "$screen_name" = Some (JString v))
  /\ (forall (entries : list (FlValue * FlValue)) (v : FlValue),
         fl_value_lookup_string args "properties" = Some (FlMap entries) ->
         fl_value_lookup_string (FlMap entries) "$screen_name" = Some v ->
         fl_value_get_string v = None ->
         member (posthog.properties
                   (capture_event lib e args event_name distinct_id session_id
                      super_props)) "$screen_name"
         = member (base_properties lib session_id super_props) "$screen_name").
Proof.
  unfold capture_event. cbn [posthog.event posthog.distinct_id posthog.timestamp
                               posthog.properties].
  fold (base_properties lib session_id super_props).
  repeat match goal with
         | |- _ /\ _ => split
         end; try reflexivity.
  - intros k Hk.
    destruct (fl_value_lookup_string args "properties") as [[] |];
      try reflexivity.
    now apply add_event_properties_other.
  - intros k Hk. now apply add_super_properties_other.
  - intros entries v -> Hv. unfold add_event_properties.
    cbn [fl_value_to_json_obj fold_left]. rewrite Hv.
    apply member_set_member_eq.
    destruct (lookup_fl_int (FlMap entries) "$viewport_height");
      destruct (lookup_fl_int (FlMap entries) "$viewport_width");
      destruct (lookup_fl_string (FlMap entries) "$event_type");
      destruct (fl_value_lookup_string (FlMap entries) "$elements") as [[] |];
      repeat apply set_member_is_object; apply base_properties_is_object.
  - intros entries v -> Hv Hnot. unfold add_event_properties.
    cbn [fl_value_to_json_obj fold_left].
    assert (Hnone : lookup_fl_string (FlMap entries) "$screen_name" = None).
    { unfold lookup_fl_string. rewrite Hv.
      destruct v; try reflexivity. discriminate. }
    rewrite Hnone.
    destruct (lookup_fl_int (FlMap entries) "$viewport_height");
      rewrite ?member_set_member_ne by discriminate;
      destruct (lookup_fl_int (FlMap entries) "$viewport_width");
      rewrite ?member_set_member_ne by discriminate;
      destruct (lookup_fl_string (FlMap entries) "$event_type");
      rewrite ?member_set_member_ne by discriminate;
      destruct (fl_value_lookup_string (FlMap entries) "$elements") as [[] |];
      rewrite ?member_set_member_ne by discriminate; reflexivity.
Qed.

(** X23.  [capture] with an event name, on a plugin that is set up and not opted
    out, below the flush threshold: the distinct id and the session id are
    read (and generated and stored if missing), exactly one row is added at
    the end of the queue, holding the serialised event with these ids and the
    stored super properties, and nothing is sent. *)
Theorem capture_queues_one_event (lib : library) (e : env) (args : FlValue)
    (p : Plugin.t) (storage : StorageManager.t) (event_name : string) :
  initialized p = true -> opt_out p = false ->
  storage_manager p = Some storage -> db_ storage = true ->
  lookup_fl_string args "eventName" = Some event_name ->
  has_id (fresh_row_id e) (events storage) = false ->
  Z.of_nat (List.length (events storage)) + 1 < flush_at p ->
  Z.of_nat (List.length (events storage)) + 1 < 2 ^ 31 ->
  exists storage' : StorageManager.t,
    handle_capture lib e args p = Returns (with_storage p storage')
    /\ http_client (with_storage p storage') = http_client p
    /\ GetDistinctId storage'
       = (if String.eqb (GetDistinctId storage) EmptyString
          then fresh_distinct_id e else GetDistinctId storage)
    /\ GetSessionId storage'
       = (if String.eqb (GetSessionId storage) EmptyString
          then fresh_session_id e else GetSessionId storage)
    /\ events storage'
       = events storage
         ++ [queued_row lib e
               (capture_event lib e args event_name (GetDistinctId storage')
                  (GetSessionId storage') (GetAllSuperProperties storage))].
Proof.
  intros Hinit Hopt Hs Hdb Hname Hid Hbelow Hint.
  unfold handle_capture. rewrite Hinit, Hopt, Hname, Hs. cbn [negb orb].
  destruct (get_or_create_distinct_id_spec e storage Hdb)
    as (Hfst1 & Hd1 & Hdb1 & Hev1 & Hsp1 & Hsid1 & _).
  destruct (get_or_create_distinct_id e storage) as [d s1]. cbn [fst snd] in *.
  destruct (get_or_create_session_id_spec e s1 Hdb1)
    as (Hfst2 & Hsid2 & Hdb2 & Hev2 & Hsp2 & Hd2 & _).
  destruct (get_or_create_session_id e s1) as [sid s2]. cbn [fst snd] in *.
  assert (Hsuper : GetAllSuperProperties s2 = GetAllSuperProperties storage)
    by (unfold GetAllSuperProperties; now rewrite Hdb2, Hdb, Hsp2, Hsp1).
  rewrite Hsuper.
  set (event := capture_event lib e args event_name d sid
                  (GetAllSuperProperties storage)).
  destruct (enqueue_frame lib e event s2) as (Hdb3 & _ & _ & Hrow).
  destruct (enqueue_getters lib e event s2) as (Hd3 & Hsid3 & _).
  specialize (Hrow Hdb2). rewrite Hev2, Hev1 in Hrow. specialize (Hrow Hid).
  assert (Hsize : GetQueueSize (enqueue lib e event s2)
                  = Z.of_nat (List.length (events storage)) + 1).
  { unfold GetQueueSize. rewrite Hdb3, Hdb2, Hrow. cbn [negb].
    rewrite length_app. cbn [List.length].
    rewrite int_of_int64_small by lia. lia. }
  unfold inline_flush. rewrite Hsize.
  destruct (Z.leb_spec (flush_at p) (Z.of_nat (List.length (events storage)) + 1))
    as [Hle | _]; [lia |].
  exists (enqueue lib e event s2).
  split; [reflexivity |]. split; [reflexivity |].
  rewrite Hd3, Hsid3, Hd2, Hsid2, Hd1, Hfst1, Hfst2, Hsid1.
  split; [reflexivity |]. split; [reflexivity |].
  rewrite Hrow. subst event. now rewrite Hfst1, Hfst2, Hsid1.
Qed.

Lemma capture_queues_one_event_witness :
  exists storage' : StorageManager.t,
    handle_capture Examples.lib (Examples.world 200 1)
      (FlMap [(FlString "eventName", FlString "clicked")])
      (Examples.plugin_after_setup false)
    = Returns (with_storage (Examples.plugin_after_setup false) storage')
    /\ List.length (events storage') = 2%nat.
Proof.
  destruct (capture_queues_one_event Examples.lib (Examples.world 200 1)
              (FlMap [(FlString "eventName", FlString "clicked")])
              (Examples.plugin_after_setup false)
              (default fresh (storage_manager (Examples.plugin_after_setup false)))
              "clicked" eq_refl eq_refl eq_refl eq_refl eq_refl eq_refl
              eq_refl eq_refl)
    as (storage' & Hcall & _ & _ & _ & Hev).
  exists storage'. split; [exact Hcall |]. now rewrite Hev.
Defined.

End CaptureFacts.

(** ** Sessions: [createNewSession] and [getSessionId] *)

Section SessionFacts.
Import Plugin StorageManager.

Lemma getSessionId_call (lib : library) (e : env) (args : FlValue) (p : Plugin.t) :
  handle_method_call lib e "getSessionId" args p
  = match storage_manager p with
    | Some storage =>
      let '(session_id, storage) := get_or_create_session_id e storage in
      Returns (with_storage p storage, reply_string session_id)
    | None => Returns (p, Success None)
    end.
Proof. reflexivity. Qed.

(** X24.  [createNewSession] on a plugin that is set up stores a newly drawn
    session id in place of the old one and queues one [$screen] event
    "Session Started" carrying it; the distinct id is kept (or generated if
    the store has none).  [getSessionId] then answers with the new id, and
    keeps answering with it: it draws an id only when none is stored. *)
Theorem createNewSession_rotates_session (lib : library) (e : env)
    (args : FlValue) (p : Plugin.t) (storage : StorageManager.t) :
  initialized p = true ->
  storage_manager p = Some storage -> db_ storage = true ->
  fresh_session_id e <> EmptyString ->
  exists storage' : StorageManager.t,
    handle_method_call lib e "createNewSession" args p
    = Returns (with_storage p storage', Success None)
    /\ GetSessionId storage' = fresh_session_id e
    /\ GetDistinctId storage'
       = (if String.eqb (GetDistinctId storage) EmptyString
          then fresh_distinct_id e else GetDistinctId storage)
    /\ (has_id (fresh_row_id e) (events storage) = false ->
        events storage'
        = events storage
          ++ [queued_row lib e
                (session_event e "Session Started" (GetDistinctId storage')
                   (fresh_session_id e))])
    /\ (forall (e' : env) (args' : FlValue),
           handle_method_call lib e' "getSessionId" args' (with_storage p storage')
           = Returns (with_storage p storage',
                      Success (Some (FlString (fresh_session_id e))))).
Proof.
  intros Hinit Hs Hdb Hne.
  assert (Hcall : handle_method_call lib e "createNewSession" args p
                  = answer_null (Returns (handle_createNewSession lib e p)))
    by reflexivity.
  rewrite Hcall. unfold handle_createNewSession. rewrite Hs, Hinit. cbn [negb].
  destruct (SetSessionId_spec (fresh_session_id e) storage Hdb)
    as (Hsid1 & Hdb1 & Hev1 & _ & Hd1 & _).
  set (s1 := snd (SetSessionId (fresh_session_id e) storage)) in *.
  destruct (get_or_create_distinct_id_spec e s1 Hdb1)
    as (Hfst & Hd2 & Hdb2 & Hev2 & _ & Hsid2 & _).
  destruct (get_or_create_distinct_id e s1) as [d s2]. cbn [fst snd] in *.
  set (event := session_event e "Session Started" d (fresh_session_id e)).
  destruct (enqueue_frame lib e event s2) as (_ & _ & _ & Hrow).
  destruct (enqueue_getters lib e event s2) as (Hd3 & Hsid3 & _).
  exists (enqueue lib e event s2).
  split; [reflexivity |].
  split; [congruence |].
  split; [rewrite Hd3, Hd2, Hfst, Hd1; reflexivity |].
  split.
  - intros Hid. rewrite Hd3, Hd2.
    rewrite Hrow by (rewrite ?Hev2, ?Hev1; assumption).
    now rewrite Hev2, Hev1.
  - intros e' args'. rewrite getSessionId_call.
    cbn [storage_manager with_storage]. unfold get_or_create_session_id.
    rewrite Hsid3, Hsid2, Hsid1.
    apply String.eqb_neq in Hne. rewrite Hne.
    unfold reply_string. now rewrite Hne.
Qed.

Lemma createNewSession_rotates_session_witness :
  exists storage' : StorageManager.t,
    handle_method_call Examples.lib (Examples.world 200 1) "createNewSession"
      FlNull (Examples.plugin_after_setup false)
    = Returns (with_storage (Examples.plugin_after_setup false) storage',
               Success None)
    /\ GetSessionId storage' = "22222222-2222-4222-8222-222222222222".
Proof.
  destruct (createNewSession_rotates_session Examples.lib (Examples.world 200 1)
              FlNull (Examples.plugin_after_setup false)
              (default fresh (storage_manager (Examples.plugin_after_setup false)))
              eq_refl eq_refl eq_refl ltac:(discriminate))
    as (storage' & Hcall & Hsid & _).
  exists storage'. split; assumption.
Defined.

End SessionFacts.

(** ** Super properties in events: [register], [unregister], [capture] *)

Section RegisteredPropertyFacts.
Import Plugin StorageManager.

(** The JSON value a stored super property gives to an event. *)
Definition super_property_value (lib : library) (text : string) : json :=
  match json_parse lib text with
  | Some prop_value => prop_value
  | None => JString text
  end.

Lemma add_super_properties_lookup (lib : library)
    (super_props : list (string * string)) (j : json) (k : string) :
  StronglySorted key_lt super_props -> is_object j = true ->
  member (add_super_properties lib super_props j) k
  = match map_get k super_props with
    | Some text => Some (super_property_value lib text)
    | None => member j k
    end.
Proof.
  intros Hsorted. revert j.
  induction Hsorted as [| [k0 v0] l Hl IH Hall]; intros j Hj; [reflexivity |].
  cbn [map_get].
  change (add_super_properties lib ((k0, v0) :: l) j)
    with (add_super_properties lib l
            (match json_parse lib v0 with
             | Some prop_value => set_member j k0 prop_value
             | None => set_member j k0 (JString v0)
             end)).
  destruct (String.eqb_spec k k0) as [-> | Hne].
  - rewrite add_super_properties_other.
    + unfold super_property_value.
      destruct (json_parse lib v0); now apply member_set_member_eq.
    + intros Hin. apply in_map_iff in Hin as ([k1 v1] & Hk & Hin).
      cbn [fst] in Hk. subst k1.
      rewrite List.Forall_forall in Hall. specialize (Hall _ Hin).
      unfold key_lt in Hall. cbn [fst] in Hall.
      now rewrite string_compare_refl in Hall.
  - rewrite IH by (destruct (json_parse lib v0); now apply set_member_is_object).
    destruct (map_get k l); [reflexivity |].
    destruct (json_parse lib v0); now apply member_set_member_ne.
Qed.

(** The text [register] stores for a string value: the value between
    double quotes, with no escaping. *)
Definition quoted_value (value : string) : string :=
  String dquote value +:+ String dquote EmptyString.

Lemma SetSuperProperty_spec (k text : string) (s : StorageManager.t) :
  db_ s = true ->
  db_ (snd (SetSuperProperty k text s)) = true
  /\ events (snd (SetSuperProperty k text s)) = events s
  /\ settings (snd (SetSuperProperty k text s)) = settings s
  /\ super_properties (snd (SetSuperProperty k text s))
     = <[k := text]> (super_properties s).
Proof. intros Hdb. unfold SetSuperProperty. rewrite Hdb. cbn. auto. Qed.

Lemma RemoveSuperProperty_spec (k : string) (s : StorageManager.t) :
  db_ s = true ->
  db_ (snd (RemoveSuperProperty k s)) = true
  /\ events (snd (RemoveSuperProperty k s)) = events s
  /\ settings (snd (RemoveSuperProperty k s)) = settings s
  /\ super_properties (snd (RemoveSuperProperty k s))
     = delete k (super_properties s).
Proof. intros Hdb. unfold RemoveSuperProperty. rewrite Hdb. cbn. auto. Qed.

(** X25.  [register] with a string key and a value, on a plugin with an open
    store.  A value that is not a string is read as a string all the same,
    which is undefined.  A string value is stored between double quotes under
    the key, next to the other super properties; every event [capture] builds
    from then on carries it under that key (parsed as JSON, or as the quoted
    text itself when that does not parse), unless the key is one of the
    extracted names; [unregister] with the key removes it again and leaves
    the others. *)
Theorem registered_property_reaches_events (lib : library) (e : env)
    (entries : list (FlValue * FlValue)) (p : Plugin.t)
    (storage : StorageManager.t) (k : string) (value_value : FlValue) :
  storage_manager p = Some storage -> db_ storage = true ->
  fl_value_lookup_string (FlMap entries) "key" = Some (FlString k) ->
  fl_value_lookup_string (FlMap entries) "value" = Some value_value ->
  (fl_value_get_string value_value = None ->
   handle_method_call lib e "register" (FlMap entries) p = Undefined)
  /\ (forall v : string,
         value_value = FlString v ->
         exists storage' : StorageManager.t,
           handle_method_call lib e "register" (FlMap entries) p
           = Returns (with_storage p storage', Success None)
           /\ events storage' = events storage
           /\ settings storage' = settings storage
           /\ map_get k (GetAllSuperProperties storage') = Some (quoted_value v)
           /\ (forall k' : string,
                  k' <> k ->
                  map_get k' (GetAllSuperProperties storage')
                  = map_get k' (GetAllSuperProperties storage))
           /\ (forall (e' : env) (args' : FlValue)
                      (event_name distinct_id session_id : string),
                  ~ In k extracted_names ->
                  member (posthog.properties
                            (capture_event lib e' args' event_name distinct_id
                               session_id (GetAllSuperProperties storage'))) k
                  = Some (super_property_value lib (quoted_value v)))
           /\ (forall (e' : env) (entries' : list (FlValue * FlValue)),
                  fl_value_lookup_string (FlMap entries') "key"
                  = Some (FlString k) ->
                  exists storage'' : StorageManager.t,
                    handle_method_call lib e' "unregister" (FlMap entries')
                      (with_storage p storage')
                    = Returns (with_storage p storage'', Success None)
                    /\ map_get k (GetAllSuperProperties storage'') = None
                    /\ (forall k' : string,
                           k' <> k ->
                           map_get k' (GetAllSuperProperties storage'')
                           = map_get k' (GetAllSuperProperties storage)))).
Proof.
  intros Hs Hdb Hkey Hvalue.
  assert (Hcall : handle_method_call lib e "register" (FlMap entries) p
                  = answer_null (handle_register (FlMap entries) p))
    by reflexivity.
  rewrite Hcall. unfold handle_register. rewrite Hkey, Hvalue, Hs.
  cbn [fl_value_get_string].
  split; [now intros -> |].
  intros v ->. cbn [fl_value_get_string answer_null].
  fold (quoted_value v).
  destruct (SetSuperProperty_spec k (quoted_value v) storage Hdb)
    as (Hdb1 & Hev1 & Hset1 & Hsp1).
  set (s1 := snd (SetSuperProperty k (quoted_value v) storage)) in *.
  destruct (GetAllSuperProperties_spec storage Hdb) as (_ & Hget0 & _).
  destruct (GetAllSuperProperties_spec s1 Hdb1) as (Hsorted1 & Hget1 & _).
  assert (Hk1 : map_get k (GetAllSuperProperties s1) = Some (quoted_value v))
    by (now rewrite Hget1, Hsp1, lookup_insert_eq).
  exists s1.
  split; [reflexivity |]. split; [exact Hev1 |]. split; [exact Hset1 |].
  split; [exact Hk1 |]. split; [| split].
  - intros k' Hne. now rewrite Hget1, Hget0, Hsp1, lookup_insert_ne.
  - intros e' args' event_name distinct_id session_id Hk.
    rewrite capture_event_other by exact Hk. unfold base_properties.
    rewrite add_super_properties_lookup, Hk1; [reflexivity | exact Hsorted1 |].
    unfold session_properties. apply set_member_is_object. now destruct (negb _).
  - intros e' entries' Hkey'.
    assert (Hcall' : handle_method_call lib e' "unregister" (FlMap entries')
                       (with_storage p s1)
                     = answer_null
                         (handle_unregister (FlMap entries') (with_storage p s1)))
      by reflexivity.
    rewrite Hcall'. unfold handle_unregister. rewrite Hkey'.
    cbn [storage_manager with_storage fl_value_get_string answer_null].
    destruct (RemoveSuperProperty_spec k s1 Hdb1) as (Hdb2 & _ & _ & Hsp2).
    destruct (GetAllSuperProperties_spec _ Hdb2) as (_ & Hget2 & _).
    exists (snd (RemoveSuperProperty k s1)).
    split; [reflexivity |]. split.
    + now rewrite Hget2, Hsp2, lookup_delete_eq.
    + intros k' Hne.
      now rewrite Hget2, Hget0, Hsp2, lookup_delete_ne, Hsp1, lookup_insert_ne.
Qed.

Lemma registered_property_reaches_events_witness :
  exists storage' : StorageManager.t,
    handle_method_call Examples.lib (Examples.world 200 1) "register"
      (FlMap [(FlString "key", FlString "plan"); (FlString "value", FlString "pro")])
      (Examples.plugin_after_setup false)
    = Returns (with_storage (Examples.plugin_after_setup false) storage',
               Success None)
    /\ map_get "plan" (GetAllSuperProperties storage') = Some (quoted_value "pro").
Proof.
  destruct (registered_property_reaches_events Examples.lib (Examples.world 200 1)
              [(FlString "key", FlString "plan"); (FlString "value", FlString "pro")]
              (Examples.plugin_after_setup false)
              (default fresh (storage_manager (Examples.plugin_after_setup false)))
              "plan" (FlString "pro") eq_refl eq_refl eq_refl eq_refl)
    as [_ Hreg].
  destruct (Hreg "pro" eq_refl) as (storage' & Hcall & _ & _ & Hget & _).
  exists storage'. split; assumption.
Defined.

End RegisteredPropertyFacts.

(** ** Handlers that are guarded, and [screen] *)

Section GuardFacts.
Import Plugin StorageManager.

(** The methods that test the state of the plugin before they act. *)
Definition guarded_methods : list string :=
  ["capture"; "identify"; "screen"; "group"; "captureException"; "flush";
   "reloadFeatureFlags"].

(** X26.  Before [setup] has succeeded, and while the user has opted out, each
    guarded method answers null and leaves the plugin (its queue, its
    settings, its HTTP client) exactly as it was, whatever its arguments; so
    does a turn of the flush worker. *)
Theorem guarded_methods_do_nothing (lib : library) (e : env) (args : FlValue)
    (p : Plugin.t) :
  initialized p = false \/ opt_out p = true ->
  Forall (fun method =>
            handle_method_call lib e method args p = Returns (p, Success None))
         guarded_methods
  /\ snd (flush_events_thread_iteration lib e p) = p.
Proof.
  intros Hguard.
  assert (Hor : negb (initialized p) || opt_out p = true)
    by (destruct Hguard as [-> | ->]; [reflexivity | apply orb_true_r]).
  assert (Hand : initialized p && negb (opt_out p) = false)
    by (destruct Hguard as [-> | ->]; [reflexivity | apply andb_false_r]).
  assert (Hor' : opt_out p || negb (initialized p) = true)
    by (now rewrite orb_comm).
  split.
  - unfold guarded_methods.
    repeat (constructor;
            [cbv beta iota delta [handle_method_call String.eqb Ascii.eqb Bool.eqb]
            |]).
    + unfold handle_capture. now rewrite Hor.
    + unfold handle_identify. now rewrite Hor.
    + unfold handle_screen. now rewrite Hor.
    + unfold handle_group. rewrite Hand.
      destruct args; try reflexivity.
      destruct (fl_value_lookup_string _ "groupType"); [| reflexivity].
      destruct (fl_value_lookup_string _ "groupKey"); [| reflexivity].
      now destruct (storage_manager p).
    + unfold handle_captureException. rewrite Hand.
      destruct args; try reflexivity. now destruct (storage_manager p).
    + unfold handle_flush. rewrite Hand. now destruct (storage_manager p).
    + unfold handle_reloadFeatureFlags. rewrite Hand.
      destruct (feature_flags_manager p); [| reflexivity].
      now destruct (storage_manager p).
    + constructor.
  - unfold flush_events_thread_iteration. rewrite Hor'.
    destruct (should_flush p); [| reflexivity].
    destruct (storage_manager p); [| reflexivity].
    now destruct (http_client p).
Qed.

Lemma guarded_methods_do_nothing_witness :
  Forall (fun method =>
            handle_method_call Examples.lib (Examples.world 200 1) method
              (FlMap [(FlString "eventName", FlString "clicked")]) Plugin.init
            = Returns (Plugin.init, Success None))
         guarded_methods
  /\ snd (flush_events_thread_iteration Examples.lib (Examples.world 200 1)
            Plugin.init) = Plugin.init.
Proof.
  apply (guarded_methods_do_nothing Examples.lib (Examples.world 200 1)
           (FlMap [(FlString "eventName", FlString "clicked")]) Plugin.init).
  left. reflexivity.
Defined.

(** The properties of a [$screen] event. *)
Definition screen_properties (screen_name session_id : string) : json :=
  JObject
    ([("$device_type", JString "Mobile"); ("$lib", JString "posthog-flutter");
      ("$lib_version", JString "5.9.0"); ("$os", JString "Linux");
      ("$os_version", JString "Unknown"); ("$screen_height", JInt 600);
      ("$screen_name", JString screen_name); ("$screen_width", JInt 1024)]
       ++ (if String.eqb session_id EmptyString then []
           else [("$session_id", JString session_id)])
       ++ [("$window_id", JString "main")]).

(** X27.  [screen] with a screen name, on a plugin that is set up and not opted
    out, queues one [$screen] event for the distinct id, with the screen
    name, the fixed library properties and the session id: super properties
    are not added to it, and however long the queue is nothing is sent. *)
Theorem screen_queues_screen_event (lib : library) (e : env) (args : FlValue)
    (p : Plugin.t) (storage : StorageManager.t) (screen_name : string) :
  initialized p = true -> opt_out p = false ->
  storage_manager p = Some storage -> db_ storage = true ->
  lookup_fl_string args "screenName" = Some screen_name ->
  exists storage' : StorageManager.t,
    handle_screen lib e args p = Returns (with_storage p storage')
    /\ GetDistinctId storage'
       = (if String.eqb (GetDistinctId storage) EmptyString
          then fresh_distinct_id e else GetDistinctId storage)
    /\ GetSessionId storage'
       = (if String.eqb (GetSessionId storage) EmptyString
          then fresh_session_id e else GetSessionId storage)
    /\ super_properties storage' = super_properties storage
    /\ (has_id (fresh_row_id e) (events storage) = false ->
        events storage'
        = events storage
          ++ [queued_row lib e
                {| posthog.event := "$screen";
                   posthog.distinct_id := GetDistinctId storage';
                   posthog.timestamp := now_ms e;
                   posthog.properties :=
                     screen_properties screen_name (GetSessionId storage') |}]).
Proof.
  intros Hinit Hopt Hs Hdb Hname.
  unfold handle_screen. rewrite Hinit, Hopt, Hname, Hs. cbn [negb orb].
  destruct (get_or_create_distinct_id_spec e storage Hdb)
    as (Hfst1 & Hd1 & Hdb1 & Hev1 & Hsp1 & Hsid1 & _).
  destruct (get_or_create_distinct_id e storage) as [d s1]. cbn [fst snd] in *.
  destruct (get_or_create_session_id_spec e s1 Hdb1)
    as (Hfst2 & Hsid2 & Hdb2 & Hev2 & Hsp2 & Hd2 & _).
  destruct (get_or_create_session_id e s1) as [sid s2]. cbn [fst snd] in *.
  assert (Hprops : session_properties sid
                     (library_properties
                        (set_member JNull "$screen_name" (JString screen_name)))
                   = screen_properties screen_name sid).
  { unfold session_properties, screen_properties.
    now destruct (String.eqb sid EmptyString). }
  rewrite Hprops.
  set (event := {| posthog.event := "$screen"; posthog.distinct_id := d;
                   posthog.timestamp := now_ms e;
                   posthog.properties := screen_properties screen_name sid |}).
  destruct (enqueue_frame lib e event s2) as (_ & _ & Hsp3 & Hrow).
  destruct (enqueue_getters lib e event s2) as (Hd3 & Hsid3 & _).
  exists (enqueue lib e event s2).
  split; [reflexivity |].
  rewrite Hd3, Hsid3, Hd2, Hsid2, Hd1, Hfst1, Hfst2, Hsid1.
  split; [reflexivity |]. split; [reflexivity |].
  split; [congruence |].
  intros Hid. rewrite Hrow by (rewrite ?Hev2, ?Hev1; assumption).
  rewrite Hev2, Hev1. subst event. now rewrite Hfst1, Hfst2, Hsid1.
Qed.

Lemma screen_queues_screen_event_witness :
  exists storage' : StorageManager.t,
    handle_screen Examples.lib (Examples.world 200 1)
      (FlMap [(FlString "screenName", FlString "Home")])
      (Examples.plugin_after_setup false)
    = Returns (with_storage (Examples.plugin_after_setup false) storage')
    /\ List.length (events storage') = 2%nat.
Proof.
  destruct (screen_queues_screen_event Examples.lib (Examples.world 200 1)
              (FlMap [(FlString "screenName", FlString "Home")])
              (Examples.plugin_after_setup false)
              (default fresh (storage_manager (Examples.plugin_after_setup false)))
              "Home" eq_refl eq_refl eq_refl eq_refl eq_refl)
    as (storage' & Hcall & _ & _ & _ & Hev).
  exists storage'. split; [exact Hcall |]. now rewrite (Hev eq_refl).
Defined.

End GuardFacts.

(** ** Flag queries through the method channel *)

Section FlagQueryFacts.
Import Plugin.

Definition flag_query_methods : list string :=
  ["isFeatureEnabled"; "getFeatureFlag"; "getFeatureFlagPayload"].

Lemma flag_query_call (lib : library) (e : env) (method : string)
    (args : FlValue) (p : Plugin.t) :
  In method flag_query_methods ->
  handle_method_call lib e method args p
  = match flag_query method args p with
    | Returns r => Returns (p, r)
    | _ => Undefined
    end.
Proof. intros [<- | [<- | [<- | []]]]; reflexivity. Qed.

(** The three flag queries never change the plugin.  Without a [key] in the
    arguments (or with arguments that are no map) they answer null, also
    [isFeatureEnabled]; with a key but no flags manager [isFeatureEnabled]
    answers [false] and the others null.  With a string key and a flags
    manager, [isFeatureEnabled] answers with [IsFeatureEnabled],
    [getFeatureFlag] with [GetFeatureFlag] (null when that is the empty
    string, as for an unknown flag) and [getFeatureFlagPayload] always with
    null; a key that is not a string is read as a string, which is
    undefined. *)
Theorem flag_queries_answer (lib : library) (e : env) (args : FlValue)
    (p : Plugin.t) :
  (forall (method : string) (p' : Plugin.t) (r : reply),
      In method flag_query_methods ->
      handle_method_call lib e method args p = Returns (p', r) -> p' = p)
  /\ (fl_value_lookup_string args "key" = None ->
      forall method : string,
        In method flag_query_methods ->
        handle_method_call lib e method args p = Returns (p, Success None))
  /\ (forall key_value : FlValue,
         fl_value_lookup_string args "key" = Some key_value ->
         feature_flags_manager p = None ->
         handle_method_call lib e "isFeatureEnabled" args p
         = Returns (p, Success (Some (FlBool false)))
         /\ handle_method_call lib e "getFeatureFlag" args p
            = Returns (p, Success None)
         /\ handle_method_call lib e "getFeatureFlagPayload" args p
            = Returns (p, Success None))
  /\ (forall (key : string) (flags : FeatureFlagsManager.t),
         fl_value_lookup_string args "key" = Some (FlString key) ->
         feature_flags_manager p = Some flags ->
         handle_method_call lib e "isFeatureEnabled" args p
         = Returns (p, Success (Some (FlBool
                      (FeatureFlagsManager.IsFeatureEnabled key flags))))
         /\ handle_method_call lib e "getFeatureFlag" args p
            = Returns (p, reply_string (FeatureFlagsManager.GetFeatureFlag key flags))
         /\ (FeatureFlagsManager.flags_cache_ flags !! key = None ->
             handle_method_call lib e "getFeatureFlag" args p
             = Returns (p, Success None))
         /\ handle_method_call lib e "getFeatureFlagPayload" args p
            = Returns (p, Success None))
  /\ (forall (key_value : FlValue) (flags : FeatureFlagsManager.t)
             (method : string),
         fl_value_lookup_string args "key" = Some key_value ->
         fl_value_get_string key_value = None ->
         feature_flags_manager p = Some flags ->
         In method flag_query_methods ->
         handle_method_call lib e method args p = Undefined).
Proof.
  split; [| split; [| split; [| split]]].
  - intros method p' r Hin. rewrite (flag_query_call _ _ _ _ _ Hin).
    destruct (flag_query method args p); [| discriminate ..].
    now intros [= <- _].
  - intros Hnone method Hin. rewrite (flag_query_call _ _ _ _ _ Hin).
    unfold flag_query.
    destruct args; try reflexivity. now rewrite Hnone.
  - intros key_value Hkey Hnone.
    assert (Hmap : exists entries, args = FlMap entries)
      by (destruct args; try discriminate; eauto).
    destruct Hmap as [entries ->].
    rewrite !flag_query_call by (cbn; tauto).
    unfold flag_query. now rewrite Hkey, Hnone.
  - intros key flags Hkey Hflags.
    assert (Hmap : exists entries, args = FlMap entries)
      by (destruct args; try discriminate; eauto).
    destruct Hmap as [entries ->].
    rewrite !flag_query_call by (cbn; tauto).
    unfold flag_query. rewrite Hkey, Hflags. cbn [fl_value_get_string].
    repeat split.
    intros Hmissing. unfold FeatureFlagsManager.GetFeatureFlag.
    now rewrite Hmissing.
  - intros key_value flags method Hkey Hnot Hflags Hin.
    assert (Hmap : exists entries, args = FlMap entries)
      by (destruct args; try discriminate; eauto).
    destruct Hmap as [entries ->].
    rewrite (flag_query_call _ _ _ _ _ Hin).
    unfold flag_query. now rewrite Hkey, Hflags, Hnot.
Qed.

End FlagQueryFacts.

(** ** The limit of a drain *)

Section LimitFacts.
Import StorageManager.
Local Open Scope Z_scope.

(** X28.  [GetQueuedEvents] on an open database returns as many strings as the
    limit allows: all rows for a negative limit (SQLite sets no bound then),
    none for the limit 0, otherwise the limit or the number of rows if that
    is smaller; on a closed database it returns none.  With a batch size of 0
    a flush therefore posts nothing and removes nothing. *)
Theorem GetQueuedEvents_limit (n : Z) (s : StorageManager.t) :
  List.length (GetQueuedEvents n s)
  = (if db_ s
     then if n <? 0 then List.length (events s)
          else Nat.min (Z.to_nat n) (List.length (events s))
     else 0%nat)
  /\ (forall (lib : library) (e : Plugin.env) (http : option HttpClient.t),
         Plugin.drain_post_remove lib e http s 0 = Returns (http, s)).
Proof.
  split.
  - unfold GetQueuedEvents. destruct (db_ s); cbn [negb]; [| reflexivity].
    rewrite length_map. unfold selected_rows, limit.
    destruct (order_by_created_at_spec (events s)) as (Hperm & _).
    apply Permutation_length in Hperm.
    destruct (n <? 0); [now rewrite Hperm |].
    now rewrite length_firstn, Hperm.
  - intros lib e http. unfold Plugin.drain_post_remove, GetQueuedEvents.
    destruct (db_ s); reflexivity.
Qed.

End LimitFacts.

(** ** The PNG header parser of the replay pipeline *)

Section PngHeaderFacts.
Local Open Scope Z_scope.

(** The [int] with the given 32-bit pattern. *)
Definition int_of_bits (z : Z) : Z := (z + 2 ^ 31) mod 2 ^ 32 - 2 ^ 31.

(** [(b0 << 24) | (b1 << 16) | (b2 << 8) | b3] on bytes promoted to [int]:
    only the first shift can reach the sign bit. *)
Definition big_endian_int (b0 b1 b2 b3 : Z) : Z :=
  Z.lor (Z.lor (Z.lor (int_of_bits (Z.shiftl b0 24)) (Z.shiftl b1 16))
               (Z.shiftl b2 8)) b3.

(** [ParsePngDimensions], a static function of [session_replay_manager.cc];
    [width] and [height] are its reference parameters, returned after the
    result.  The size test keeps every index below inside the vector. *)
Definition ParsePngDimensions (png_data : list byte) (width height : Z)
  : bool * Z * Z :=
  let at_ (i : nat) : Z := byte_val (nth i png_data x00) in
  if Z.of_nat (List.length png_data) <? 24 then (false, width, height)
  else if negb (at_ 0%nat =? 137) || negb (at_ 1%nat =? 80)
          || negb (at_ 2%nat =? 78) || negb (at_ 3%nat =? 71)
  then (false, width, height)
  else
    let width := big_endian_int (at_ 16%nat) (at_ 17%nat) (at_ 18%nat)
                   (at_ 19%nat) in
    let height := big_endian_int (at_ 20%nat) (at_ 21%nat) (at_ 22%nat)
                    (at_ 23%nat) in
    ((0 <? width) && (0 <? height) && (width <? 100000) && (height <? 100000),
     width, height).

(** The byte with the given value (modulo 256). *)
Definition byte_of (z : Z) : byte :=
  default x00 (Byte.of_N (Z.to_N (z mod 256))).

(** The four bytes of a 32-bit pattern, most significant first. *)
Definition big_endian_bytes (z : Z) : list byte :=
  [byte_of (z / 2 ^ 24); byte_of (z / 2 ^ 16); byte_of (z / 2 ^ 8); byte_of z].

(** A PNG file as far as [ParsePngDimensions] reads it: the first four bytes
    of the signature, twelve bytes it skips (the rest of the signature, the
    length and the name of the first chunk), width and height, and the rest. *)
Definition png_with_size (skipped : list byte) (w h : Z) (rest : list byte)
  : list byte :=
  [x89; x50; x4e; x47] ++ skipped ++ big_endian_bytes w ++ big_endian_bytes h
    ++ rest.

Lemma byte_val_byte_of (z : Z) : byte_val (byte_of z) = z mod 256.
Proof.
  unfold byte_of, byte_val.
  pose proof (Z.mod_pos_bound z 256 ltac:(lia)) as Hr.
  destruct (Byte.of_N (Z.to_N (z mod 256))) as [b |] eqn:Hb.
  - change (Z.of_N (Byte.to_N b) = z mod 256).
    apply Byte.to_of_N in Hb. rewrite Hb. lia.
  - apply Byte.of_N_None_iff in Hb. lia.
Qed.

Lemma big_endian_int_value (b0 b1 b2 b3 : Z) :
  0 <= b0 < 256 -> 0 <= b1 < 256 -> 0 <= b2 < 256 -> 0 <= b3 < 256 ->
  big_endian_int b0 b1 b2 b3
  = (if b0 <? 128 then b0 else b0 - 256) * 2 ^ 24
    + b1 * 2 ^ 16 + b2 * 2 ^ 8 + b3.
Proof.
  intros H0 H1 H2 H3. unfold big_endian_int.
  assert (Hhigh : int_of_bits (Z.shiftl b0 24)
                  = Z.shiftl (if b0 <? 128 then b0 else b0 - 256) 24).
  { unfold int_of_bits. rewrite !Z.shiftl_mul_pow2 by lia.
    destruct (Z.ltb_spec b0 128).
    - rewrite Z.mod_small by lia. lia.
    - replace (b0 * 2 ^ 24 + 2 ^ 31)
        with (b0 * 2 ^ 24 - 2 ^ 31 + 1 * 2 ^ 32) by lia.
      rewrite Z.mod_add by lia. rewrite Z.mod_small by lia. lia. }
  rewrite Hhigh, <- !Z.lor_assoc.
  rewrite (lor_shiftl_add b2 b3 8) by lia.
  rewrite (lor_shiftl_add b1 (b2 * 2 ^ 8 + b3) 16) by lia.
  rewrite lor_shiftl_add by lia. lia.
Qed.

Lemma big_endian_int_bytes (z : Z) :
  0 <= z < 2 ^ 31 ->
  big_endian_int (z / 2 ^ 24 mod 256) (z / 2 ^ 16 mod 256) (z / 2 ^ 8 mod 256)
    (z mod 256) = z.
Proof.
  intros Hz.
  rewrite big_endian_int_value by (apply Z.mod_pos_bound; lia).
  assert (Hsmall : ((z / 2 ^ 24) mod 256 <? 128) = true).
  { apply Z.ltb_lt. rewrite Z.mod_small.
    - apply Z.div_lt_upper_bound; lia.
    - split; [apply Z.div_pos; lia | apply Z.div_lt_upper_bound; lia]. }
  rewrite Hsmall.
  change (2 ^ 24) with 16777216. change (2 ^ 16) with 65536.
  change (2 ^ 8) with 256.
  Z.to_euclidean_division_equations. lia.
Qed.

Lemma byte_val_inj (b : byte) (z : Z) (b' : byte) :
  byte_val b = z -> Base64Reference.octet z = Some b' -> b = b'.
Proof. intros <-. rewrite octet_byte_val. now intros [= ->]. Qed.

(** X29.  [ParsePngDimensions] fails, leaving width and height alone, on fewer
    than 24 bytes.  When it succeeds, both numbers lie strictly between 0 and
    100000 and the data begin with the bytes 89 50 4E 47.  On data that
    begin with these four bytes and hold a width and a height (below 2^31)
    at the bytes 16 to 23, it stores the two numbers, whatever the twelve
    bytes in between are, and succeeds exactly when both lie in that
    range. *)
Theorem ParsePngDimensions_reads_header :
  (forall (png_data : list byte) (width height : Z),
      Z.of_nat (List.length png_data) < 24 ->
      ParsePngDimensions png_data width height = (false, width, height))
  /\ (forall (png_data : list byte) (width height width' height' : Z),
         ParsePngDimensions png_data width height = (true, width', height') ->
         0 < width' < 100000 /\ 0 < height' < 100000
         /\ 24 <= Z.of_nat (List.length png_data)
         /\ firstn 4 png_data = [x89; x50; x4e; x47])
  /\ (forall (skipped : list byte) (w h : Z) (rest : list byte)
             (width height : Z),
         List.length skipped = 12%nat ->
         0 <= w < 2 ^ 31 -> 0 <= h < 2 ^ 31 ->
         ParsePngDimensions (png_with_size skipped w h rest) width height
         = ((0 <? w) && (0 <? h) && (w <? 100000) && (h <? 100000), w, h)).
Proof.
  split; [| split].
  - intros png_data width height Hshort. unfold ParsePngDimensions.
    destruct (Z.ltb_spec (Z.of_nat (List.length png_data)) 24); [reflexivity | lia].
  - intros png_data width height width' height'. unfold ParsePngDimensions.
    destruct (Z.ltb_spec (Z.of_nat (List.length png_data)) 24) as [| Hlen];
      [discriminate |].
    destruct (_ || _) eqn:Hsig; [discriminate |].
    intros [= Hok <- <-].
    apply andb_prop in Hok as [Hok Hh2]. apply andb_prop in Hok as [Hok Hw2].
    apply andb_prop in Hok as [Hw1 Hh1].
    apply Z.ltb_lt in Hw1, Hh1, Hw2, Hh2.
    repeat split; try assumption.
    apply orb_false_elim in Hsig as [Hsig H3].
    apply orb_false_elim in Hsig as [Hsig H2].
    apply orb_false_elim in Hsig as [H0 H1].
    apply negb_false_iff, Z.eqb_eq in H0, H1, H2, H3.
    destruct png_data as [| a0 [| a1 [| a2 [| a3 tl]]]];
      cbn [List.length] in Hlen; try lia.
    cbn [nth] in H0, H1, H2, H3. cbn [firstn].
    rewrite (byte_val_inj a0 _ x89 H0 eq_refl), (byte_val_inj a1 _ x50 H1 eq_refl),
      (byte_val_inj a2 _ x4e H2 eq_refl), (byte_val_inj a3 _ x47 H3 eq_refl).
    reflexivity.
  - intros skipped w h rest width height Hskip Hw Hh.
    do 12 (destruct skipped as [| ? skipped]; [discriminate |]).
    destruct skipped; [| discriminate].
    unfold ParsePngDimensions, png_with_size, big_endian_bytes.
    cbn [app List.length nth].
    match goal with
    | |- context [Z.of_nat ?n <? 24] =>
      destruct (Z.ltb_spec (Z.of_nat n) 24) as [Hlt | _]; [lia |]
    end.
    change (byte_val x89 =? 137) with true. change (byte_val x50 =? 80) with true.
    change (byte_val x4e =? 78) with true. change (byte_val x47 =? 71) with true.
    cbn [negb orb].
    rewrite !byte_val_byte_of.
    now rewrite (big_endian_int_bytes w Hw), (big_endian_int_bytes h Hh).
Qed.

Example ParsePngDimensions_800_600 :
  ParsePngDimensions
    (png_with_size [x0d; x0a; x1a; x0a; x00; x00; x00; x0d; x49; x48; x44; x52]
       800 600 [x08; x06])
    0 0 = (true, 800, 600).
Proof. vm_compute. reflexivity. Qed.

End PngHeaderFacts.

(** ** The identifiers the code generates *)

Section UuidFacts.
Local Open Scope Z_scope.

(** [oss << std::hex << d] for a draw [d] of a distribution over 0..15 (or
    8..11): one lower-case hexadecimal digit. *)
Definition hex_digit (d : Z) : ascii :=
  nth (Z.to_nat d) (list_ascii_of_string "0123456789abcdef") "0"%char.

Definition dash_before (i : nat) : bool :=
  Nat.eqb i 8 || Nat.eqb i 12 || Nat.eqb i 16 || Nat.eqb i 20.

(** [StorageManager::GenerateUUID]: the loop from index [i], with [n] turns
    left; [dis i] is the number drawn in turn [i]. *)
Fixpoint GenerateUUID_from (n i : nat) (dis : nat -> Z) : string :=
  match n with
  | O => EmptyString
  | S n' =>
    (if dash_before i then "-" else EmptyString)
    +:+ String (hex_digit (dis i)) (GenerateUUID_from n' (S i) dis)
  end.

Definition GenerateUUID (dis : nat -> Z) : string := GenerateUUID_from 32 0 dis.

(** [generate_uuid] of the plugin: the same loop with the version digit at
    index 12 and a draw from 8..11 at index 16. *)
Fixpoint generate_uuid_from (n i : nat) (dis dis2 : nat -> Z) : string :=
  match n with
  | O => EmptyString
  | S n' =>
    (if dash_before i then "-" else EmptyString)
    +:+ String (if Nat.eqb i 12 then "4"%char
                else if Nat.eqb i 16 then hex_digit (dis2 i)
                else hex_digit (dis i))
               (generate_uuid_from n' (S i) dis dis2)
  end.

Definition generate_uuid (dis dis2 : nat -> Z) : string :=
  generate_uuid_from 32 0 dis dis2.

(** A hexadecimal digit or a dash. *)
Definition uuid_char (c : ascii) : bool :=
  existsb (Ascii.eqb c) (list_ascii_of_string "0123456789abcdef-").

Lemma hex_digit_uuid_char (d : Z) : 0 <= d <= 15 -> uuid_char (hex_digit d) = true.
Proof.
  intros Hd. unfold hex_digit.
  assert (Hn : (Z.to_nat d < 16)%nat) by lia.
  generalize dependent (Z.to_nat d). intros n Hn.
  do 16 (destruct n as [| n]; [reflexivity |]). lia.
Qed.

Lemma hex_digit_variant (d : Z) :
  8 <= d <= 11 -> In (hex_digit d) ["8"; "9"; "a"; "b"]%char.
Proof.
  intros Hd. unfold hex_digit.
  assert (Hn : (8 <= Z.to_nat d < 12)%nat) by lia.
  generalize dependent (Z.to_nat d). intros n Hn.
  do 8 (destruct n as [| n]; [lia |]).
  do 4 (destruct n as [| n]; [cbn; tauto |]). lia.
Qed.

Lemma uuid_chars_no_bar (s : string) :
  forallb uuid_char (list_ascii_of_string s) = true ->
  find_char "|"%char s 0 = None.
Proof.
  induction s as [| c s IH]; [reflexivity |].
  cbn [list_ascii_of_string forallb find_char].
  intros H. apply andb_prop in H as [Hc Hs]. rewrite (IH Hs).
  destruct (Ascii.eqb_spec c "|"%char) as [-> | _]; [discriminate | reflexivity].
Qed.

Lemma GenerateUUID_from_chars (dis : nat -> Z) (n i : nat) :
  (forall k, 0 <= dis k <= 15) ->
  forallb uuid_char (list_ascii_of_string (GenerateUUID_from n i dis)) = true.
Proof.
  intros Hdis. revert i. induction n as [| n IH]; intros i; [reflexivity |].
  cbn [GenerateUUID_from].
  destruct (dash_before i);
    rewrite ?string_app_cons, ?string_app_nil_l;
    cbn [list_ascii_of_string forallb];
    rewrite IH, hex_digit_uuid_char by apply Hdis; reflexivity.
Qed.

Lemma generate_uuid_from_chars (dis dis2 : nat -> Z) (n i : nat) :
  (forall k, 0 <= dis k <= 15) -> (forall k, 8 <= dis2 k <= 11) ->
  forallb uuid_char (list_ascii_of_string (generate_uuid_from n i dis dis2))
  = true.
Proof.
  intros Hdis Hdis2. revert i. induction n as [| n IH]; intros i; [reflexivity |].
  cbn [generate_uuid_from].
  assert (Hc : uuid_char (if Nat.eqb i 12 then "4"%char
                          else if Nat.eqb i 16 then hex_digit (dis2 i)
                               else hex_digit (dis i)) = true).
  { destruct (Nat.eqb i 12); [reflexivity |].
    destruct (Nat.eqb i 16); apply hex_digit_uuid_char;
      [specialize (Hdis2 i); lia | apply Hdis]. }
  destruct (dash_before i);
    rewrite ?string_app_cons, ?string_app_nil_l;
    cbn [list_ascii_of_string forallb];
    rewrite IH, Hc; reflexivity.
Qed.

(** X30.  Both generators, fed with draws from their distributions, return 36
    characters, each a lower-case hexadecimal digit or a dash, with the
    dashes at the positions 8, 13, 18 and 23.  The plugin's generator puts
    the version digit 4 at position 14 and one of 8, 9, a, b at position 19.
    In particular a generated id is never empty and holds no ['|'], the
    separator of the strings [GetQueuedEvents] returns. *)
Theorem generated_ids_well_formed (dis dis2 : nat -> Z) :
  (forall k, 0 <= dis k <= 15) -> (forall k, 8 <= dis2 k <= 11) ->
  (String.length (GenerateUUID dis) = 36%nat
   /\ String.length (generate_uuid dis dis2) = 36%nat)
  /\ (forall i : nat,
         In i [8; 13; 18; 23]%nat ->
         String.get i (GenerateUUID dis) = Some "-"%char
         /\ String.get i (generate_uuid dis dis2) = Some "-"%char)
  /\ String.get 14 (generate_uuid dis dis2) = Some "4"%char
  /\ (exists c : ascii,
         String.get 19 (generate_uuid dis dis2) = Some c
         /\ In c ["8"; "9"; "a"; "b"]%char)
  /\ (forallb uuid_char (list_ascii_of_string (GenerateUUID dis)) = true
      /\ forallb uuid_char (list_ascii_of_string (generate_uuid dis dis2)) = true)
  /\ (no_bar (GenerateUUID dis) /\ no_bar (generate_uuid dis dis2))
  /\ (GenerateUUID dis <> EmptyString /\ generate_uuid dis dis2 <> EmptyString).
Proof.
  intros Hdis Hdis2.
  pose proof (GenerateUUID_from_chars dis 32 0 Hdis) as Hu.
  pose proof (generate_uuid_from_chars dis dis2 32 0 Hdis Hdis2) as Hv.
  fold (GenerateUUID dis) in Hu. fold (generate_uuid dis dis2) in Hv.
  split; [split; reflexivity |].
  split.
  { intros i [<- | [<- | [<- | [<- | []]]]]; split; reflexivity. }
  split; [reflexivity |].
  split.
  { exists (hex_digit (dis2 16%nat)). split; [reflexivity |].
    apply hex_digit_variant, Hdis2. }
  split; [split; assumption |].
  split; [split; now apply uuid_chars_no_bar |].
  split; discriminate.
Qed.

Lemma generated_ids_well_formed_witness :
  String.length (GenerateUUID (fun _ => 10)) = 36%nat
  /\ no_bar (generate_uuid (fun _ => 10) (fun _ => 8))
  /\ generate_uuid (fun _ => 10) (fun _ => 8)
     = "aaaaaaaa-aaaa-4aaa-8aaa-aaaaaaaaaaaa".
Proof.
  destruct (generated_ids_well_formed (fun _ => 10) (fun _ => 8)
              ltac:(intros; lia) ltac:(intros; lia))
    as ((Hlen & _) & _ & _ & _ & _ & (_ & Hbar) & _).
  split; [exact Hlen |]. split; [exact Hbar | reflexivity].
Defined.

End UuidFacts.
